(** * telegram-summarizer: a shallow embedding of [telegram-summarizer.py]

    The script reads a Telegram export, keeps the records newer than a
    stored cursor, summarises them chunk by chunk through a remote
    service, and keeps a snapshot of its progress in a state file.

    Layout of this development:
    - [PyStr]     Python strings as lists of code points;
    - [Config]    the module-level constants of the script;
    - [Model]     the functions of the script, over an environment [env]
                  that stands for everything the script does not own
                  (tokenizer, remote service, random source, clock,
                  file-system faults);
    - [Samples]   concrete environments and inputs;
    - the properties. *)

From Stdlib Require Import ZArith QArith Lqa Lia List String Ascii Bool.
From Stdlib Require Import DecimalString Sorted.
From stdpp Require Import base option list gmap strings.

Local Open Scope Z_scope.

(* ===================================================================== *)
(** * Python strings *)
(* ===================================================================== *)

Module PyStr.

(** A Python [str] is a sequence of Unicode code points. *)
Definition char := N.
Definition str := list char.

(** A literal of the source, written as a Rocq string. *)
Definition lit (s : string) : str :=
  List.map N_of_ascii (list_ascii_of_string s).

(** [str.isspace] on one code point: the code points that [str.strip()]
    removes when called without argument. *)
Definition isspace (c : char) : bool :=
  ((9 <=? c) && (c <=? 13) || (28 <=? c) && (c <=? 32)
   || (c =? 133) || (c =? 160) || (c =? 5760)
   || (8192 <=? c) && (c <=? 8202)
   || (c =? 8232) || (c =? 8233) || (c =? 8239) || (c =? 8287)
   || (c =? 12288))%N.

Fixpoint lstrip (s : str) : str :=
  match s with
  | c :: s' => if isspace c then lstrip s' else s
  | [] => []
  end.

Definition rstrip (s : str) : str := rev (lstrip (rev s)).

(** [s.strip()] *)
Definition strip (s : str) : str := rstrip (lstrip s).

Definition char_eqb (a b : char) : bool := (a =? b)%N.

(** [a == b] on strings *)
Fixpoint str_eqb (a b : str) : bool :=
  match a, b with
  | [], [] => true
  | x :: a', y :: b' => char_eqb x y && str_eqb a' b'
  | _, _ => false
  end.

(** [s.startswith(p)] *)
Fixpoint startswith (s p : str) {struct p} : bool :=
  match p, s with
  | [], _ => true
  | y :: p', x :: s' => char_eqb x y && startswith s' p'
  | _ :: _, [] => false
  end.

(** [sep.join(parts)] *)
Fixpoint join (sep : str) (parts : list str) : str :=
  match parts with
  | [] => []
  | [p] => p
  | p :: rest => p ++ sep ++ join sep rest
  end.

(** Truth value of a string: [not s] holds for the empty string only. *)
Definition nonempty (s : str) : bool :=
  match s with [] => false | _ :: _ => true end.

(** [seq[:k]] for a possibly negative [k]: Python counts a negative stop
    from the end of the sequence. *)
Definition slice_to {A} (k : Z) (l : list A) : list A :=
  if k <? 0 then take (Z.to_nat (Z.of_nat (length l) + k)) l
  else take (Z.to_nat k) l.

(** [seq[a:b]] for non-negative bounds. *)
Definition slice {A} (a b : nat) (l : list A) : list A :=
  take (b - a) (drop a l).

(** [str(n)] for an integer. *)
Definition str_of_Z (n : Z) : str :=
  lit (NilZero.string_of_int (Z.to_int n)).

#[global] Arguments lit : simpl never.

End PyStr.
Import PyStr.

(* ===================================================================== *)
(** * Module-level constants *)
(* ===================================================================== *)

Module Config.

Definition MESSAGES_PER_CHUNK : nat := 50.
Definition MAX_PREVIOUS_INSIGHTS_TOKENS_FOR_CHUNK_PROCESSING : Z := 100000.
Definition MAX_TOKENS_FOR_INSIGHT_COLLECTION_COMPACTION : Z := 150000.
Definition MAX_INSIGHTS_PER_META_CHUNK_FOR_REPORT : nat := 30.
Definition MAX_TOKENS_FOR_FINAL_REPORT_GENERATION : Z := 180000.
Definition MAX_API_RETRIES : Z := 5.
Definition INITIAL_BACKOFF_SECONDS : Z := 5.
Definition MAX_BACKOFF_SECONDS : Z := 120.

Definition ANTHROPIC_API_KEY : str := lit "YOUR KEY GOES HERE".

(** The separator placed between insight texts. *)
Definition SEP : str := [10; 10; 45; 45; 45; 10; 10]%N.

(** The two reserved prefixes of an error-marker. *)
Definition is_error_marker (s : str) : bool :=
  startswith s (lit "ANTHROPIC_") || startswith s (lit "UNEXPECTED_").

Definition NO_NEW_INSIGHTS : str := lit "NO_NEW_INSIGHTS".

(** A line break. *)
Definition NL : str := [10]%N.

#[global] Arguments SEP : simpl never.
#[global] Arguments NL : simpl never.

End Config.
Import Config.

(* ===================================================================== *)
(** * Data model *)
(* ===================================================================== *)

(** A value read from a JSON object where the script expects a string:
    [None] is Python's [None] (JSON null). *)
Inductive pyval :=
  | PNone
  | PStr (s : str).

(** A key of a JSON object: absent, or present with a value. *)
Definition jfield := option pyval.

(** [d.get(key, default)] *)
Definition get_default (f : jfield) (default : str) : pyval :=
  match f with
  | Some v => v
  | None => PStr default
  end.

(** Truth value, as tested by [if v:] and by [v or ...]. *)
Definition truthy (v : pyval) : bool :=
  match v with
  | PNone => false
  | PStr s => nonempty s
  end.

(** [d.get(key)], used as a condition. *)
Definition flag (f : jfield) : bool :=
  match f with
  | Some v => truthy v
  | None => false
  end.

(** How an f-string prints the value. *)
Definition fmt (v : pyval) : str :=
  match v with
  | PNone => lit "None"
  | PStr s => s
  end.

(** The ['text'] field of a message: a string, a list of segments, or
    something else. *)
Inductive segment :=
  | SegEntity (text : str)    (* a dict with a 'text' key *)
  | SegPlain (s : str)        (* a bare string *)
  | SegOther.                 (* anything else *)

Inductive text_data :=
  | TextStr (s : str)
  | TextList (segs : list segment)
  | TextOther.

(** One element of the export's ['messages'] list, one field per key the
    script reads.  [m_id] and [m_date_unixtime] hold the outcome of [int(...)] on the stored value:
    [None] when the conversion raises [ValueError] or [TypeError]. *)
Record message := {
  m_id : option Z;
  m_date_unixtime : option Z;
  m_type : jfield;
  m_text : option text_data;
  m_from : jfield;
  m_reply_to_message_id : option Z;
  m_file : jfield;
  m_file_name : jfield;
  m_photo : jfield;
  m_sticker : jfield;
  m_sticker_emoji : jfield;
  m_date : jfield
}.

(** A message whose [id] and [date_unixtime] have been replaced by their
    integer values (line 125 of the source). *)
Record valid_message := {
  msg_id : Z;
  msg_timestamp_unix : Z;
  msg_data : message
}.

(** An element of [new_formatted_messages]. *)
Record formatted := {
  f_id : Z;
  text_for_llm : str;
  timestamp_unix : Z;
  timestamp_utc : pyval
}.

(** The outcome of reading and parsing the export file. *)
Inductive export_file :=
  | ExportUnreadable
  | ExportData (messages : option (list message)).

(** An element of [individual_useful_insights]. *)
Record insight := {
  chunk_start_message_id : Z;
  chunk_end_message_id : Z;
  chunk_start_message_timestamp_utc : pyval;
  chunk_end_message_timestamp_utc : pyval;
  insight_text : str;
  generated_at_utc : str
}.

(** The state dictionary. *)
Record state_data := {
  last_processed_message_id : Z;
  last_processed_message_timestamp_unix : Z;
  individual_useful_insights : list insight;
  latest_report_filename : option str;
  report_generated_at_utc : option str;
  system_prompts_used : gmap string str
}.

(** What the state file holds: keys may be missing from a snapshot
    written by hand or by an older version. *)
Record snapshot := {
  snap_last_processed_message_id : option Z;
  snap_last_processed_message_timestamp_unix : option Z;
  snap_individual_useful_insights : option (list insight);
  snap_latest_report_filename : option (option str);
  snap_report_generated_at_utc : option (option str);
  snap_system_prompts_used : option (gmap string str)
}.

Inductive state_file :=
  | FileMissing                 (* os.path.exists is false *)
  | FileUnreadable              (* open raises *)
  | FileGarbled                 (* json.load raises, or the value is no object *)
  | FileSnapshot (s : snapshot).

(** A request to the summarization service. *)
Record request := {
  req_system : str;
  req_user : str;
  req_max_tokens : Z
}.

(** What [client.messages.create] does on one attempt. *)
Inductive api_outcome :=
  | ApiText (t : str)
      (* a response; [t] is response.content[0].text *)
  | ApiError (status_code : option Z) (message : str) (as_str : str)
      (* APIError or APITimeoutError; [status_code] is present on status
         errors only; [as_str] is str(e) *)
  | OtherException (as_str : str).

(** What opening and writing the state file does. *)
Inductive write_outcome :=
  | Written
  | OpenFailed       (* open raises: the file is left as it was *)
  | DumpFailed.      (* json.dump raises after the file was truncated *)

(** How writing a report file fails when it does (lines 289-293). *)
Inductive report_fault :=
  | ReportOpenFailed
      (* open raises: no file is created *)
  | ReportWriteFailed (header_formatted : bool) (kept : nat).
      (* a write, or the close that ends the with-block, raises after the
         file was created: [header_formatted] tells whether the first
         write had returned, so that the "Generated on" line of line 291
         was formatted; [kept] is the number of characters that reached
         the file *)

(* ===================================================================== *)
(** * The environment and the world *)
(* ===================================================================== *)

(** Everything the script consults but does not own.  The oracles are
    indexed by how many times they have been consulted before, so that a
    run is a function of its environment. *)
Record env := {
  (** [TOKENIZER.encode] and [TOKENIZER.decode] *)
  tokenizer_encode : str -> list N;
  tokenizer_decode : list N -> str;
  (** the three instruction texts *)
  SYSTEM_PROMPT_CHUNK_INSIGHTS : str;
  SYSTEM_PROMPT_COMPACT_INSIGHTS_COLLECTION : str;
  SYSTEM_PROMPT_FINAL_REPORT : str;
  (** [client.messages.create], by number of earlier attempts *)
  messages_create : nat -> request -> api_outcome;
  (** [os.urandom(1)[0]], by number of earlier attempts *)
  urandom : nat -> Byte.byte;
  (** [datetime.datetime.utcnow().isoformat()], by number of earlier reads *)
  utcnow_isoformat : nat -> str;
  (** [datetime.datetime.now().strftime(...)] for the report's name and
      for its header, by number of earlier reads *)
  now_file_stamp : nat -> str;
  now_header_stamp : nat -> str;
  (** what the n-th write of the state file does *)
  state_write : nat -> write_outcome;
  (** whether the n-th write of a report file succeeds *)
  report_write : nat -> bool;
  (** how the n-th write of a report file fails, when it does *)
  report_failure : nat -> report_fault
}.

(** What a run changes. *)
Record world := {
  requests : list request;          (* attempts sent, oldest first *)
  sleeps : list Q;                  (* time.sleep arguments, oldest first *)
  clock_reads : nat;
  state_writes : nat;
  on_disk : state_file;             (* the state file *)
  report_writes : nat;
  report_files : list (str * str);  (* report files: name, content *)
  export_removed : bool             (* os.remove(export_file) was called *)
}.

(** Computations that read the environment and change the world. *)
Definition M (A : Type) : Type := world -> A * world.

Definition ret {A} (a : A) : M A := fun w => (a, w).

Definition bind {A B} (m : M A) (k : A -> M B) : M B :=
  fun w => let (a, w') := m w in k a w'.

Declare Scope m_scope.
Delimit Scope m_scope with m.
Notation "'let!' x ':=' m 'in' k" := (bind m (fun x => k))
  (at level 10, x name, m at level 100, k at level 200) : m_scope.
Notation "'let!' ' p ':=' m 'in' k" := (bind m (fun p => k))
  (at level 10, p pattern, m at level 100, k at level 200) : m_scope.
Notation "'do!' m 'in' k" := (bind m (fun _ => k))
  (at level 10, m at level 100, k at level 200) : m_scope.
Open Scope m_scope.

Definition log_request (r : request) : M unit := fun w =>
  (tt, {| requests := requests w ++ [r]; sleeps := sleeps w;
          clock_reads := clock_reads w; state_writes := state_writes w;
          on_disk := on_disk w; report_writes := report_writes w;
          report_files := report_files w;
          export_removed := export_removed w |}).

(** [time.sleep(seconds)] *)
Definition sleep (seconds : Q) : M unit := fun w =>
  (tt, {| requests := requests w; sleeps := sleeps w ++ [seconds];
          clock_reads := clock_reads w; state_writes := state_writes w;
          on_disk := on_disk w; report_writes := report_writes w;
          report_files := report_files w;
          export_removed := export_removed w |}).

Definition read_clock : M nat := fun w =>
  (clock_reads w,
   {| requests := requests w; sleeps := sleeps w;
      clock_reads := S (clock_reads w); state_writes := state_writes w;
      on_disk := on_disk w; report_writes := report_writes w;
      report_files := report_files w;
      export_removed := export_removed w |}).

(** One attempt at writing the state file, with the content it gets. *)
Definition put_state_file (f : nat -> state_file -> state_file) : M unit :=
  fun w =>
  (tt, {| requests := requests w; sleeps := sleeps w;
          clock_reads := clock_reads w; state_writes := S (state_writes w);
          on_disk := f (state_writes w) (on_disk w);
          report_writes := report_writes w;
          report_files := report_files w;
          export_removed := export_removed w |}).

(** One attempt at writing a report file. *)
Definition put_report_file (ok : bool) (name content : str) : M unit :=
  fun w =>
  (tt, {| requests := requests w; sleeps := sleeps w;
          clock_reads := clock_reads w; state_writes := state_writes w;
          on_disk := on_disk w; report_writes := S (report_writes w);
          report_files := if ok then (name, content) :: report_files w
                          else report_files w;
          export_removed := export_removed w |}).

(** The world after further attempts and sleeps. *)
Definition after_attempts (w : world) (sent : list request)
    (slept : list Q) : world :=
  {| requests := requests w ++ sent; sleeps := sleeps w ++ slept;
     clock_reads := clock_reads w; state_writes := state_writes w;
     on_disk := on_disk w; report_writes := report_writes w;
     report_files := report_files w;
     export_removed := export_removed w |}.

(** Between [w] and [w'] the only effects are attempts sent to the
    service and sleeps between them. *)
Definition only_service_traffic (w w' : world) : Prop :=
  exists sent slept, w' = after_attempts w sent slept.

(** [os.remove(export_file)] *)
Definition remove_export : M unit := fun w =>
  (tt, {| requests := requests w; sleeps := sleeps w;
          clock_reads := clock_reads w; state_writes := state_writes w;
          on_disk := on_disk w; report_writes := report_writes w;
          report_files := report_files w;
          export_removed := true |}).

(** [os.path.exists] on a report file. *)
Definition report_exists (name : str) : M bool := fun w =>
  (existsb (fun nc => str_eqb (fst nc) name) (report_files w), w).

(* ===================================================================== *)
(** * The functions of the script *)
(* ===================================================================== *)

Section Model.

Variable E : env.

(** ** Token estimator *)

Definition count_tokens (text_string : str) : Z :=
  if nonempty text_string
  then Z.of_nat (length (tokenizer_encode E text_string))
  else 0.

(** ** State file *)

Definition fresh_state : state_data :=
  {| last_processed_message_id := 0;
     last_processed_message_timestamp_unix := 0;
     individual_useful_insights := [];
     latest_report_filename := None;
     report_generated_at_utc := None;
     system_prompts_used := ∅ |}.

(** [load_state_data]: the snapshot with its missing keys filled in, or
    the fresh state when the file is absent or cannot be loaded. *)
Definition load_state_data (f : state_file) : state_data :=
  match f with
  | FileSnapshot s =>
      {| last_processed_message_id :=
           default 0 (snap_last_processed_message_id s);
         last_processed_message_timestamp_unix :=
           default 0 (snap_last_processed_message_timestamp_unix s);
         individual_useful_insights :=
           default [] (snap_individual_useful_insights s);
         latest_report_filename :=
           default None (snap_latest_report_filename s);
         report_generated_at_utc :=
           default None (snap_report_generated_at_utc s);
         system_prompts_used :=
           default ∅ (snap_system_prompts_used s) |}
  | FileMissing | FileUnreadable | FileGarbled => fresh_state
  end.

(** What [json.dump] writes for a state dictionary. *)
Definition snapshot_of (data : state_data) : snapshot :=
  {| snap_last_processed_message_id := Some (last_processed_message_id data);
     snap_last_processed_message_timestamp_unix :=
       Some (last_processed_message_timestamp_unix data);
     snap_individual_useful_insights := Some (individual_useful_insights data);
     snap_latest_report_filename := Some (latest_report_filename data);
     snap_report_generated_at_utc := Some (report_generated_at_utc data);
     snap_system_prompts_used := Some (system_prompts_used data) |}.

Definition record_prompts (data : state_data) : state_data :=
  {| last_processed_message_id := last_processed_message_id data;
     last_processed_message_timestamp_unix :=
       last_processed_message_timestamp_unix data;
     individual_useful_insights := individual_useful_insights data;
     latest_report_filename := latest_report_filename data;
     report_generated_at_utc := report_generated_at_utc data;
     system_prompts_used :=
       <["final_report"%string := SYSTEM_PROMPT_FINAL_REPORT E]>
       (<["compact_insights_collection"%string :=
            SYSTEM_PROMPT_COMPACT_INSIGHTS_COLLECTION E]>
       (<["chunk_insights"%string := SYSTEM_PROMPT_CHUNK_INSIGHTS E]>
          (system_prompts_used data))) |}.

(** [save_state_data]: the dictionary is updated in place with the prompts
    and then written; a failure of the write is caught and only printed.
    The updated dictionary is returned to the caller, who holds the same
    object in the source. *)
Definition save_state_data (data : state_data) : M state_data :=
  let data' := record_prompts data in
  do! put_state_file (fun n old =>
        match state_write E n with
        | Written => FileSnapshot (snapshot_of data')
        | OpenFailed => old
        | DumpFailed => FileGarbled
        end) in
  ret data'.

(** ** Reading the export *)

Definition segment_text (seg : segment) : str :=
  match seg with
  | SegEntity t => t
  | SegPlain s => s
  | SegOther => []
  end.

Definition parse_telegram_message_text (text_data : text_data) : str :=
  match text_data with
  | TextStr s => strip s
  | TextList segs => strip (concat (List.map segment_text segs))
  | TextOther => []
  end.

(** The text of a ['text'] field before it is stripped. *)
Definition raw_text_of (text_data : text_data) : str :=
  match text_data with
  | TextStr s => s
  | TextList segs => concat (List.map segment_text segs)
  | TextOther => []
  end.

(** [msg_data.get('text', '')] parsed. *)
Definition message_text (m : message) : str :=
  parse_telegram_message_text (default (TextStr []) (m_text m)).

(** [msg_data.get('type') == 'message'] *)
Definition is_message (m : message) : bool :=
  match m_type m with
  | Some (PStr s) => str_eqb s (lit "message")
  | _ => false
  end.

(** [d.get('from', absent) or 'System'] *)
Definition sender_of (m : message) (absent : str) : str :=
  let v := get_default (m_from m) absent in
  if truthy v then fmt v else lit "System".

(** Lines 124-125: both conversions must succeed. *)
Definition validate (m : message) : option valid_message :=
  match m_id m, m_date_unixtime m with
  | Some i, Some t =>
      Some {| msg_id := i; msg_timestamp_unix := t; msg_data := m |}
  | _, _ => None
  end.

(** Lines 122-128: the malformed messages are dropped, the others are
    collected in file order, and those of type 'message' are indexed by
    id (a later message replaces an earlier one with the same id). *)
Fixpoint scan_messages (all_messages_in_file : list message)
    (message_lookup_dict : gmap Z message)
    (valid_messages_for_sorting : list valid_message)
  : gmap Z message * list valid_message :=
  match all_messages_in_file with
  | [] => (message_lookup_dict, valid_messages_for_sorting)
  | m :: rest =>
      match validate m with
      | Some v =>
          scan_messages rest
            (if is_message m then <[msg_id v := m]> message_lookup_dict
             else message_lookup_dict)
            (valid_messages_for_sorting ++ [v])
      | None =>
          scan_messages rest message_lookup_dict valid_messages_for_sorting
      end
  end.

(** The sort key [(m['date_unixtime'], m['id'])], compared as tuples. *)
Definition key_le (a b : valid_message) : bool :=
  (msg_timestamp_unix a <? msg_timestamp_unix b)
  || ((msg_timestamp_unix a =? msg_timestamp_unix b)
      && (msg_id a <=? msg_id b)).

Fixpoint insert_by_key (x : valid_message) (l : list valid_message)
  : list valid_message :=
  match l with
  | [] => [x]
  | y :: l' => if key_le x y then x :: l else y :: insert_by_key x l'
  end.

(** [list.sort(key=...)] is stable: among equal keys the file order is
    kept.  Stable insertion computes the same list. *)
Definition sort_by_key (l : list valid_message) : list valid_message :=
  fold_right insert_by_key [] l.

(** Line 140-141: the test that makes the loop skip a message. *)
Definition already_processed (last_id_processed last_timestamp_unix_processed : Z)
    (v : valid_message) : bool :=
  (msg_timestamp_unix v <? last_timestamp_unix_processed)
  || ((msg_timestamp_unix v =? last_timestamp_unix_processed)
      && (msg_id v <=? last_id_processed)).

(** The pair (timestamp, id) of [v] is lexicographically strictly greater
    than the stored cursor. *)
Definition after_cursor (last_id_processed last_timestamp_unix_processed : Z)
    (timestamp id : Z) : Prop :=
  last_timestamp_unix_processed < timestamp
  \/ (last_timestamp_unix_processed = timestamp /\ last_id_processed < id).

(** The message has something to render: a text that is not blank, or a
    file, photo or sticker flag. *)
Definition renderable (m : message) : bool :=
  nonempty (message_text m)
  || flag (m_file m) || flag (m_photo m) || flag (m_sticker m).

(** Lines 150-154: the text quoted from the message replied to. *)
Definition original_text_of (original_msg : message) : str :=
  let original_text := message_text original_msg in
  if nonempty original_text then original_text
  else if flag (m_file original_msg) then
    lit "[File: " ++ fmt (get_default (m_file_name original_msg) (lit "attachment"))
    ++ lit "]"
  else if flag (m_photo original_msg) then lit "[Photo]"
  else if flag (m_sticker original_msg) then
    strip (lit "[Sticker "
           ++ fmt (get_default (m_sticker_emoji original_msg) []) ++ lit "]")
  else [].

(** Line 156 *)
Definition reply_snippet_of (original_text : str) : str :=
  if (75 <? length original_text)%nat
  then take 75 original_text ++ lit "..."
  else original_text.

(** Lines 144-157: the prefix of the rendered line. *)
Definition llm_text_prefix_of (message_lookup_dict : gmap Z message)
    (m : message) : str :=
  let sender_name := sender_of m (lit "Unknown Sender") in
  let plain := lit "From " ++ sender_name ++ lit ":" in
  match m_reply_to_message_id m with
  | Some reply_to_id =>
      if reply_to_id =? 0 then plain
      else
        match message_lookup_dict !! reply_to_id with
        | Some original_msg =>
            let original_sender_name :=
              sender_of original_msg (lit "Original Sender") in
            let original_text := original_text_of original_msg in
            if nonempty original_text then
              lit "From " ++ sender_name ++ lit " (replying to '"
              ++ original_sender_name ++ lit ": "
              ++ reply_snippet_of original_text ++ lit "'):"
            else plain
        | None => plain
        end
  | None => plain
  end.

(** Lines 160-165: the rendered line, or nothing when the message has no
    content. *)
Definition final_text_for_llm_of (llm_text_prefix : str) (m : message)
  : option str :=
  let text_content := message_text m in
  if nonempty text_content then
    Some (llm_text_prefix ++ lit " " ++ text_content)
  else if flag (m_file m) then
    Some (llm_text_prefix ++ lit " [Sent a file: "
          ++ fmt (get_default (m_file_name m) (lit "attachment")) ++ lit "]")
  else if flag (m_photo m) then
    Some (llm_text_prefix ++ lit " [Sent a photo]")
  else if flag (m_sticker m) then
    Some (strip (llm_text_prefix ++ lit " [Sent a sticker "
                 ++ fmt (get_default (m_sticker_emoji m) []) ++ lit "]"))
  else None.

(** What a rendered line shows after its prefix: the text of the
    message, or a note on what was sent. *)
Definition content_of (m : message) : str :=
  if nonempty (message_text m) then message_text m
  else if flag (m_file m) then
    lit "[Sent a file: "
    ++ fmt (get_default (m_file_name m) (lit "attachment")) ++ lit "]"
  else if flag (m_photo m) then lit "[Sent a photo]"
  else lit "[Sent a sticker "
       ++ fmt (get_default (m_sticker_emoji m) []) ++ lit "]".

(** One iteration of the loop of lines 138-166: the entry appended to
    [new_formatted_messages], or nothing when the loop continues. *)
Definition format_message (message_lookup_dict : gmap Z message)
    (last_id_processed last_timestamp_unix_processed : Z)
    (v : valid_message) : option formatted :=
  if already_processed last_id_processed last_timestamp_unix_processed v
  then None
  else if negb (is_message (msg_data v)) then None
  else
    match final_text_for_llm_of
            (llm_text_prefix_of message_lookup_dict (msg_data v))
            (msg_data v) with
    | Some final_text_for_llm =>
        Some {| f_id := msg_id v;
                text_for_llm := final_text_for_llm;
                timestamp_unix := msg_timestamp_unix v;
                timestamp_utc := get_default (m_date (msg_data v)) [] |}
    | None => None
    end.

(** [load_and_format_new_messages]: the new lines, and the ids of the
    first and of the last message of the file in sorted order. *)
Definition load_and_format_new_messages (export : export_file)
    (last_id_processed last_timestamp_unix_processed : Z)
  : list formatted * Z * Z :=
  match export with
  | ExportUnreadable => ([], 0, 0)
  | ExportData messages =>
      let all_messages_in_file := default [] messages in
      let '(message_lookup_dict, valid_messages_for_sorting) :=
        scan_messages all_messages_in_file ∅ [] in
      match sort_by_key valid_messages_for_sorting with
      | [] => ([], 0, 0)
      | first :: others =>
          let sorted := first :: others in
          (omap (format_message message_lookup_dict last_id_processed
                   last_timestamp_unix_processed) sorted,
           msg_id first,
           msg_id (List.last others first))
      end
  end.

(** ** Summarization client adapter *)

(** Line 179: which failures are tried again.  A failure without status
    code is reported as ['Timeout']. *)
Definition retriable (error_code : option Z) : bool :=
  match error_code with
  | Some c => (c =? 529) || (c =? 429) || ((500 <=? c) && (c <=? 599))
  | None => true
  end.

(** Lines 176-178 *)
Definition error_prefix_of (error_code : option Z) (message as_str : str)
  : str :=
  lit "ANTHROPIC_API_ERROR (Code "
  ++ match error_code with
     | Some c => str_of_Z c
     | None => lit "Timeout"
     end
  ++ lit "): " ++ (if nonempty message then message else as_str).

(** Line 181, the delay before jitter: the base delay doubled at each
    attempt, capped. *)
Definition nominal_backoff (attempt : Z) : Z :=
  Z.min (INITIAL_BACKOFF_SECONDS * 2 ^ (attempt - 1)) MAX_BACKOFF_SECONDS.

(** Line 181, over the rationals: the nominal delay times a factor drawn
    from one random byte. *)
Definition backoff_seconds (attempt : Z) (random : Byte.byte) : Q :=
  (inject_Z (nominal_backoff attempt)
   * (1 + inject_Z (Z.of_N (Byte.to_N random)) / 255 * (2 # 10)))%Q.

(** The request that every attempt of one call sends. *)
Definition request_of (system_prompt user_messages_content : str)
    (max_response_tokens : Z) : request :=
  {| req_system := system_prompt; req_user := user_messages_content;
     req_max_tokens := max_response_tokens |}.

Definition attempts_so_far : M nat := fun w => (length (requests w), w).

(** [call_anthropic_api] calls itself with [attempt + 1]; [fuel] bounds
    the depth of these calls. *)
Fixpoint call_anthropic_api_from (fuel : nat)
    (system_prompt user_messages_content : str)
    (max_response_tokens attempt : Z) : M str :=
  let req :=
    request_of system_prompt user_messages_content max_response_tokens in
  let! n := attempts_so_far in
  do! log_request req in
  match messages_create E n req with
  | ApiText t => ret (strip t)
  | ApiError error_code message as_str =>
      let error_prefix := error_prefix_of error_code message as_str in
      if retriable error_code then
        if attempt <? MAX_API_RETRIES then
          match fuel with
          | S fuel' =>
              do! sleep (backoff_seconds attempt (urandom E n)) in
              call_anthropic_api_from fuel' system_prompt
                user_messages_content max_response_tokens (attempt + 1)
          | O => ret error_prefix
          end
        else ret error_prefix
      else ret error_prefix
  | OtherException as_str =>
      ret (lit "UNEXPECTED_ANTHROPIC_API_ERROR: " ++ as_str)
  end.

(** The fuel given covers every attempt the test of line 180 allows. *)
Definition call_anthropic_api (system_prompt user_messages_content : str)
    (max_response_tokens attempt : Z) : M str :=
  call_anthropic_api_from (Z.to_nat (MAX_API_RETRIES - attempt))
    system_prompt user_messages_content max_response_tokens attempt.

(** What one attempt leads to. *)
Definition result_of_outcome (o : api_outcome) : str :=
  match o with
  | ApiText t => strip t
  | ApiError error_code message as_str =>
      error_prefix_of error_code message as_str
  | OtherException as_str => lit "UNEXPECTED_ANTHROPIC_API_ERROR: " ++ as_str
  end.

(** The attempt fails in a way that is tried again. *)
Definition fails_retriably (o : api_outcome) : bool :=
  match o with
  | ApiError error_code _ _ => retriable error_code
  | _ => false
  end.

(** The delays slept through when a call that starts at [attempt], as the
    [n]-th attempt overall, goes through [k] failed attempts. *)
Definition delays_of (attempt : Z) (n k : nat) : list Q :=
  List.map (fun i => backoff_seconds (attempt + Z.of_nat i) (urandom E (n + i)))
    (seq 0 k).

(** The time slept through, in seconds. *)
Definition total_sleep (delays : list Q) : Q :=
  fold_right Qplus 0%Q delays.

(** ** Compactor *)

(** Lines 210-215: the loop over the texts, most recent first. *)
Fixpoint most_recent_that_fit (reversed_texts : list str)
    (max_tokens_for_context : Z) (safe_str : str) (temp_tokens : Z) : str :=
  match reversed_texts with
  | [] => safe_str
  | text :: older =>
      let text_tokens := count_tokens text + 5 in
      if temp_tokens + text_tokens <=? max_tokens_for_context then
        most_recent_that_fit older max_tokens_for_context
          (text ++ SEP ++ safe_str) (temp_tokens + text_tokens)
      else safe_str
  end.

(** What the loop charges for one text, and for a list of texts. *)
Definition charge (text : str) : Z := count_tokens text + 5.

Definition total_charge (texts : list str) : Z :=
  fold_right (fun text acc => charge text + acc) 0 texts.

(** Lines 196-203: the text sent for compaction. *)
Definition compaction_input_of (full_insights_str prompt_for_compaction : str)
  : str :=
  let max_allowed_input_for_compactor :=
    MAX_TOKENS_FOR_INSIGHT_COLLECTION_COMPACTION
    - count_tokens prompt_for_compaction - 2000 in
  if max_allowed_input_for_compactor <? count_tokens full_insights_str then
    tokenizer_decode E
      (slice_to max_allowed_input_for_compactor
         (tokenizer_encode E full_insights_str))
  else full_insights_str.

(** Line 205 *)
Definition compaction_user_prompt_of
    (full_insights_str prompt_for_compaction : str) : str :=
  lit "Please compact the following collection of insights according to the instructions:"
  ++ NL ++ NL
  ++ compaction_input_of full_insights_str prompt_for_compaction.

Definition compact_insights_collection (insights_texts_list : list str)
    (max_tokens_for_context : Z) (prompt_for_compaction : str) : M str :=
  match insights_texts_list with
  | [] => ret []
  | _ :: _ =>
      let full_insights_str := join SEP insights_texts_list in
      let current_tokens := count_tokens full_insights_str in
      if max_tokens_for_context <? current_tokens then
        let user_prompt :=
          compaction_user_prompt_of full_insights_str prompt_for_compaction in
        let! compacted_summary :=
          call_anthropic_api prompt_for_compaction user_prompt 3000 1 in
        if is_error_marker compacted_summary then
          ret (strip (most_recent_that_fit (rev insights_texts_list)
                        max_tokens_for_context [] 0))
        else ret compacted_summary
      else ret full_insights_str
  end.

(** What the degraded path of the compactor promises about its [result]
    for the texts [insights_texts_list] and a budget: the texts split into
    the [older] ones that are dropped and the [selected] most recent ones;
    the result is the selected texts, each followed by the separator,
    stripped; the charges of the selected texts total at most the budget;
    the last dropped text would not have fitted; the result is non-empty
    exactly when a text was selected, that is when the most recent text
    fits; and the result is no error-marker when no text begins, after
    leading white space, with a reserved prefix. *)
Definition recent_texts_within_budget (insights_texts_list : list str)
    (max_tokens_for_context : Z) (result : str) : Prop :=
  exists older selected,
    insights_texts_list = older ++ selected
    /\ result = strip (concat (List.map (fun t => t ++ SEP) selected))
    /\ (selected <> [] -> total_charge selected <= max_tokens_for_context)
    /\ (forall t, last older = Some t ->
        max_tokens_for_context < total_charge selected + charge t)
    /\ (result <> [] <-> selected <> [])
    /\ (result <> [] <->
        exists t, last insights_texts_list = Some t
                  /\ charge t <= max_tokens_for_context)
    /\ (Forall (fun t => is_error_marker (lstrip t) = false)
          insights_texts_list ->
        is_error_marker result = false).

(** ** Report synthesizer *)

Definition set_report (data : state_data)
    (filename generated_at : option str) : state_data :=
  {| last_processed_message_id := last_processed_message_id data;
     last_processed_message_timestamp_unix :=
       last_processed_message_timestamp_unix data;
     individual_useful_insights := individual_useful_insights data;
     latest_report_filename := filename;
     report_generated_at_utc := generated_at;
     system_prompts_used := system_prompts_used data |}.

(** [datetime.datetime.utcnow().isoformat() + "Z"] *)
Definition utcnow_z : M str :=
  let! n := read_clock in ret (utcnow_isoformat E n ++ lit "Z").

(** [range(0, stop, step)] as a list. *)
Definition range_step (stop step : nat) : list nat :=
  List.map (fun k => k * step)%nat (seq 0 ((stop + step - 1) / step)%nat).

(** Lines 254-264: one call per meta-chunk; a failed call leaves a note
    in place of the summary. *)
Fixpoint summarize_meta_chunks (idx : nat) (meta_chunked_insights : list (list str))
  : M (list str) :=
  match meta_chunked_insights with
  | [] => ret []
  | meta_chunk :: rest =>
      let meta_chunk_text := join SEP meta_chunk in
      let! meta_summary :=
        call_anthropic_api (SYSTEM_PROMPT_COMPACT_INSIGHTS_COLLECTION E)
          (lit "Please provide a concise summary of the following insights, which are part of a larger collection for a final report:"
           ++ NL ++ NL ++ meta_chunk_text)
          2000 1 in
      let entry :=
        if is_error_marker meta_summary then
          lit "[Error summarizing meta-chunk "
          ++ str_of_Z (Z.of_nat idx + 1) ++ lit ": " ++ meta_summary ++ lit "]"
        else meta_summary in
      let! others := summarize_meta_chunks (S idx) rest in
      ret (entry :: others)
  end.

(** Lines 250-251: the groups of insight texts summarised one by one. *)
Definition meta_chunks_of (all_individual_insights : list str)
  : list (list str) :=
  List.map
    (fun i => slice i (i + MAX_INSIGHTS_PER_META_CHUNK_FOR_REPORT)
                all_individual_insights)
    (range_step (length all_individual_insights)
       MAX_INSIGHTS_PER_META_CHUNK_FOR_REPORT).

(** Lines 244-270: the text handed to the final call. *)
Definition report_input_of (all_individual_insights : list str) : M str :=
  let current_input_for_report := join SEP all_individual_insights in
  if MAX_TOKENS_FOR_FINAL_REPORT_GENERATION
     <? count_tokens current_input_for_report
  then
    let meta_chunked_insights :=
      List.map
        (fun i => slice i (i + MAX_INSIGHTS_PER_META_CHUNK_FOR_REPORT)
                    all_individual_insights)
        (range_step (length all_individual_insights)
           MAX_INSIGHTS_PER_META_CHUNK_FOR_REPORT) in
    let! summarized_meta_chunks :=
      summarize_meta_chunks 0 meta_chunked_insights in
    ret (join SEP summarized_meta_chunks)
  else ret current_input_for_report.

(** Lines 223-227 *)
Definition should_generate_report (state_data_ref : state_data)
    (new_insights_were_added_this_run : bool) : M bool :=
  let! report_file_present :=
    match latest_report_filename state_data_ref with
    | Some name => report_exists name
    | None => ret false
    end in
  ret (new_insights_were_added_this_run
       || (match individual_useful_insights state_data_ref with
           | [] => false
           | _ :: _ => true
           end
           && (negb (match latest_report_filename state_data_ref with
                     | Some name => nonempty name
                     | None => false
                     end)
               || negb (bool_decide
                          (is_Some (report_generated_at_utc state_data_ref)))
               || negb report_file_present))).

Definition report_write_index : M nat := fun w => (report_writes w, w).

(** Lines 285-304: writing the report file and recording it. *)
Definition save_report (state_data_ref : state_data)
    (chat_folder_basename final_report_text_content : str)
  : M (bool * state_data) :=
  let! stamp := read_clock in
  let report_filename :=
    chat_folder_basename ++ lit "-Report-" ++ now_file_stamp E stamp
    ++ lit ".txt" in
  let! k := report_write_index in
  if report_write E k then
    let! header_stamp := read_clock in
    do! put_report_file true report_filename
          (lit "Final Report for: " ++ chat_folder_basename ++ NL
           ++ lit "Generated on: " ++ now_header_stamp E header_stamp ++ NL
           ++ lit "==============================" ++ NL ++ NL
           ++ final_report_text_content) in
    let! generated := utcnow_z in
    let! saved :=
      save_state_data
        (set_report state_data_ref (Some report_filename) (Some generated)) in
    ret (true, saved)
  else
    let! left_behind :=
      match report_failure E k with
      | ReportOpenFailed => ret None
      | ReportWriteFailed false kept =>
          ret (Some (take kept
                       (lit "Final Report for: " ++ chat_folder_basename
                        ++ NL)))
      | ReportWriteFailed true kept =>
          let! header_stamp := read_clock in
          ret (Some (take kept
                       (lit "Final Report for: " ++ chat_folder_basename
                        ++ NL
                        ++ lit "Generated on: "
                        ++ now_header_stamp E header_stamp ++ NL
                        ++ lit "==============================" ++ NL ++ NL
                        ++ final_report_text_content)))
      end in
    do! match left_behind with
        | Some partial => put_report_file true report_filename partial
        | None => put_report_file false report_filename []
        end in
    let! generated := utcnow_z in
    let! saved :=
      save_state_data (set_report state_data_ref None (Some generated)) in
    ret (false, saved).

(** Lines 234-235: the insight texts that go into the report. *)
Definition report_insights_of (state_data_ref : state_data) : list str :=
  List.filter
    (fun t => nonempty t && negb (str_eqb t NO_NEW_INSIGHTS))
    (List.map insight_text (individual_useful_insights state_data_ref)).

(** Line 275 *)
Definition final_report_prompt_of (current_input_for_report : str) : str :=
  lit "Using the following consolidated key insights, please generate the final report as per the detailed instructions:"
  ++ NL ++ NL ++ current_input_for_report.

(** [generate_and_save_final_report_txt]: the returned flag, and the state
    dictionary as the call leaves it. *)
Definition generate_and_save_final_report_txt (state_data_ref : state_data)
    (chat_folder_basename : str) (new_insights_were_added_this_run : bool)
  : M (bool * state_data) :=
  let! should_generate :=
    should_generate_report state_data_ref new_insights_were_added_this_run in
  if negb should_generate then ret (true, state_data_ref)
  else
    let all_individual_insights := report_insights_of state_data_ref in
    match all_individual_insights with
    | [] =>
        let! generated := utcnow_z in
        let! saved :=
          save_state_data (set_report state_data_ref None (Some generated)) in
        ret (true, saved)
    | _ :: _ =>
        let! current_input_for_report :=
          report_input_of all_individual_insights in
        let! final_report_text_content :=
          call_anthropic_api (SYSTEM_PROMPT_FINAL_REPORT E)
            (final_report_prompt_of current_input_for_report) 4000 1 in
        if is_error_marker final_report_text_content then
          let! generated := utcnow_z in
          let! saved :=
            save_state_data
              (set_report state_data_ref None (Some generated)) in
          ret (false, saved)
        else
          save_report state_data_ref chat_folder_basename
            final_report_text_content
    end.

(** ** Chunk processor *)

Definition append_insight (data : state_data) (new_insight_obj : insight)
  : state_data :=
  {| last_processed_message_id := last_processed_message_id data;
     last_processed_message_timestamp_unix :=
       last_processed_message_timestamp_unix data;
     individual_useful_insights :=
       individual_useful_insights data ++ [new_insight_obj];
     latest_report_filename := latest_report_filename data;
     report_generated_at_utc := report_generated_at_utc data;
     system_prompts_used := system_prompts_used data |}.

(** Lines 384-386: the cursor moves to the chunk's last message and the
    report reference is dropped. *)
Definition advance_cursor (data : state_data) (last_of_chunk : formatted)
  : state_data :=
  {| last_processed_message_id := f_id last_of_chunk;
     last_processed_message_timestamp_unix := timestamp_unix last_of_chunk;
     individual_useful_insights := individual_useful_insights data;
     latest_report_filename := None;
     report_generated_at_utc := None;
     system_prompts_used := system_prompts_used data |}.

(** Line 352 *)
Definition num_chunks_of (chunk_size n : nat) : nat :=
  ((n + chunk_size - 1) / chunk_size)%nat.

(** Line 356 *)
Definition chunk_messages_of {A} (chunk_size : nat) (new_messages : list A)
    (i : nat) : list A :=
  slice (i * chunk_size) ((i + 1) * chunk_size) new_messages.

(** The variables the chunk loop updates. *)
Record loop_vars := {
  state : state_data;
  previous_insights_context_str : str;
  any_new_insights_this_run : bool;
  all_chunks_successful : bool
}.

Inductive control := Break | Continue.

(** Line 360 *)
Definition prompt_content_for_chunk_of (previous_insights_context_str : str)
    (chunk_messages : list formatted) : str :=
  lit "Previous Conversation Summary:" ++ NL
  ++ (if nonempty previous_insights_context_str
      then previous_insights_context_str
      else lit "No previous summary available.")
  ++ NL ++ NL ++ lit "---" ++ NL ++ NL ++ lit "Current Message Chunk:" ++ NL
  ++ join NL (List.map text_for_llm chunk_messages).

(** Line 362: the call made for chunk [i]. *)
Definition chunk_call (new_messages : list formatted) (i : nat)
    (vars : loop_vars) : M str :=
  call_anthropic_api (SYSTEM_PROMPT_CHUNK_INSIGHTS E)
    (prompt_content_for_chunk_of (previous_insights_context_str vars)
       (chunk_messages_of MESSAGES_PER_CHUNK new_messages i))
    1500 1.

(** Lines 384-387 *)
Definition commit_chunk (vars : loop_vars) (last_of_chunk : formatted)
  : M (control * loop_vars) :=
  let! saved := save_state_data (advance_cursor (state vars) last_of_chunk) in
  ret (Continue,
       {| state := saved;
          previous_insights_context_str := previous_insights_context_str vars;
          any_new_insights_this_run := any_new_insights_this_run vars;
          all_chunks_successful := all_chunks_successful vars |}).

(** Lines 356-388: the body of the chunk loop for index [i]. *)
Definition process_chunk (new_messages : list formatted) (i : nat)
    (vars : loop_vars) : M (control * loop_vars) :=
  let chunk_messages := chunk_messages_of MESSAGES_PER_CHUNK new_messages i in
  match chunk_messages with
  | [] => ret (Continue, vars)
  | first_of_chunk :: others =>
      let last_of_chunk := List.last others first_of_chunk in
      let! chunk_insight_text :=
        call_anthropic_api (SYSTEM_PROMPT_CHUNK_INSIGHTS E)
          (prompt_content_for_chunk_of (previous_insights_context_str vars)
             chunk_messages)
          1500 1 in
      if is_error_marker chunk_insight_text then
        ret (Break,
             {| state := state vars;
                previous_insights_context_str :=
                  previous_insights_context_str vars;
                any_new_insights_this_run := any_new_insights_this_run vars;
                all_chunks_successful := false |})
      else if str_eqb chunk_insight_text NO_NEW_INSIGHTS then
        commit_chunk vars last_of_chunk
      else
        let! generated := utcnow_z in
        let new_insight_obj :=
          {| chunk_start_message_id := f_id first_of_chunk;
             chunk_end_message_id := f_id last_of_chunk;
             chunk_start_message_timestamp_utc := timestamp_utc first_of_chunk;
             chunk_end_message_timestamp_utc := timestamp_utc last_of_chunk;
             insight_text := chunk_insight_text;
             generated_at_utc := generated |} in
        let appended := append_insight (state vars) new_insight_obj in
        let! context :=
          compact_insights_collection
            (List.map insight_text (individual_useful_insights appended))
            MAX_PREVIOUS_INSIGHTS_TOKENS_FOR_CHUNK_PROCESSING
            (SYSTEM_PROMPT_COMPACT_INSIGHTS_COLLECTION E) in
        if is_error_marker context then
          ret (Break,
               {| state := appended;
                  previous_insights_context_str := context;
                  any_new_insights_this_run := true;
                  all_chunks_successful := false |})
        else
          commit_chunk
            {| state := appended;
               previous_insights_context_str := context;
               any_new_insights_this_run := true;
               all_chunks_successful := all_chunks_successful vars |}
            last_of_chunk
  end.

(** Line 355: [for i in range(num_chunks)], left at the first [break]. *)
Fixpoint chunk_loop (new_messages : list formatted) (indices : list nat)
    (vars : loop_vars) : M loop_vars :=
  match indices with
  | [] => ret vars
  | i :: later =>
      let! '(ctl, vars') := process_chunk new_messages i vars in
      match ctl with
      | Break => ret vars'
      | Continue => chunk_loop new_messages later vars'
      end
  end.

(** The chunks [indices] are processed one after the other without the
    loop being left. *)
Inductive runs_through (new_messages : list formatted)
  : list nat -> loop_vars -> world -> loop_vars -> world -> Prop :=
  | runs_through_nil vars w :
      runs_through new_messages [] vars w vars w
  | runs_through_cons i later vars w vars' w' vars'' w'' :
      process_chunk new_messages i vars w = (Continue, vars', w') ->
      runs_through new_messages later vars' w' vars'' w'' ->
      runs_through new_messages (i :: later) vars w vars'' w''.

(** A text that is no error-marker, also after its leading white space is
    dropped. *)
Definition no_marker_text (t : str) : Prop :=
  is_error_marker t = false /\ is_error_marker (lstrip t) = false.

(** What the loop appends: insights whose text is neither an error-marker
    nor the sentinel. *)
Definition appended_by_loop (added : list insight) : Prop :=
  Forall (fun ins =>
            is_error_marker (insight_text ins) = false
            /\ str_eqb (insight_text ins) NO_NEW_INSIGHTS = false) added.

(** The variables with which the chunk loop starts. *)
Definition initial_loop_vars (state_data : state_data) (context : str)
  : loop_vars :=
  {| state := state_data;
     previous_insights_context_str := context;
     any_new_insights_this_run := false;
     all_chunks_successful := true |}.

(** Lines 341-408: what [process_chat_folder] does once it holds new
    messages. *)
Definition process_new_messages (state_data : state_data)
    (new_messages : list formatted) (chat_folder_basename : str) : M unit :=
  let! context :=
    compact_insights_collection
      (List.map insight_text (individual_useful_insights state_data))
      MAX_PREVIOUS_INSIGHTS_TOKENS_FOR_CHUNK_PROCESSING
      (SYSTEM_PROMPT_COMPACT_INSIGHTS_COLLECTION E) in
  if is_error_marker context then ret tt
  else
    let num_chunks :=
      num_chunks_of MESSAGES_PER_CHUNK (length new_messages) in
    let! vars :=
      chunk_loop new_messages (seq 0 num_chunks)
        (initial_loop_vars state_data context) in
    if all_chunks_successful vars then
      let! '(report_generation_successful_this_run, _) :=
        generate_and_save_final_report_txt (state vars)
          chat_folder_basename (any_new_insights_this_run vars) in
      if report_generation_successful_this_run
      then remove_export else ret tt
    else ret tt.

(** ** Discovery of the export file *)

(** A file matched by [glob("*.json")]: its base name and its
    modification time (a number; only its order matters). *)
Record json_file := {
  basename : str;
  mtime : Z
}.

(** [max(files, key=os.path.getmtime)] keeps the first file whose time is
    not exceeded by a later one. *)
Fixpoint max_by_mtime (best : json_file) (rest : list json_file)
  : json_file :=
  match rest with
  | [] => best
  | f :: rest' =>
      max_by_mtime (if mtime best <? mtime f then f else best) rest'
  end.

(** [find_latest_export_file], on the files the pattern matches. *)
Definition find_latest_export_file (json_files : list json_file)
    (state_file_name : str) : option json_file :=
  match List.filter (fun f => negb (str_eqb (basename f) state_file_name))
          json_files with
  | [] => None
  | f :: rest => Some (max_by_mtime f rest)
  end.

(** The order of the sort key on well-formed messages. *)
Definition key_leq (a b : valid_message) : Prop := key_le a b = true.

(** The order of the sort key on rendered lines. *)
Definition entry_le (a b : formatted) : Prop :=
  timestamp_unix a < timestamp_unix b
  \/ (timestamp_unix a = timestamp_unix b /\ f_id a <= f_id b).

(** [get_anthropic_client] raises when the key is unset or a placeholder. *)
Definition client_configured : bool :=
  nonempty ANTHROPIC_API_KEY
  && negb (startswith ANTHROPIC_API_KEY (lit "sk-ant-api03-xxx")).

Definition read_state_file : M state_file := fun w => (on_disk w, w).

(** [process_chat_folder].  [isdir] tells whether the folder exists,
    [export_file] is what [find_latest_export_file] found, already read. *)
Definition process_chat_folder (isdir : bool) (chat_folder_basename : str)
    (export_file : option export_file) : M unit :=
  if negb isdir then ret tt
  else
    let! stored := read_state_file in
    let state_data := load_state_data stored in
    if negb client_configured then ret tt
    else
      match export_file with
      | None =>
          do! generate_and_save_final_report_txt state_data
                chat_folder_basename false in
          ret tt
      | Some export =>
          let '(new_messages, first_id_in_file, last_id_in_file) :=
            load_and_format_new_messages export
              (last_processed_message_id state_data)
              (last_processed_message_timestamp_unix state_data) in
          match new_messages with
          | [] =>
              do! (if (0 <? last_id_in_file)
                      && (last_id_in_file
                          <=? last_processed_message_id state_data)
                   then remove_export else ret tt) in
              do! generate_and_save_final_report_txt state_data
                    chat_folder_basename false in
              ret tt
          | _ :: _ =>
              process_new_messages state_data new_messages
                chat_folder_basename
          end
      end.

End Model.

(* ===================================================================== *)
(** * Concrete environments and inputs *)
(* ===================================================================== *)

Module Samples.

(** An environment with a character-level tokenizer, short prompts, a
    clock that always shows the same time, a file system without faults,
    and the service given as argument. *)
Definition sample_env (service : nat -> request -> api_outcome) : env :=
  {| tokenizer_encode := fun s => s;
     tokenizer_decode := fun ts => ts;
     SYSTEM_PROMPT_CHUNK_INSIGHTS := lit "extract";
     SYSTEM_PROMPT_COMPACT_INSIGHTS_COLLECTION := lit "compact";
     SYSTEM_PROMPT_FINAL_REPORT := lit "report";
     messages_create := service;
     urandom := fun _ => Byte.x80;
     utcnow_isoformat := fun _ => lit "2024-06-20T12:00:00";
     now_file_stamp := fun _ => lit "2024-06-20_120000";
     now_header_stamp := fun _ => lit "2024-06-20 12:00:00 PM";
     state_write := fun _ => Written;
     report_write := fun _ => true;
     report_failure := fun _ => ReportOpenFailed |}.

(** A service that is down: every attempt is refused with status 401. *)
Definition service_down : nat -> request -> api_outcome :=
  fun _ _ => ApiError (Some 401) (lit "unauthorized") (lit "unauthorized").

(** A service that is overloaded: every attempt fails with status 529. *)
Definition service_overloaded : nat -> request -> api_outcome :=
  fun _ _ => ApiError (Some 529) (lit "overloaded") (lit "overloaded").

(** A service that answers every request with the same text. *)
Definition service_says (t : string) : nat -> request -> api_outcome :=
  fun _ _ => ApiText (lit t).

(** A message with nothing but an id, a timestamp and a type. *)
Definition bare_message (id timestamp : Z) (type : string) : message :=
  {| m_id := Some id; m_date_unixtime := Some timestamp;
     m_type := Some (PStr (lit type)); m_text := None; m_from := None;
     m_reply_to_message_id := None; m_file := None; m_file_name := None;
     m_photo := None; m_sticker := None; m_sticker_emoji := None;
     m_date := None |}.

(** A text message. *)
Definition text_message (id timestamp : Z) (sender body : string)
    (reply_to : option Z) : message :=
  {| m_id := Some id; m_date_unixtime := Some timestamp;
     m_type := Some (PStr (lit "message"));
     m_text := Some (TextStr (lit body));
     m_from := Some (PStr (lit sender));
     m_reply_to_message_id := reply_to; m_file := None; m_file_name := None;
     m_photo := None; m_sticker := None; m_sticker_emoji := None;
     m_date := None |}.

(** A message without text that carries the given attachment flags. *)
Definition attachment_message (id timestamp : Z) (sender : string)
    (file photo : jfield) : message :=
  {| m_id := Some id; m_date_unixtime := Some timestamp;
     m_type := Some (PStr (lit "message"));
     m_text := Some (TextStr []);
     m_from := Some (PStr (lit sender));
     m_reply_to_message_id := None; m_file := file; m_file_name := None;
     m_photo := photo; m_sticker := None; m_sticker_emoji := None;
     m_date := None |}.

(** A service record ("someone joined the group") carrying a text. *)
Definition service_record (id timestamp : Z) : message :=
  {| m_id := Some id; m_date_unixtime := Some timestamp;
     m_type := Some (PStr (lit "service"));
     m_text := Some (TextStr (lit "joined the group"));
     m_from := Some (PStr (lit "Ann"));
     m_reply_to_message_id := None; m_file := None; m_file_name := None;
     m_photo := None; m_sticker := None; m_sticker_emoji := None;
     m_date := None |}.

(** A photo without caption, and a reply to it. *)
Definition photo_of_ann : message :=
  attachment_message 10 1700000000 "Ann" None
    (Some (PStr (lit "photos/a.jpg"))).

Definition reply_of_bob : message :=
  text_message 11 1700000060 "Bob" "nice one" (Some 10).

(** A rendered line. *)
Definition line (id timestamp : Z) (body : string) : formatted :=
  {| f_id := id; text_for_llm := lit body; timestamp_unix := timestamp;
     timestamp_utc := PStr (lit "2023-11-14T22:13:20") |}.

(** Two new messages, and fifty-one of them. *)
Definition two_lines : list formatted :=
  [line 4 1700000000 "From Ann: hello"; line 5 1700000060 "From Bob: hi"].

Definition fifty_one_lines : list formatted :=
  List.map (fun k => line (Z.of_nat k) (1700000000 + Z.of_nat k) "From Ann: hello")
    (seq 1 51).

(** A service that answers the first request and refuses every later one
    with status 401. *)
Definition service_fails_after_first : nat -> request -> api_outcome :=
  fun n _ =>
    match n with
    | O => ApiText (lit "- Ann greets the group")
    | S _ => ApiError (Some 401) (lit "unauthorized") (lit "unauthorized")
    end.

(** A state with one insight and a report on record. *)
Definition state_with_report : state_data :=
  {| last_processed_message_id := 3;
     last_processed_message_timestamp_unix := 1600000000;
     individual_useful_insights :=
       [{| chunk_start_message_id := 1; chunk_end_message_id := 3;
           chunk_start_message_timestamp_utc := PStr (lit "2020-09-13T12:26:38");
           chunk_end_message_timestamp_utc := PStr (lit "2020-09-13T12:26:40");
           insight_text := lit "- Ann plans a trip";
           generated_at_utc := lit "2020-09-14T08:00:00Z" |}];
     latest_report_filename := Some (lit "chat-Report-2020-09-14_080000.txt");
     report_generated_at_utc := Some (lit "2020-09-14T08:00:01Z");
     system_prompts_used := ∅ |}.

(** A world in which nothing has happened yet and no state file exists. *)
Definition empty_world : world :=
  {| requests := []; sleeps := []; clock_reads := 0; state_writes := 0;
     on_disk := FileMissing; report_writes := 0; report_files := [];
     export_removed := false |}.

(** The sample environment with a file system that fails as told. *)
Definition faulty_env (service : nat -> request -> api_outcome)
    (writes : nat -> write_outcome) (report_ok : nat -> bool) : env :=
  {| tokenizer_encode := fun s => s;
     tokenizer_decode := fun ts => ts;
     SYSTEM_PROMPT_CHUNK_INSIGHTS := lit "extract";
     SYSTEM_PROMPT_COMPACT_INSIGHTS_COLLECTION := lit "compact";
     SYSTEM_PROMPT_FINAL_REPORT := lit "report";
     messages_create := service;
     urandom := fun _ => Byte.x80;
     utcnow_isoformat := fun _ => lit "2024-06-20T12:00:00";
     now_file_stamp := fun _ => lit "2024-06-20_120000";
     now_header_stamp := fun _ => lit "2024-06-20 12:00:00 PM";
     state_write := writes;
     report_write := report_ok;
     report_failure := fun _ => ReportOpenFailed |}.

(** The sample environment with a disk that fills up while the report is
    written: the file is created and keeps the first [kept] characters. *)
Definition full_disk_env (service : nat -> request -> api_outcome)
    (kept : nat) : env :=
  {| tokenizer_encode := fun s => s;
     tokenizer_decode := fun ts => ts;
     SYSTEM_PROMPT_CHUNK_INSIGHTS := lit "extract";
     SYSTEM_PROMPT_COMPACT_INSIGHTS_COLLECTION := lit "compact";
     SYSTEM_PROMPT_FINAL_REPORT := lit "report";
     messages_create := service;
     urandom := fun _ => Byte.x80;
     utcnow_isoformat := fun _ => lit "2024-06-20T12:00:00";
     now_file_stamp := fun _ => lit "2024-06-20_120000";
     now_header_stamp := fun _ => lit "2024-06-20 12:00:00 PM";
     state_write := fun _ => Written;
     report_write := fun _ => false;
     report_failure := fun _ => ReportWriteFailed true kept |}.

(** A world whose state file is the snapshot of [state_with_report], and
    whose folder holds the report it names. *)
Definition world_with_reported_state : world :=
  {| requests := []; sleeps := []; clock_reads := 0; state_writes := 0;
     on_disk := FileSnapshot (snapshot_of state_with_report);
     report_writes := 0;
     report_files :=
       [(lit "chat-Report-2020-09-14_080000.txt", lit "Executive Summary")];
     export_removed := false |}.

(** A world whose state file holds [state_with_report]. *)
Definition world_with_state : world :=
  {| requests := []; sleeps := []; clock_reads := 0; state_writes := 0;
     on_disk := FileSnapshot
                  {| snap_last_processed_message_id := Some 3;
                     snap_last_processed_message_timestamp_unix :=
                       Some 1600000000;
                     snap_individual_useful_insights := Some [];
                     snap_latest_report_filename := Some None;
                     snap_report_generated_at_utc := Some None;
                     snap_system_prompts_used := Some ∅ |};
     report_writes := 0; report_files := [];
     export_removed := false |}.

(** Three files of a chat folder: the state file and two exports. *)
Definition folder_listing : list json_file :=
  [{| basename := lit "chat-state.json"; mtime := 300 |};
   {| basename := lit "result.json"; mtime := 100 |};
   {| basename := lit "result (1).json"; mtime := 200 |}].

End Samples.
Import Samples.

(* ===================================================================== *)
(** * Properties *)
(* ===================================================================== *)

(** ** Compactor: the cheap path *)

(** C4.  For a non-empty list of insight texts whose concatenation with
    the separator costs at most the budget, [compact_insights_collection]
    returns that concatenation unchanged and leaves the world as it was:
    no request is sent to the summarization service. *)
Theorem compact_within_budget_is_verbatim
    (E : env) (insights_texts_list : list str)
    (max_tokens_for_context : Z) (prompt_for_compaction : str) (w : world) :
  insights_texts_list <> [] ->
  count_tokens E (join SEP insights_texts_list) <= max_tokens_for_context ->
  compact_insights_collection E insights_texts_list max_tokens_for_context
    prompt_for_compaction w
  = (join SEP insights_texts_list, w)
  /\ requests (snd (compact_insights_collection E insights_texts_list
                      max_tokens_for_context prompt_for_compaction w))
     = requests w.
Proof.
  intros Hne Hfit.
  assert (Hrun : compact_insights_collection E insights_texts_list
                   max_tokens_for_context prompt_for_compaction w
                 = (join SEP insights_texts_list, w)).
  { unfold compact_insights_collection.
    destruct insights_texts_list as [|t ts]; [congruence|].
    destruct (Z.ltb_spec max_tokens_for_context
                (count_tokens E (join SEP (t :: ts)))); [lia|reflexivity]. }
  rewrite Hrun. split; reflexivity.
Qed.

Lemma compact_within_budget_is_verbatim_witness :
  compact_insights_collection (sample_env service_down)
    [lit "alpha"; lit "beta"] 100 (lit "compact") empty_world
  = (join SEP [lit "alpha"; lit "beta"], empty_world)
  /\ requests (snd (compact_insights_collection (sample_env service_down)
                      [lit "alpha"; lit "beta"] 100 (lit "compact")
                      empty_world))
     = requests empty_world.
Proof.
  apply compact_within_budget_is_verbatim.
  - discriminate.
  - vm_compute. discriminate.
Defined.

(** ** Facts about strings *)

Section StringFacts.

Lemma startswith_app (a v p : str) :
  startswith a p = true -> startswith (a ++ v) p = true.
Proof.
  revert a. induction p as [|y p IH]; intros a H.
  - destruct a; reflexivity.
  - destruct a as [|x a]; [discriminate|]. simpl in *.
    apply andb_true_iff in H as [Hx Ha].
    rewrite Hx. simpl. apply IH. exact Ha.
Qed.

(** A prefix without line break cannot run across a line break. *)
Lemma startswith_line_break (t r p : str) :
  forallb (fun y => negb (char_eqb 10%N y)) p = true ->
  startswith t p = false ->
  startswith (t ++ 10%N :: r) p = false.
Proof.
  revert t. induction p as [|y p IH]; intros t Hp H.
  - destruct t; discriminate.
  - simpl in Hp. apply andb_true_iff in Hp as [Hy Hp].
    destruct t as [|x t]; simpl in *.
    + apply negb_true_iff in Hy. rewrite Hy. reflexivity.
    + destruct (char_eqb x y); simpl in *; [|reflexivity].
      apply IH; assumption.
Qed.

Lemma lstrip_is_suffix (s : str) : exists u, s = u ++ lstrip s.
Proof.
  induction s as [|c s [u Hu]].
  - exists []. reflexivity.
  - simpl. destruct (isspace c).
    + exists (c :: u). simpl. congruence.
    + exists []. reflexivity.
Qed.

Lemma rstrip_is_prefix (s : str) : exists v, s = rstrip s ++ v.
Proof.
  unfold rstrip. destruct (lstrip_is_suffix (rev s)) as [u Hu].
  exists (rev u).
  rewrite <- rev_app_distr, <- Hu, rev_involutive. reflexivity.
Qed.

Lemma lstrip_keeps (c : char) (s : str) :
  isspace c = false -> In c s -> In c (lstrip s).
Proof.
  intros Hc. induction s as [|x s IH]; intros Hin; [contradiction|].
  simpl. destruct (isspace x) eqn:Hx.
  - destruct Hin as [->|Hin]; [congruence|]. apply IH, Hin.
  - exact Hin.
Qed.

Lemma strip_keeps (c : char) (s : str) :
  isspace c = false -> In c s -> In c (strip s).
Proof.
  intros Hc Hin. unfold strip, rstrip.
  rewrite <- in_rev. apply lstrip_keeps; [exact Hc|].
  rewrite <- in_rev. apply lstrip_keeps; assumption.
Qed.

Lemma is_error_marker_prefix (a v : str) :
  is_error_marker (a ++ v) = false -> is_error_marker a = false.
Proof.
  unfold is_error_marker. intros H.
  apply orb_false_iff in H as [H1 H2]. apply orb_false_iff. split.
  - destruct (startswith a (lit "ANTHROPIC_")) eqn:Ha; [|reflexivity].
    rewrite (startswith_app _ v _ Ha) in H1. discriminate.
  - destruct (startswith a (lit "UNEXPECTED_")) eqn:Ha; [|reflexivity].
    rewrite (startswith_app _ v _ Ha) in H2. discriminate.
Qed.

Lemma is_error_marker_line_break (t r : str) :
  is_error_marker t = false -> is_error_marker (t ++ 10%N :: r) = false.
Proof.
  unfold is_error_marker. intros H.
  apply orb_false_iff in H as [H1 H2]. apply orb_false_iff.
  split; apply startswith_line_break; auto.
Qed.

Lemma is_error_marker_rstrip (s : str) :
  is_error_marker s = false -> is_error_marker (rstrip s) = false.
Proof.
  intros H. destruct (rstrip_is_prefix s) as [v Hv].
  apply (is_error_marker_prefix _ v). rewrite <- Hv. exact H.
Qed.

(** A text followed by the separator starts with a marker only if the
    text does. *)
Lemma is_error_marker_before_SEP (t r : str) :
  is_error_marker (lstrip t) = false ->
  is_error_marker (lstrip (t ++ SEP ++ r)) = false.
Proof.
  induction t as [|c t IH]; intros H.
  - reflexivity.
  - simpl in *. destruct (isspace c).
    + apply IH, H.
    + exact (is_error_marker_line_break (c :: t) _ H).
Qed.

End StringFacts.

(** ** Compactor: the degraded path *)

Section Degraded.

Variable E : env.

Lemma count_tokens_nonneg (t : str) : 0 <= count_tokens E t.
Proof. unfold count_tokens. destruct (nonempty t); lia. Qed.

Lemma total_charge_app (a b : list str) :
  total_charge E (a ++ b) = total_charge E a + total_charge E b.
Proof. induction a as [|t a IH]; simpl; [reflexivity|]. rewrite IH. lia. Qed.

Lemma total_charge_rev (a : list str) :
  total_charge E (rev a) = total_charge E a.
Proof.
  induction a as [|t a IH]; simpl; [reflexivity|].
  rewrite total_charge_app, IH. simpl. lia.
Qed.

Lemma total_charge_nonneg (a : list str) : 0 <= total_charge E a.
Proof.
  induction a as [|t a IH]; simpl; [lia|].
  unfold charge. pose proof (count_tokens_nonneg t). lia.
Qed.

(** What the loop of lines 210-215 computes: it takes texts while their
    charges fit, and stops at the first that does not. *)
Lemma most_recent_that_fit_takes_while_fitting
    (reversed_texts : list str) (budget : Z) (safe_str : str) (used : Z) :
  exists taken rest,
    reversed_texts = taken ++ rest
    /\ most_recent_that_fit E reversed_texts budget safe_str used
       = concat (List.map (fun t => t ++ SEP) (rev taken)) ++ safe_str
    /\ (taken <> [] -> used + total_charge E taken <= budget)
    /\ (forall t rest', rest = t :: rest' ->
        budget < used + total_charge E taken + charge E t).
Proof.
  revert safe_str used.
  induction reversed_texts as [|text older IH]; intros safe_str used.
  - exists [], []. repeat split; try congruence.
  - cbn [most_recent_that_fit]. fold (charge E text).
    destruct (Z.leb_spec (used + charge E text) budget) as [Hfit|Hover].
    + destruct (IH (text ++ SEP ++ safe_str) (used + charge E text))
        as (taken & rest & Hsplit & Hres & Hsum & Hstop).
      exists (text :: taken), rest. repeat split.
      * simpl. congruence.
      * rewrite Hres. simpl.
        rewrite map_app, concat_app. simpl.
        rewrite <- !app_assoc. reflexivity.
      * intros _. simpl. destruct taken as [|t' taken'].
        -- simpl. lia.
        -- assert (Hne : t' :: taken' <> []) by discriminate.
           specialize (Hsum Hne). lia.
      * intros t rest' Hr. simpl. specialize (Hstop t rest' Hr). lia.
    + exists [], (text :: older). repeat split; try congruence.
      intros t rest' Hr. inversion Hr; subst. simpl. lia.
Qed.

End Degraded.

(** The adapter's own failure texts are error-markers. *)
Lemma error_prefix_is_error_marker (code : option Z) (message as_str : str) :
  is_error_marker (error_prefix_of code message as_str) = true.
Proof. reflexivity. Qed.

Lemma service_down_always_fails (system_prompt user : str)
    (max_response_tokens : Z) (w : world) :
  is_error_marker
    (fst (call_anthropic_api (sample_env service_down) system_prompt user
            max_response_tokens 1 w)) = true.
Proof. reflexivity. Qed.

(** C2, as stated, fails: with the service down, one text of five tokens
    and a budget of three, the most recent text does not fit and the
    degraded path returns the empty string. *)
Lemma compact_degraded_can_be_empty :
  [lit "hello"] <> []
  /\ 3 < count_tokens (sample_env service_down) (join SEP [lit "hello"])
  /\ (forall system_prompt user max_response_tokens w,
        is_error_marker
          (fst (call_anthropic_api (sample_env service_down) system_prompt
                  user max_response_tokens 1 w)) = true)
  /\ fst (compact_insights_collection (sample_env service_down)
            [lit "hello"] 3 (lit "compact") empty_world) = [].
Proof.
  split; [discriminate|]. split; [reflexivity|].
  split; [apply service_down_always_fails|]. reflexivity.
Qed.

(** C2, amended.  When the texts exceed the budget and the compaction
    call returns an error-marker, [compact_insights_collection] returns
    the most recent texts, each followed by the separator, stripped: the
    texts are taken backward from the end of the list while their charges
    (token count plus five each) total at most the budget, stopping at the
    first text that does not fit.  The result is non-empty exactly when
    the most recent text fits; and it is no error-marker when no insight
    text begins, after leading white space, with a reserved prefix. *)
Theorem compact_degrades_to_recent_texts
    (E : env) (insights_texts_list : list str)
    (max_tokens_for_context : Z) (prompt_for_compaction : str) (w : world) :
  insights_texts_list <> [] ->
  max_tokens_for_context < count_tokens E (join SEP insights_texts_list) ->
  is_error_marker
    (fst (call_anthropic_api E prompt_for_compaction
            (compaction_user_prompt_of E (join SEP insights_texts_list)
               prompt_for_compaction)
            3000 1 w)) = true ->
  recent_texts_within_budget E insights_texts_list max_tokens_for_context
    (fst (compact_insights_collection E insights_texts_list
            max_tokens_for_context prompt_for_compaction w)).
Proof.
  intros Hne Hover Hfail.
  set (result := fst (compact_insights_collection E insights_texts_list
                        max_tokens_for_context prompt_for_compaction w)).
  unfold recent_texts_within_budget.
  destruct (most_recent_that_fit_takes_while_fitting E
              (rev insights_texts_list) max_tokens_for_context [] 0)
    as (taken & rest & Hsplit & Hres & Hsum & Hstop).
  assert (Hresult : result
            = strip (concat (List.map (fun t => t ++ SEP) (rev taken)))).
  { subst result. unfold compact_insights_collection.
    destruct insights_texts_list as [|t0 ts]; [congruence|].
    destruct (Z.ltb_spec max_tokens_for_context
                (count_tokens E (join SEP (t0 :: ts)))); [|lia].
    unfold bind.
    destruct (call_anthropic_api E prompt_for_compaction _ 3000 1 w)
      as [summary w'] eqn:Hcall.
    cbn [fst] in Hfail. rewrite Hfail. unfold ret. cbn [fst].
    rewrite Hres, app_nil_r. reflexivity. }
  assert (Hlist : insights_texts_list = rev rest ++ rev taken).
  { rewrite <- rev_app_distr, <- Hsplit, rev_involutive. reflexivity. }
  assert (Hnonempty : result <> [] <-> rev taken <> []).
  { rewrite Hresult. split.
    - intros Hr Ht. rewrite Ht in Hr. apply Hr. reflexivity.
    - intros Ht Hr. destruct (rev taken) as [|t1 sel] eqn:Hsel; [congruence|].
      assert (Hin : In 45%N (strip (concat
                       (List.map (fun t => t ++ SEP) (t1 :: sel))))).
      { apply strip_keeps; [reflexivity|].
        simpl. apply in_or_app. left. apply in_or_app. right.
        unfold SEP. simpl. tauto. }
      rewrite Hr in Hin. exact Hin. }
  exists (rev rest), (rev taken). split; [exact Hlist|].
  split; [exact Hresult|]. split.
  { intros Hsel. rewrite total_charge_rev.
    assert (taken <> []) by (intros ->; apply Hsel; reflexivity).
    specialize (Hsum H). lia. }
  split.
  { intros t Hlast. rewrite total_charge_rev.
    destruct rest as [|t' rest']; [discriminate|].
    simpl in Hlast. rewrite last_snoc in Hlast. inversion Hlast; subst.
    specialize (Hstop t rest' eq_refl). lia. }
  split; [exact Hnonempty|]. split.
  - rewrite Hnonempty. split.
    + intros Hsel.
      destruct taken as [|t taken']; [exfalso; apply Hsel; reflexivity|].
      exists t. split.
      * rewrite Hlist. simpl. rewrite app_assoc, last_snoc. reflexivity.
      * assert (Hb : t :: taken' <> []) by discriminate.
        specialize (Hsum Hb). simpl in Hsum.
        pose proof (total_charge_nonneg E taken'). lia.
    + intros (t & Hlast & Hfit) Hsel.
      assert (taken = []) as ->.
      { destruct taken; [reflexivity|].
        simpl in Hsel. destruct (rev taken); discriminate. }
      destruct rest as [|t' rest'].
      * simpl in Hlist. congruence.
      * rewrite Hlist in Hlast. simpl in Hlast.
        rewrite app_nil_r, last_snoc in Hlast. inversion Hlast; subst.
        specialize (Hstop t rest' eq_refl). simpl in Hstop. lia.
  - intros Hclean. rewrite Hresult.
    destruct (rev taken) as [|t1 sel] eqn:Hsel; [reflexivity|].
    unfold strip. apply is_error_marker_rstrip.
    simpl. rewrite <- app_assoc.
    apply is_error_marker_before_SEP.
    rewrite List.Forall_forall in Hclean. apply Hclean.
    rewrite Hlist. apply in_or_app. right. left. reflexivity.
Qed.

Lemma compact_degrades_to_recent_texts_witness :
  recent_texts_within_budget (sample_env service_down)
    [lit "one"; lit "two"; lit "three"] 10
    (fst (compact_insights_collection (sample_env service_down)
            [lit "one"; lit "two"; lit "three"] 10 (lit "compact")
            empty_world)).
Proof.
  apply compact_degrades_to_recent_texts.
  - discriminate.
  - reflexivity.
  - reflexivity.
Defined.

(** ** Admission of new records *)

Section Admission.

Lemma scan_messages_valid (all_messages_in_file : list message)
    (lookup : gmap Z message) (valid : list valid_message) :
  snd (scan_messages all_messages_in_file lookup valid)
  = valid ++ omap validate all_messages_in_file.
Proof.
  revert lookup valid.
  induction all_messages_in_file as [|m rest IH]; intros lookup valid.
  - simpl. rewrite app_nil_r. reflexivity.
  - simpl. destruct (validate m) as [v|].
    + rewrite IH, <- app_assoc. reflexivity.
    + apply IH.
Qed.

Lemma In_insert_by_key (x y : valid_message) (l : list valid_message) :
  In y (insert_by_key x l) <-> y = x \/ In y l.
Proof.
  induction l as [|z l IH]; simpl.
  - intuition.
  - destruct (key_le x z); simpl; [intuition|].
    rewrite IH. intuition.
Qed.

(** Sorting neither drops nor invents a message. *)
Lemma In_sort_by_key (y : valid_message) (l : list valid_message) :
  In y (sort_by_key l) <-> In y l.
Proof.
  induction l as [|x l IH]; simpl; [reflexivity|].
  rewrite In_insert_by_key, IH. intuition.
Qed.

Lemma In_omap {A B} (f : A -> option B) (l : list A) (b : B) :
  In b (omap f l) <-> exists a, In a l /\ f a = Some b.
Proof.
  rewrite <- list_elem_of_In, list_elem_of_omap.
  split; intros (a & Ha & Hb); exists a; split; auto;
    apply list_elem_of_In; assumption.
Qed.

Lemma already_processed_false (last_id last_ts : Z) (v : valid_message) :
  already_processed last_id last_ts v = false
  <-> after_cursor last_id last_ts (msg_timestamp_unix v) (msg_id v).
Proof.
  unfold already_processed, after_cursor.
  rewrite orb_false_iff, andb_false_iff.
  rewrite Z.ltb_ge, Z.eqb_neq, Z.leb_gt. lia.
Qed.

Lemma final_text_for_llm_of_is_Some (prefix : str) (m : message) :
  is_Some (final_text_for_llm_of prefix m) <-> renderable m = true.
Proof.
  unfold final_text_for_llm_of, renderable.
  destruct (nonempty (message_text m)); simpl; [split; eauto|].
  destruct (flag (m_file m)); simpl; [split; eauto|].
  destruct (flag (m_photo m)); simpl; [split; eauto|].
  destruct (flag (m_sticker m)); simpl; [split; eauto|].
  split; [intros [? ?]; discriminate|discriminate].
Qed.

(** The three tests a message has to pass to be rendered. *)
Lemma format_message_is_Some (lookup : gmap Z message)
    (last_id last_ts : Z) (v : valid_message) :
  is_Some (format_message lookup last_id last_ts v)
  <-> after_cursor last_id last_ts (msg_timestamp_unix v) (msg_id v)
      /\ is_message (msg_data v) = true
      /\ renderable (msg_data v) = true.
Proof.
  rewrite <- already_processed_false.
  rewrite <- (final_text_for_llm_of_is_Some
                (llm_text_prefix_of lookup (msg_data v)) (msg_data v)).
  unfold format_message.
  destruct (already_processed last_id last_ts v).
  { split; [intros [? ?]; discriminate|intros [? _]; discriminate]. }
  destruct (is_message (msg_data v)); simpl.
  2: { split; [intros [? ?]; discriminate|intros (_ & ? & _); discriminate]. }
  destruct (final_text_for_llm_of _ (msg_data v)) as [line|].
  - split; [intros _; repeat split; eauto|intros _; eauto].
  - split; [intros [? ?]; discriminate|].
    intros (_ & _ & [? ?]). discriminate.
Qed.

Lemma format_message_keeps_key (lookup : gmap Z message)
    (last_id last_ts : Z) (v : valid_message) (f : formatted) :
  format_message lookup last_id last_ts v = Some f ->
  f_id f = msg_id v /\ timestamp_unix f = msg_timestamp_unix v.
Proof.
  unfold format_message. intros H.
  destruct (already_processed last_id last_ts v); [discriminate|].
  destruct (negb (is_message (msg_data v))); [discriminate|].
  destruct (final_text_for_llm_of _ _); [|discriminate].
  inversion H; subst. split; reflexivity.
Qed.

(** The list returned by [load_and_format_new_messages] holds exactly the
    renderings of the file's well-formed messages. *)
Lemma In_new_formatted_messages (messages : option (list message))
    (last_id last_ts : Z) (f : formatted) :
  In f (load_and_format_new_messages (ExportData messages)
          last_id last_ts).1.1
  <-> exists m v,
        In m (default [] messages) /\ validate m = Some v
        /\ format_message (scan_messages (default [] messages) ∅ []).1
             last_id last_ts v = Some f.
Proof.
  unfold load_and_format_new_messages.
  pose proof (scan_messages_valid (default [] messages) ∅ []) as Hvalid.
  destruct (scan_messages (default [] messages) ∅ []) as [lookup valid].
  simpl in Hvalid. simpl fst.
  assert (Hout : forall l, In f (omap (format_message lookup last_id last_ts)
                                   (sort_by_key l))
                 <-> exists v, In v l
                     /\ format_message lookup last_id last_ts v = Some f).
  { intros l. rewrite In_omap. split; intros (v & Hv & Hf); exists v;
      (split; [apply In_sort_by_key; exact Hv|exact Hf]). }
  specialize (Hout valid).
  destruct (sort_by_key valid) as [|first others] eqn:Hsorted.
  - simpl. split; [contradiction|].
    intros (m & v & Hm & Hv & Hf). apply Hout.
    exists v. split; [|exact Hf].
    rewrite Hvalid. apply In_omap. exists m. auto.
  - cbn [fst]. rewrite Hout. split.
    + intros (v & Hv & Hf). rewrite Hvalid in Hv.
      apply In_omap in Hv as (m & Hm & Hmv). exists m, v. auto.
    + intros (m & v & Hm & Hv & Hf). exists v. split; [|exact Hf].
      rewrite Hvalid. apply In_omap. exists m. auto.
Qed.

End Admission.

(** C1, as stated, fails: a service record whose (timestamp, id) lies
    strictly after the cursor is not emitted. *)
Lemma newer_service_record_is_not_emitted :
  validate (service_record 7 1700000000)
  = Some {| msg_id := 7; msg_timestamp_unix := 1700000000;
            msg_data := service_record 7 1700000000 |}
  /\ after_cursor 3 1600000000 1700000000 7
  /\ (load_and_format_new_messages
        (ExportData (Some [service_record 7 1700000000])) 3 1600000000).1.1
     = [].
Proof.
  split; [reflexivity|]. split; [left; lia|]. reflexivity.
Qed.

(** The admission of one record of the export, shared by the properties
    below. *)
Lemma emission_of_one_record
    (messages : option (list message))
    (last_id_processed last_timestamp_unix_processed : Z)
    (m : message) (v : valid_message) :
  In m (default [] messages) ->
  validate m = Some v ->
  let new_formatted_messages :=
    (load_and_format_new_messages (ExportData messages) last_id_processed
       last_timestamp_unix_processed).1.1 in
  let message_lookup_dict := (scan_messages (default [] messages) ∅ []).1 in
  ((exists f,
       format_message message_lookup_dict last_id_processed
         last_timestamp_unix_processed v = Some f
       /\ In f new_formatted_messages)
   <-> after_cursor last_id_processed last_timestamp_unix_processed
         (msg_timestamp_unix v) (msg_id v)
       /\ is_message m = true
       /\ renderable m = true)
  /\ (forall f, In f new_formatted_messages ->
      after_cursor last_id_processed last_timestamp_unix_processed
        (timestamp_unix f) (f_id f)).
Proof.
  intros Hm Hv out lookup.
  assert (Hdata : msg_data v = m).
  { unfold validate in Hv.
    destruct (m_id m), (m_date_unixtime m); inversion Hv; reflexivity. }
  split.
  - rewrite <- Hdata, <- format_message_is_Some. split.
    + intros (f & Hf & _). exists f. exact Hf.
    + intros [f Hf]. exists f. split; [exact Hf|].
      apply In_new_formatted_messages. exists m, v. auto.
  - intros f Hf.
    apply In_new_formatted_messages in Hf as (m' & v' & _ & _ & Hf).
    destruct (format_message_keeps_key _ _ _ _ _ Hf) as [-> ->].
    assert (Hsome : is_Some (format_message lookup last_id_processed
                               last_timestamp_unix_processed v')) by eauto.
    apply format_message_is_Some in Hsome. tauto.
Qed.

(** C1, amended.  For every stored cursor and every record of the export
    with an integer id and timestamp, [load_and_format_new_messages] emits
    the record if and only if its (timestamp, id) pair is lexicographically
    strictly greater than the cursor pair, its type is 'message', and it
    has something to render (a text that is not blank, or a file, photo or
    sticker flag).  Every entry that is emitted has a (timestamp, id) pair
    strictly greater than the cursor: a record at or before the cursor is
    never emitted. *)
Theorem record_emitted_iff_newer_message_with_content
    (messages : option (list message))
    (last_id_processed last_timestamp_unix_processed : Z)
    (m : message) (v : valid_message) :
  In m (default [] messages) ->
  validate m = Some v ->
  let new_formatted_messages :=
    (load_and_format_new_messages (ExportData messages) last_id_processed
       last_timestamp_unix_processed).1.1 in
  let message_lookup_dict := (scan_messages (default [] messages) ∅ []).1 in
  ((exists f,
       format_message message_lookup_dict last_id_processed
         last_timestamp_unix_processed v = Some f
       /\ In f new_formatted_messages)
   <-> after_cursor last_id_processed last_timestamp_unix_processed
         (msg_timestamp_unix v) (msg_id v)
       /\ is_message m = true
       /\ renderable m = true)
  /\ (forall f, In f new_formatted_messages ->
      after_cursor last_id_processed last_timestamp_unix_processed
        (timestamp_unix f) (f_id f)).
Proof.
  apply emission_of_one_record.
Qed.

Lemma record_emitted_iff_newer_message_with_content_witness :
  let messages :=
    Some [text_message 4 1650000000 "Bob" "hello there" None;
          service_record 7 1700000000] in
  let v := {| msg_id := 4; msg_timestamp_unix := 1650000000;
              msg_data := text_message 4 1650000000 "Bob" "hello there" None |} in
  let new_formatted_messages :=
    (load_and_format_new_messages (ExportData messages) 3 1600000000).1.1 in
  let message_lookup_dict := (scan_messages (default [] messages) ∅ []).1 in
  ((exists f,
       format_message message_lookup_dict 3 1600000000 v = Some f
       /\ In f new_formatted_messages)
   <-> after_cursor 3 1600000000 (msg_timestamp_unix v) (msg_id v)
       /\ is_message (text_message 4 1650000000 "Bob" "hello there" None)
          = true
       /\ renderable (text_message 4 1650000000 "Bob" "hello there" None)
          = true)
  /\ (forall f, In f new_formatted_messages ->
      after_cursor 3 1600000000 (timestamp_unix f) (f_id f)).
Proof.
  apply (record_emitted_iff_newer_message_with_content
           (Some [text_message 4 1650000000 "Bob" "hello there" None;
                  service_record 7 1700000000])
           3 1600000000
           (text_message 4 1650000000 "Bob" "hello there" None)).
  - simpl. left. reflexivity.
  - reflexivity.
Defined.

(** The entry emitted for the text message of the witness. *)
Example new_text_message_is_emitted :
  (load_and_format_new_messages
     (ExportData (Some [text_message 4 1650000000 "Bob" "hello there" None;
                        service_record 7 1700000000])) 3 1600000000).1.1
  = [{| f_id := 4; text_for_llm := lit "From Bob: hello there";
        timestamp_unix := 1650000000; timestamp_utc := PStr [] |}].
Proof. reflexivity. Qed.

(** ** Rendering of replies *)

Section Replies.

Lemma Some_eq {A} (x y : A) : Some x = Some y -> x = y.
Proof. congruence. Qed.

Lemma rstrip_snoc (s : str) (d : char) :
  isspace d = false -> rstrip (s ++ [d]) = s ++ [d].
Proof.
  intros Hd. unfold rstrip. rewrite rev_app_distr. simpl.
  rewrite Hd. simpl. rewrite rev_involutive. reflexivity.
Qed.

(** A line that starts and ends with a character that is no white space
    is left as it is by [strip]. *)
Lemma strip_line (a y : str) (c d : char) (rest : str) :
  a = c :: rest -> isspace c = false -> isspace d = false ->
  strip (a ++ y ++ [d]) = a ++ y ++ [d].
Proof.
  intros -> Hc Hd. unfold strip. simpl. rewrite Hc.
  change (c :: rest ++ y ++ [d]) with ((c :: rest) ++ y ++ [d]).
  rewrite app_assoc. apply rstrip_snoc. exact Hd.
Qed.

(** The index built by the first loop maps an id to the message of type
    'message' that carries it, when only one does. *)
Lemma scan_messages_lookup (all_messages_in_file : list message)
    (lookup : gmap Z message) (valid : list valid_message)
    (i : Z) (m : message) :
  (forall m' v', In m' all_messages_in_file -> validate m' = Some v' ->
                 msg_id v' = i -> is_message m' = true -> m' = m) ->
  lookup !! i = Some m
  \/ (exists v, In m all_messages_in_file /\ validate m = Some v
                /\ msg_id v = i /\ is_message m = true) ->
  (scan_messages all_messages_in_file lookup valid).1 !! i = Some m.
Proof.
  revert lookup valid.
  induction all_messages_in_file as [|x rest IH]; intros lookup valid Huniq H.
  - simpl. destruct H as [H|(v & [] & _)]. exact H.
  - simpl. destruct (validate x) as [vx|] eqn:Hx.
    + apply IH.
      { intros m' v' Hin. apply Huniq. right. exact Hin. }
      destruct (is_message x) eqn:Hmsg.
      * destruct (Z.eq_dec (msg_id vx) i) as [Hi|Hi].
        -- left. rewrite (Huniq x vx (or_introl eq_refl) Hx Hi Hmsg) in *.
           rewrite Hi. apply lookup_insert_eq.
        -- rewrite lookup_insert_ne by exact Hi.
           destruct H as [H|(v & [->|Hin] & Hv & Hid & Hm)].
           ++ left. exact H.
           ++ congruence.
           ++ right. exists v. auto.
      * destruct H as [H|(v & [->|Hin] & Hv & Hid & Hm)].
        -- left. exact H.
        -- congruence.
        -- right. exists v. auto.
    + apply IH.
      { intros m' v' Hin. apply Huniq. right. exact Hin. }
      destruct H as [H|(v & [->|Hin] & Hv & Hid & Hm)].
      * left. exact H.
      * congruence.
      * right. exists v. auto.
Qed.

(** The prefix of a reply to a message without text, with a photo flag
    and without file flag. *)
Lemma llm_text_prefix_of_reply_to_photo (lookup : gmap Z message)
    (m original_msg : message) (reply_to_id : Z) :
  m_reply_to_message_id m = Some reply_to_id ->
  reply_to_id <> 0 ->
  lookup !! reply_to_id = Some original_msg ->
  message_text original_msg = [] ->
  flag (m_file original_msg) = false ->
  flag (m_photo original_msg) = true ->
  llm_text_prefix_of lookup m
  = lit "From " ++ sender_of m (lit "Unknown Sender")
    ++ lit " (replying to '"
    ++ sender_of original_msg (lit "Original Sender")
    ++ lit ": [Photo]'):".
Proof.
  intros Hreply Hnz Hlookup Htext Hfile Hphoto.
  unfold llm_text_prefix_of. rewrite Hreply.
  destruct (Z.eqb_spec reply_to_id 0) as [|_]; [contradiction|].
  rewrite Hlookup. unfold original_text_of.
  rewrite Htext, Hfile, Hphoto. reflexivity.
Qed.

End Replies.

(** C9, as stated, fails: when the message replied to has no text and
    carries a photo flag and a file flag, the file comes first and the
    quoted snippet names the file. *)
Lemma reply_to_photo_with_file_quotes_the_file :
  let original :=
    attachment_message 10 1700000000 "Ann"
      (Some (PStr (lit "files/a.jpg"))) (Some (PStr (lit "photos/a.jpg"))) in
  let reply := text_message 11 1700000060 "Bob" "nice one" (Some 10) in
  message_text original = []
  /\ flag (m_photo original) = true
  /\ List.map text_for_llm
       (load_and_format_new_messages (ExportData (Some [original; reply]))
          10 1700000000).1.1
     = [lit "From Bob (replying to 'Ann: [File: attachment]'): nice one"].
Proof. repeat split. Qed.

(** C9, amended.  Take a record that is rendered and that replies, by a
    non-zero id, to a record of the same export that has type 'message',
    an integer id and timestamp, a blank text, a photo flag and no file
    flag, and that is the only message with its id.  Then the rendered
    line is "From <sender> (replying to '<original sender>: [Photo]'):
    <content>", and it is among the lines returned. *)
Theorem reply_to_photo_quotes_placeholder
    (messages : option (list message))
    (last_id_processed last_timestamp_unix_processed : Z)
    (reply original : message) (v vo : valid_message) (f : formatted) :
  In original (default [] messages) ->
  validate original = Some vo ->
  is_message original = true ->
  (forall m' v', In m' (default [] messages) -> validate m' = Some v' ->
                 msg_id v' = msg_id vo -> is_message m' = true ->
                 m' = original) ->
  message_text original = [] ->
  flag (m_photo original) = true ->
  flag (m_file original) = false ->
  In reply (default [] messages) ->
  validate reply = Some v ->
  m_reply_to_message_id reply = Some (msg_id vo) ->
  msg_id vo <> 0 ->
  format_message (scan_messages (default [] messages) ∅ []).1
    last_id_processed last_timestamp_unix_processed v = Some f ->
  text_for_llm f
  = (lit "From " ++ sender_of reply (lit "Unknown Sender")
     ++ lit " (replying to '" ++ sender_of original (lit "Original Sender")
     ++ lit ": [Photo]'):")
    ++ lit " " ++ content_of reply
  /\ In f (load_and_format_new_messages (ExportData messages)
             last_id_processed last_timestamp_unix_processed).1.1.
Proof.
  intros Hin Hvo Hmsg Huniq Htext Hphoto Hfile Hrin Hv Hreply Hnz Hf.
  split; [|apply In_new_formatted_messages; exists reply, v; auto].
  assert (Hdata : msg_data v = reply).
  { unfold validate in Hv.
    destruct (m_id reply), (m_date_unixtime reply); inversion Hv; reflexivity. }
  assert (Hlookup : (scan_messages (default [] messages) ∅ []).1
                    !! msg_id vo = Some original).
  { apply scan_messages_lookup; [exact Huniq|].
    right. exists vo. auto. }
  pose proof (llm_text_prefix_of_reply_to_photo _ reply original (msg_id vo)
                Hreply Hnz Hlookup Htext Hfile Hphoto) as Hprefix.
  unfold format_message in Hf. rewrite Hdata, Hprefix in Hf.
  destruct (already_processed _ _ v); [discriminate|].
  destruct (negb (is_message reply)); [discriminate|].
  destruct (final_text_for_llm_of _ reply) as [line|] eqn:Hline;
    [|discriminate].
  apply Some_eq in Hf. subst f. cbn [text_for_llm].
  unfold final_text_for_llm_of in Hline. unfold content_of.
  destruct (nonempty (message_text reply)).
  { apply Some_eq in Hline. subst line. reflexivity. }
  destruct (flag (m_file reply)).
  { apply Some_eq in Hline. subst line. reflexivity. }
  destruct (flag (m_photo reply)).
  { apply Some_eq in Hline. subst line. reflexivity. }
  destruct (flag (m_sticker reply)); [|discriminate].
  apply Some_eq in Hline. subst line.
  exact (strip_line _
           (lit " [Sent a sticker "
            ++ fmt (get_default (m_sticker_emoji reply) []))
           70%N 93%N _ eq_refl eq_refl eq_refl).
Qed.

Lemma reply_to_photo_quotes_placeholder_witness :
  text_for_llm
    {| f_id := 11;
       text_for_llm := lit "From Bob (replying to 'Ann: [Photo]'): nice one";
       timestamp_unix := 1700000060; timestamp_utc := PStr [] |}
  = (lit "From " ++ sender_of reply_of_bob (lit "Unknown Sender")
     ++ lit " (replying to '" ++ sender_of photo_of_ann (lit "Original Sender")
     ++ lit ": [Photo]'):")
    ++ lit " " ++ content_of reply_of_bob
  /\ In {| f_id := 11;
           text_for_llm :=
             lit "From Bob (replying to 'Ann: [Photo]'): nice one";
           timestamp_unix := 1700000060; timestamp_utc := PStr [] |}
       (load_and_format_new_messages
          (ExportData (Some [photo_of_ann; reply_of_bob])) 0 0).1.1.
Proof.
  apply (reply_to_photo_quotes_placeholder
           (Some [photo_of_ann; reply_of_bob]) 0 0 reply_of_bob photo_of_ann
           {| msg_id := 11; msg_timestamp_unix := 1700000060;
              msg_data := reply_of_bob |}
           {| msg_id := 10; msg_timestamp_unix := 1700000000;
              msg_data := photo_of_ann |}).
  - simpl. left. reflexivity.
  - reflexivity.
  - reflexivity.
  - intros m' v' Hin Hv Hid Hmsg. simpl in Hin.
    destruct Hin as [<-|[<-|[]]]; [reflexivity|].
    vm_compute in Hv. apply Some_eq in Hv. subst v'.
    vm_compute in Hid. discriminate.
  - reflexivity.
  - reflexivity.
  - reflexivity.
  - simpl. right. left. reflexivity.
  - reflexivity.
  - reflexivity.
  - simpl. lia.
  - reflexivity.
Defined.

(** ** Chunk partitioning *)

Section Chunks.

Context {A : Type}.

Lemma chunk_messages_of_take_drop (chunk_size : nat) (l : list A) (k : nat) :
  chunk_messages_of chunk_size l k
  = take chunk_size (drop (k * chunk_size) l).
Proof.
  unfold chunk_messages_of, slice. f_equal. lia.
Qed.

(** The first [q] chunks, put end to end, are the first [q * chunk_size]
    elements. *)
Lemma concat_chunks_is_take (chunk_size : nat) (l : list A) (q : nat) :
  concat (List.map (chunk_messages_of chunk_size l) (seq 0 q))
  = take (q * chunk_size) l.
Proof.
  induction q as [|q IH].
  - reflexivity.
  - rewrite seq_S, map_app, concat_app, IH. simpl.
    rewrite app_nil_r, chunk_messages_of_take_drop, take_take_drop.
    f_equal. lia.
Qed.

Lemma num_chunks_of_covers (chunk_size n : nat) :
  (0 < chunk_size)%nat ->
  (n <= num_chunks_of chunk_size n * chunk_size)%nat
  /\ (num_chunks_of chunk_size n * chunk_size < n + chunk_size)%nat.
Proof.
  intros Hpos. unfold num_chunks_of.
  pose proof (Nat.div_mod_eq (n + chunk_size - 1) chunk_size) as Hdiv.
  pose proof (Nat.mod_upper_bound (n + chunk_size - 1) chunk_size) as Hmod.
  nia.
Qed.

End Chunks.

(** C6.  For a sequence of [n] new records and a chunk size [s > 0], the
    loop of [process_chat_folder] runs over ceil(n / s) chunks; put end to
    end they are the sequence itself; chunk [k] holds exactly the records
    at positions k*s, ..., (k+1)*s - 1, in the original order; every chunk
    but the last holds [s] records, and the last holds between 1 and [s]. *)
Theorem chunks_are_contiguous_slices {A : Type}
    (chunk_size : nat) (new_messages : list A) :
  (0 < chunk_size)%nat ->
  let n := length new_messages in
  let num_chunks := num_chunks_of chunk_size n in
  let chunk := chunk_messages_of chunk_size new_messages in
  num_chunks
  = (n / chunk_size + (if (n mod chunk_size =? 0)%nat then 0 else 1))%nat
  /\ concat (List.map chunk (seq 0 num_chunks)) = new_messages
  /\ (forall k j,
        chunk k !! j
        = if (j <? chunk_size)%nat
          then new_messages !! (k * chunk_size + j)%nat
          else None)
  /\ (forall k, (S k < num_chunks)%nat -> length (chunk k) = chunk_size)
  /\ (forall k, S k = num_chunks ->
        (0 < length (chunk k) <= chunk_size)%nat).
Proof.
  intros Hpos n num_chunks chunk.
  destruct (num_chunks_of_covers chunk_size n Hpos) as [Hlow Hhigh].
  fold num_chunks in Hlow, Hhigh.
  assert (Hlen : forall k,
             length (chunk k) = (chunk_size `min` (n - k * chunk_size))%nat).
  { intros k. unfold chunk. rewrite chunk_messages_of_take_drop.
    rewrite length_take, length_drop. reflexivity. }
  split; [|split; [|split; [|split]]].
  - pose proof (Nat.div_mod_eq n chunk_size) as Hdiv.
    pose proof (Nat.mod_upper_bound n chunk_size) as Hmod.
    destruct (Nat.eqb_spec (n mod chunk_size) 0) as [Hz|Hnz]; nia.
  - unfold chunk. rewrite concat_chunks_is_take.
    apply take_ge. fold n. lia.
  - intros k j. unfold chunk. rewrite chunk_messages_of_take_drop.
    destruct (Nat.ltb_spec j chunk_size) as [Hj|Hj].
    + rewrite lookup_take_lt by exact Hj. apply lookup_drop.
    + apply lookup_take_ge. exact Hj.
  - intros k Hk. rewrite Hlen. nia.
  - intros k Hk. rewrite Hlen. nia.
Qed.

Lemma chunks_are_contiguous_slices_witness :
  let new_messages := [11; 12; 13; 14; 15] in
  let chunk := chunk_messages_of 2 new_messages in
  num_chunks_of 2 5 = (5 / 2 + (if (5 mod 2 =? 0)%nat then 0 else 1))%nat
  /\ concat (List.map chunk (seq 0 (num_chunks_of 2 5))) = new_messages
  /\ (forall k j,
        chunk k !! j
        = if (j <? 2)%nat then new_messages !! (k * 2 + j)%nat else None)
  /\ (forall k, (S k < num_chunks_of 2 5)%nat -> length (chunk k) = 2%nat)
  /\ (forall k, S k = num_chunks_of 2 5 ->
        (0 < length (chunk k) <= 2)%nat).
Proof.
  apply (chunks_are_contiguous_slices 2 [11; 12; 13; 14; 15]). lia.
Defined.

(** The scenario of 120 new records: three chunks of 50, 50 and 20. *)
Example chunks_of_120_records :
  List.map (fun k => length (chunk_messages_of MESSAGES_PER_CHUNK
                               (seq 0 120) k))
    (seq 0 (num_chunks_of MESSAGES_PER_CHUNK 120))
  = [50; 50; 20]%nat.
Proof. reflexivity. Qed.

(** ** Summarization client adapter: retries and back-off *)

Section Adapter.

Variable E : env.

Lemma nominal_backoff_pos (attempt : Z) :
  1 <= attempt -> 0 < nominal_backoff attempt.
Proof.
  intros Ha. unfold nominal_backoff, INITIAL_BACKOFF_SECONDS,
    MAX_BACKOFF_SECONDS.
  assert (0 < 2 ^ (attempt - 1)) by (apply Z.pow_pos_nonneg; lia).
  lia.
Qed.

(** The jitter factor lies between 1 and 1.2. *)
Lemma jitter_factor_bounds (random : Byte.byte) :
  (1 <= 1 + inject_Z (Z.of_N (Byte.to_N random)) / 255 * (2 # 10)
   /\ 1 + inject_Z (Z.of_N (Byte.to_N random)) / 255 * (2 # 10) <= 12 # 10)%Q.
Proof.
  pose proof (Byte.to_N_bounded random) as Hb.
  assert (H0 : (inject_Z 0 <= inject_Z (Z.of_N (Byte.to_N random)))%Q)
    by (rewrite <- Zle_Qle; lia).
  assert (H255 : (inject_Z (Z.of_N (Byte.to_N random)) <= inject_Z 255)%Q)
    by (rewrite <- Zle_Qle; lia).
  set (x := inject_Z (Z.of_N (Byte.to_N random))) in *.
  change (inject_Z 0) with 0%Q in H0.
  change (inject_Z 255) with 255%Q in H255.
  unfold Qdiv. change (/ 255)%Q with (1 # 255)%Q.
  split; lra.
Qed.

(** The delay is never below the nominal one, and at most a fifth above. *)
Lemma backoff_seconds_bounds (attempt : Z) (random : Byte.byte) :
  1 <= attempt ->
  (inject_Z (nominal_backoff attempt) <= backoff_seconds attempt random
   /\ backoff_seconds attempt random
      <= (12 # 10) * inject_Z (nominal_backoff attempt))%Q.
Proof.
  intros Ha. unfold backoff_seconds.
  pose proof (nominal_backoff_pos attempt Ha) as Hpos.
  assert (Hm : (0 < inject_Z (nominal_backoff attempt))%Q).
  { change 0%Q with (inject_Z 0). rewrite <- Zlt_Qlt. exact Hpos. }
  destruct (jitter_factor_bounds random) as [Hlo Hhi].
  set (m := inject_Z (nominal_backoff attempt)) in *.
  set (f := (1 + inject_Z (Z.of_N (Byte.to_N random)) / 255 * (2 # 10))%Q)
    in *.
  split; nra.
Qed.

(** The attempts that are tried again are those answered by an API error
    with status 429, 529 or 5xx, or without status. *)
Lemma fails_retriably_iff (o : api_outcome) :
  fails_retriably o = true
  <-> exists status_code message as_str,
        o = ApiError status_code message as_str
        /\ (status_code = Some 429 \/ status_code = Some 529
            \/ (exists c, status_code = Some c /\ 500 <= c <= 599)
            \/ status_code = None).
Proof.
  split.
  - destruct o as [t|status_code message as_str|as_str]; try discriminate.
    intros Hf. exists status_code, message, as_str. split; [reflexivity|].
    destruct status_code as [c|]; [|auto].
    cbn [fails_retriably retriable] in Hf.
    destruct (Z.eqb_spec c 529) as [->|_]; [auto|].
    destruct (Z.eqb_spec c 429) as [->|_]; [auto|].
    cbn [orb] in Hf. apply andb_prop in Hf as [Hlo Hhi].
    right. right. left. exists c. split; [reflexivity|lia].
  - intros (status_code & message & as_str & -> & Hstatus).
    cbn [fails_retriably].
    destruct Hstatus as [->|[->|[(c & -> & Hc)| ->]]]; try reflexivity.
    cbn [retriable].
    replace (500 <=? c) with true by (symmetry; apply Z.leb_le; lia).
    replace (c <=? 599) with true by (symmetry; apply Z.leb_le; lia).
    cbn [andb]. apply orb_true_r.
Qed.

Lemma after_attempts_nil (w : world) : after_attempts w [] [] = w.
Proof.
  destruct w. unfold after_attempts. simpl. rewrite !app_nil_r. reflexivity.
Qed.

Lemma after_attempts_twice (w : world) (r1 r2 : list request)
    (d1 d2 : list Q) :
  after_attempts (after_attempts w r1 d1) r2 d2
  = after_attempts w (r1 ++ r2) (d1 ++ d2).
Proof.
  unfold after_attempts. simpl. rewrite <- !app_assoc. reflexivity.
Qed.

(** One attempt, spelled out. *)
Lemma call_anthropic_api_from_step (fuel : nat) (system_prompt user : str)
    (max_response_tokens attempt : Z) (w : world) :
  let req := request_of system_prompt user max_response_tokens in
  let n := length (requests w) in
  call_anthropic_api_from E fuel system_prompt user max_response_tokens
    attempt w
  = if fails_retriably (messages_create E n req)
       && (attempt <? MAX_API_RETRIES)
    then match fuel with
         | S fuel' =>
             call_anthropic_api_from E fuel' system_prompt user
               max_response_tokens (attempt + 1)
               (after_attempts w [req]
                  [backoff_seconds attempt (urandom E n)])
         | O => (result_of_outcome (messages_create E n req),
                 after_attempts w [req] [])
         end
    else (result_of_outcome (messages_create E n req),
          after_attempts w [req] []).
Proof.
  intros req n.
  assert (Hlog : after_attempts w [req] [] = snd (log_request req w)).
  { unfold after_attempts, log_request. simpl. rewrite app_nil_r.
    reflexivity. }
  rewrite Hlog.
  destruct fuel; simpl; unfold bind, attempts_so_far; simpl;
    fold req; fold n;
    destruct (messages_create E n req) as [t|code message as_str|as_str];
    simpl; try reflexivity;
    destruct (retriable code); simpl; try reflexivity;
    destruct (attempt <? MAX_API_RETRIES); reflexivity.
Qed.

Lemma delays_of_S (attempt : Z) (n k : nat) :
  delays_of E attempt n (S k)
  = backoff_seconds attempt (urandom E n)
    :: delays_of E (attempt + 1) (S n) k.
Proof.
  unfold delays_of. simpl. rewrite Z.add_0_r, Nat.add_0_r. f_equal.
  rewrite <- seq_shift, map_map. apply map_ext. intros i.
  f_equal; [lia|f_equal; lia].
Qed.

(** The whole trace of a call: [k] attempts fail retriably and are
    followed by a sleep each, and one more attempt decides the result.
    That last attempt fails retriably only when no attempt is left. *)
Lemma call_anthropic_api_from_trace (fuel : nat) (system_prompt user : str)
    (max_response_tokens attempt : Z) (w : world) :
  let req := request_of system_prompt user max_response_tokens in
  let n := length (requests w) in
  let run := call_anthropic_api_from E fuel system_prompt user
               max_response_tokens attempt w in
  exists k : nat,
    (k <= fuel)%nat
    /\ run.2 = after_attempts w (repeat req (S k)) (delays_of E attempt n k)
    /\ run.1 = result_of_outcome (messages_create E (n + k) req)
    /\ (forall i, (i < k)%nat ->
          fails_retriably (messages_create E (n + i) req) = true
          /\ attempt + Z.of_nat i < MAX_API_RETRIES)
    /\ (fails_retriably (messages_create E (n + k) req) = true ->
        attempt + Z.of_nat k < MAX_API_RETRIES -> k = fuel).
Proof.
  revert attempt w.
  induction fuel as [|fuel IH]; intros attempt w req n run.
  - exists 0%nat. subst run. rewrite call_anthropic_api_from_step.
    fold req. fold n. rewrite Nat.add_0_r.
    split; [lia|].
    destruct (fails_retriably (messages_create E n req)
              && (attempt <? MAX_API_RETRIES)); simpl;
      (split; [reflexivity|]; split; [reflexivity|];
       split; [intros i Hi; lia|reflexivity]).
  - subst run. rewrite call_anthropic_api_from_step. fold req. fold n.
    destruct (fails_retriably (messages_create E n req)) eqn:Hfail;
      simpl andb.
    2: { exists 0%nat. rewrite Nat.add_0_r. rewrite Hfail.
         split; [lia|]. split; [reflexivity|]. split; [reflexivity|].
         split; [intros i Hi; lia|discriminate]. }
    destruct (Z.ltb_spec attempt MAX_API_RETRIES) as [Hlt|Hge].
    2: { exists 0%nat. rewrite Nat.add_0_r, Z.add_0_r.
         split; [lia|]. split; [reflexivity|]. split; [reflexivity|].
         split; [intros i Hi; lia|intros _ ?; lia]. }
    set (w1 := after_attempts w [req]
                 [backoff_seconds attempt (urandom E n)]).
    destruct (IH (attempt + 1) w1) as (k & Hk & Hw & Hr & Hbefore & Hlast).
    fold req in Hw, Hr, Hbefore, Hlast.
    assert (Hn : length (requests w1) = S n).
    { unfold w1. simpl. rewrite length_app. simpl. lia. }
    rewrite Hn in Hw, Hr, Hbefore, Hlast.
    exists (S k). split; [lia|]. split; [|split; [|split]].
    + rewrite Hw. unfold w1. rewrite after_attempts_twice, delays_of_S.
      reflexivity.
    + rewrite Hr. f_equal. f_equal. lia.
    + intros i Hi. destruct i as [|i].
      * rewrite Nat.add_0_r, Z.add_0_r. auto.
      * destruct (Hbefore i ltac:(lia)) as [Hf Ha].
        replace (n + S i)%nat with (S n + i)%nat by lia.
        split; [exact Hf|lia].
    + replace (n + S k)%nat with (S n + k)%nat by lia.
      intros Hf Ha. f_equal. apply Hlast; [exact Hf|lia].
Qed.

End Adapter.

(** C7.  A call of the adapter goes through [k] attempts that are answered
    by an API error with status 429, with status 529, with a status from
    500 to 599, or without status (which line 176 labels a timeout),
    sleeping after each of them, and through one more attempt that decides
    its result.  The sleep after the attempt numbered [a] is
    min(5 * 2^(a-1), 120) seconds times the factor 1 + byte/255 * 0.2, so
    that it lies within [0.8, 1.2] times min(base * 2^(a-1), cap).  There
    are at most MAX_API_RETRIES = 5 attempts in all; when the deciding
    attempt is answered by such an error too, it was the fifth, and the
    call returns the "ANTHROPIC_API_ERROR ..." marker of that error.
    Nothing but the attempts and the sleeps is left behind. *)
Theorem adapter_backs_off_then_gives_up
    (E : env) (system_prompt user : str) (max_response_tokens : Z)
    (w : world) :
  let req := request_of system_prompt user max_response_tokens in
  let n := length (requests w) in
  let run := call_anthropic_api E system_prompt user max_response_tokens
               1 w in
  INITIAL_BACKOFF_SECONDS = 5 /\ MAX_BACKOFF_SECONDS = 120
  /\ MAX_API_RETRIES = 5
  /\ exists (k : nat) (delays : list Q),
       run.2 = after_attempts w (repeat req (S k)) delays
       /\ length delays = k
       /\ Z.of_nat (S k) <= MAX_API_RETRIES
       /\ (forall i, (i < k)%nat ->
             let a := 1 + Z.of_nat i in
             let base_times_power :=
               Z.min (INITIAL_BACKOFF_SECONDS * 2 ^ (a - 1))
                 MAX_BACKOFF_SECONDS in
             (exists status_code message as_str,
                messages_create E (n + i) req
                = ApiError status_code message as_str
                /\ (status_code = Some 429 \/ status_code = Some 529
                    \/ (exists c, status_code = Some c /\ 500 <= c <= 599)
                    \/ status_code = None))
             /\ exists delay : Q,
                  nth_error delays i = Some delay
                  /\ delay
                     = (inject_Z base_times_power
                        * (1 + inject_Z (Z.of_N (Byte.to_N
                                                   (urandom E (n + i))))
                               / 255 * (2 # 10)))%Q
                  /\ ((8 # 10) * inject_Z base_times_power <= delay)%Q
                  /\ (delay <= (12 # 10) * inject_Z base_times_power)%Q)
       /\ run.1 = result_of_outcome (messages_create E (n + k) req)
       /\ (forall status_code message as_str,
             messages_create E (n + k) req
             = ApiError status_code message as_str ->
             status_code = Some 429 \/ status_code = Some 529
             \/ (exists c, status_code = Some c /\ 500 <= c <= 599)
             \/ status_code = None ->
             Z.of_nat (S k) = MAX_API_RETRIES
             /\ run.1 = error_prefix_of status_code message as_str
             /\ startswith run.1 (lit "ANTHROPIC_") = true
             /\ is_error_marker run.1 = true).
Proof.
  intros req n run.
  split; [reflexivity|]. split; [reflexivity|]. split; [reflexivity|].
  destruct (call_anthropic_api_from_trace E
              (Z.to_nat (MAX_API_RETRIES - 1)) system_prompt user
              max_response_tokens 1 w)
    as (k & Hk & Hw & Hr & Hbefore & Hlast).
  fold req in Hw, Hr, Hbefore, Hlast. fold n in Hw, Hr, Hbefore, Hlast.
  exists k, (delays_of E 1 n k). split; [exact Hw|].
  split; [unfold delays_of; rewrite length_map, length_seq; reflexivity|].
  split; [unfold MAX_API_RETRIES in *; lia|].
  split; [|split; [exact Hr|]].
  - intros i Hi a base_times_power.
    destruct (Hbefore i Hi) as [Hf _].
    split; [apply fails_retriably_iff; exact Hf|].
    exists (backoff_seconds a (urandom E (n + i))).
    split.
    { unfold delays_of. rewrite nth_error_map, nth_error_seq.
      destruct (Nat.ltb_spec i k); [reflexivity|lia]. }
    split; [reflexivity|].
    assert (Ha : 1 <= a) by (unfold a; lia).
    destruct (backoff_seconds_bounds a (urandom E (n + i)) Ha)
      as [Hlo Hhi].
    pose proof (nominal_backoff_pos a Ha) as Hpos.
    assert (Hm : (0 < inject_Z (nominal_backoff a))%Q).
    { change 0%Q with (inject_Z 0). rewrite <- Zlt_Qlt. exact Hpos. }
    change base_times_power with (nominal_backoff a).
    split; [lra|exact Hhi].
  - intros status_code message as_str Hout Hstatus.
    assert (Hf : fails_retriably (messages_create E (n + k) req) = true).
    { apply fails_retriably_iff. exists status_code, message, as_str.
      split; [exact Hout|exact Hstatus]. }
    assert (Hlast_attempt : Z.of_nat (S k) = MAX_API_RETRIES).
    { destruct (Z.lt_ge_cases (1 + Z.of_nat k) MAX_API_RETRIES) as [Hlt|Hge].
      - rewrite (Hlast Hf Hlt). unfold MAX_API_RETRIES. lia.
      - unfold MAX_API_RETRIES in *. lia. }
    split; [exact Hlast_attempt|].
    unfold run, call_anthropic_api. rewrite Hr, Hout.
    cbn [result_of_outcome].
    split; [reflexivity|]. split; [reflexivity|].
    apply error_prefix_is_error_marker.
Qed.

(** With the service overloaded throughout: five attempts, four sleeps,
    and an error-marker as result. *)
Example overloaded_service_is_given_up :
  let run := call_anthropic_api (sample_env service_overloaded)
               (lit "extract") (lit "hello") 1500 1 empty_world in
  run.1 = lit "ANTHROPIC_API_ERROR (Code 529): overloaded"
  /\ length (requests run.2) = 5%nat
  /\ length (sleeps run.2) = 4%nat
  /\ List.map nominal_backoff [1; 2; 3; 4; 5; 6] = [5; 10; 20; 40; 80; 120].
Proof. repeat split. Qed.

(** ** Loading the state file *)

(** What [save_state_data] writes is read back unchanged. *)
Lemma load_of_snapshot_of (data : state_data) :
  load_state_data (FileSnapshot (snapshot_of data)) = data.
Proof. destruct data. reflexivity. Qed.

(** C10, as stated, fails: after a state file that does not parse, a text
    message of the next export whose id and timestamp are both 0 does not
    pass the cursor test of lines 140-141, and nothing is emitted for it. *)
Lemma record_at_the_origin_is_not_admitted_again :
  let state_data := load_state_data FileGarbled in
  let m := text_message 0 0 "Ann" "hello" None in
  let v := {| msg_id := 0; msg_timestamp_unix := 0; msg_data := m |} in
  state_data = fresh_state
  /\ validate m = Some v
  /\ is_message m = true
  /\ renderable m = true
  /\ already_processed (last_processed_message_id state_data)
       (last_processed_message_timestamp_unix state_data) v = true
  /\ (load_and_format_new_messages (ExportData (Some [m]))
        (last_processed_message_id state_data)
        (last_processed_message_timestamp_unix state_data)).1.1 = [].
Proof. repeat split. Qed.

(** C10.  When the state file is missing, unreadable, or fails to parse,
    [load_state_data] returns the fresh state: cursor (0, 0), no insight,
    no report reference.  With that cursor a record of the next export
    passes the cursor test exactly when its (timestamp, id) is
    lexicographically greater than (0, 0), that is, when its timestamp is
    positive, or its timestamp is 0 and its id is positive; and it is
    emitted exactly when it is moreover a message with content. *)
Theorem unusable_state_file_resets_the_cursor (stored : state_file) :
  stored = FileMissing \/ stored = FileUnreadable \/ stored = FileGarbled ->
  let state_data := load_state_data stored in
  state_data = fresh_state
  /\ last_processed_message_timestamp_unix state_data = 0
  /\ last_processed_message_id state_data = 0
  /\ individual_useful_insights state_data = []
  /\ latest_report_filename state_data = None
  /\ (forall (messages : option (list message)) (m : message)
        (v : valid_message),
        In m (default [] messages) ->
        validate m = Some v ->
        let new_formatted_messages :=
          (load_and_format_new_messages (ExportData messages)
             (last_processed_message_id state_data)
             (last_processed_message_timestamp_unix state_data)).1.1 in
        let message_lookup_dict :=
          (scan_messages (default [] messages) ∅ []).1 in
        (already_processed (last_processed_message_id state_data)
           (last_processed_message_timestamp_unix state_data) v = false
         <-> 0 < msg_timestamp_unix v
             \/ (msg_timestamp_unix v = 0 /\ 0 < msg_id v))
        /\ ((exists f,
               format_message message_lookup_dict
                 (last_processed_message_id state_data)
                 (last_processed_message_timestamp_unix state_data) v
               = Some f
               /\ In f new_formatted_messages
               /\ f_id f = msg_id v
               /\ timestamp_unix f = msg_timestamp_unix v)
            <-> (0 < msg_timestamp_unix v
                 \/ (msg_timestamp_unix v = 0 /\ 0 < msg_id v))
                /\ is_message m = true
                /\ renderable m = true)).
Proof.
  intros Hstored state_data.
  assert (Hfresh : state_data = fresh_state).
  { unfold state_data. destruct Hstored as [->|[->| ->]]; reflexivity. }
  rewrite Hfresh. repeat (split; [reflexivity|]).
  intros messages m v Hm Hv out lookup.
  change (last_processed_message_id fresh_state) with 0 in *.
  change (last_processed_message_timestamp_unix fresh_state) with 0 in *.
  assert (Hcursor : after_cursor 0 0 (msg_timestamp_unix v) (msg_id v)
                    <-> 0 < msg_timestamp_unix v
                        \/ (msg_timestamp_unix v = 0 /\ 0 < msg_id v)).
  { unfold after_cursor. lia. }
  split; [rewrite already_processed_false; exact Hcursor|].
  destruct (emission_of_one_record messages 0 0 m v Hm Hv) as [Hiff _].
  fold out in Hiff. fold lookup in Hiff.
  rewrite <- Hcursor, <- Hiff. split.
  - intros (f & Hf & Hin & _). exists f. split; assumption.
  - intros (f & Hf & Hin). exists f.
    split; [exact Hf|]. split; [exact Hin|].
    exact (format_message_keeps_key _ _ _ _ _ Hf).
Qed.

Lemma unusable_state_file_resets_the_cursor_witness :
  let state_data := load_state_data FileGarbled in
  let m := text_message 4 1700000000 "Ann" "hello" None in
  let v := {| msg_id := 4; msg_timestamp_unix := 1700000000;
              msg_data := m |} in
  state_data = fresh_state
  /\ already_processed (last_processed_message_id state_data)
       (last_processed_message_timestamp_unix state_data) v = false
  /\ exists f,
       In f (load_and_format_new_messages (ExportData (Some [m]))
               (last_processed_message_id state_data)
               (last_processed_message_timestamp_unix state_data)).1.1
       /\ f_id f = 4.
Proof.
  pose proof (unusable_state_file_resets_the_cursor FileGarbled
                (or_intror (or_intror eq_refl)))
    as (Hfresh & _ & _ & _ & _ & Hrecords).
  split; [exact Hfresh|].
  destruct (Hrecords (Some [text_message 4 1700000000 "Ann" "hello" None])
              (text_message 4 1700000000 "Ann" "hello" None)
              {| msg_id := 4; msg_timestamp_unix := 1700000000;
                 msg_data := text_message 4 1700000000 "Ann" "hello" None |}
              (or_introl eq_refl) eq_refl)
    as [Htest Hemit].
  split; [apply Htest; left; reflexivity|].
  destruct (proj2 Hemit (conj (or_introl eq_refl)
                           (conj eq_refl eq_refl)))
    as (f & _ & Hin & Hid & _).
  exists f. split; [exact Hin|exact Hid].
Defined.

(** ** What the service calls leave untouched *)

Section Frames.

Variable E : env.

Lemma only_service_traffic_refl (w : world) : only_service_traffic w w.
Proof. exists [], []. symmetry. apply after_attempts_nil. Qed.

Lemma only_service_traffic_trans (w1 w2 w3 : world) :
  only_service_traffic w1 w2 -> only_service_traffic w2 w3 ->
  only_service_traffic w1 w3.
Proof.
  intros (r1 & d1 & ->) (r2 & d2 & ->).
  exists (r1 ++ r2), (d1 ++ d2). apply after_attempts_twice.
Qed.

(** Files, write counters and the clock are as before. *)
Lemma only_service_traffic_files (w w' : world) :
  only_service_traffic w w' ->
  on_disk w' = on_disk w
  /\ state_writes w' = state_writes w
  /\ clock_reads w' = clock_reads w
  /\ report_writes w' = report_writes w
  /\ report_files w' = report_files w
  /\ export_removed w' = export_removed w.
Proof. intros (r & d & ->). repeat split. Qed.

Lemma call_anthropic_api_only_talks (system_prompt user : str)
    (max_response_tokens attempt : Z) (w : world) :
  only_service_traffic w
    (call_anthropic_api E system_prompt user max_response_tokens attempt w).2.
Proof.
  unfold call_anthropic_api.
  destruct (call_anthropic_api_from_trace E
              (Z.to_nat (MAX_API_RETRIES - attempt)) system_prompt user
              max_response_tokens attempt w) as (k & _ & Hw & _).
  rewrite Hw. eexists _, _. reflexivity.
Qed.

Lemma compact_insights_collection_only_talks (insights_texts_list : list str)
    (max_tokens_for_context : Z) (prompt_for_compaction : str) (w : world) :
  only_service_traffic w
    (compact_insights_collection E insights_texts_list max_tokens_for_context
       prompt_for_compaction w).2.
Proof.
  unfold compact_insights_collection.
  destruct insights_texts_list as [|t ts];
    [apply only_service_traffic_refl|].
  destruct (max_tokens_for_context <? _);
    [|apply only_service_traffic_refl].
  unfold bind.
  pose proof (call_anthropic_api_only_talks prompt_for_compaction
                (compaction_user_prompt_of E (join SEP (t :: ts))
                   prompt_for_compaction) 3000 1 w) as Hcall.
  destruct (call_anthropic_api E prompt_for_compaction _ 3000 1 w)
    as [summary w'].
  destruct (is_error_marker summary); exact Hcall.
Qed.

Lemma summarize_meta_chunks_only_talks (idx : nat)
    (meta_chunked_insights : list (list str)) (w : world) :
  only_service_traffic w
    (summarize_meta_chunks E idx meta_chunked_insights w).2.
Proof.
  revert idx w.
  induction meta_chunked_insights as [|meta_chunk rest IH]; intros idx w.
  - apply only_service_traffic_refl.
  - cbn [summarize_meta_chunks]. unfold bind.
    match goal with
    | |- context [call_anthropic_api E ?p ?u ?m ?a w] =>
        pose proof (call_anthropic_api_only_talks p u m a w) as Hcall;
        destruct (call_anthropic_api E p u m a w) as [meta_summary w1]
    end.
    specialize (IH (S idx) w1).
    destruct (summarize_meta_chunks E (S idx) rest w1) as [others w2].
    exact (only_service_traffic_trans _ _ _ Hcall IH).
Qed.

Lemma report_input_of_only_talks (all_individual_insights : list str)
    (w : world) :
  only_service_traffic w (report_input_of E all_individual_insights w).2.
Proof.
  unfold report_input_of.
  destruct (MAX_TOKENS_FOR_FINAL_REPORT_GENERATION <? _);
    [|apply only_service_traffic_refl].
  unfold bind.
  match goal with
  | |- context [summarize_meta_chunks E ?i ?l w] =>
      pose proof (summarize_meta_chunks_only_talks i l w) as Hsum;
      destruct (summarize_meta_chunks E i l w) as [summaries w1]
  end.
  exact Hsum.
Qed.

End Frames.

(** ** Chunk processing *)

Section ChunkProcessing.

Variable E : env.

Lemma List_last_default {A} (z x y : A) (l : list A) :
  List.last (z :: l) x = List.last (z :: l) y.
Proof.
  revert z. induction l as [|z' l IH]; intros z; [reflexivity|].
  change (List.last (z' :: l) x = List.last (z' :: l) y). apply IH.
Qed.

Lemma last_cons {A} (x : A) (l : list A) :
  last (x :: l) = Some (List.last l x).
Proof.
  revert x. induction l as [|y l IH]; intros x; [reflexivity|].
  change (last (x :: y :: l)) with (last (y :: l)). rewrite IH.
  f_equal. destruct l as [|z l']; [reflexivity|].
  exact (List_last_default z y x l').
Qed.

(** What [save_state_data] does to the world. *)
Lemma save_state_data_effect (data : state_data) (w : world) :
  let run := save_state_data E data w in
  run.1 = record_prompts E data
  /\ state_writes run.2 = S (state_writes w)
  /\ on_disk run.2
     = match state_write E (state_writes w) with
       | Written => FileSnapshot (snapshot_of (record_prompts E data))
       | OpenFailed => on_disk w
       | DumpFailed => FileGarbled
       end
  /\ requests run.2 = requests w
  /\ sleeps run.2 = sleeps w.
Proof. repeat split. Qed.

(** An error-marker leaves the loop at once: nothing but the failed call
    has happened, and only the success flag has changed. *)
Lemma process_chunk_error_marker (new_messages : list formatted) (i : nat)
    (vars : loop_vars) (w : world) :
  chunk_messages_of MESSAGES_PER_CHUNK new_messages i <> [] ->
  is_error_marker (chunk_call E new_messages i vars w).1 = true ->
  process_chunk E new_messages i vars w
  = (Break,
     {| state := state vars;
        previous_insights_context_str := previous_insights_context_str vars;
        any_new_insights_this_run := any_new_insights_this_run vars;
        all_chunks_successful := false |},
     (chunk_call E new_messages i vars w).2).
Proof.
  unfold chunk_call, process_chunk. intros Hne Hfail.
  destruct (chunk_messages_of MESSAGES_PER_CHUNK new_messages i)
    as [|first_of_chunk others] eqn:Hchunk; [congruence|].
  unfold bind.
  destruct (call_anthropic_api E _ _ 1500 1 w) as [text w1].
  cbn [fst snd] in *. rewrite Hfail. reflexivity.
Qed.

(** The sentinel commits the chunk without an insight. *)
Lemma process_chunk_no_new_insights (new_messages : list formatted) (i : nat)
    (vars : loop_vars) (w : world) (last_of_chunk : formatted) :
  last (chunk_messages_of MESSAGES_PER_CHUNK new_messages i)
  = Some last_of_chunk ->
  (chunk_call E new_messages i vars w).1 = NO_NEW_INSIGHTS ->
  process_chunk E new_messages i vars w
  = commit_chunk E vars last_of_chunk (chunk_call E new_messages i vars w).2.
Proof.
  unfold chunk_call, process_chunk. intros Hlast Hsentinel.
  destruct (chunk_messages_of MESSAGES_PER_CHUNK new_messages i)
    as [|first_of_chunk others] eqn:Hchunk; [discriminate|].
  rewrite last_cons in Hlast. apply Some_eq in Hlast. subst last_of_chunk.
  unfold bind.
  destruct (call_anthropic_api E _ _ 1500 1 w) as [text w1].
  cbn [fst snd] in *. subst text. reflexivity.
Qed.

Lemma chunk_loop_app (new_messages : list formatted)
    (earlier rest : list nat) (vars vars' : loop_vars) (w w' : world) :
  runs_through E new_messages earlier vars w vars' w' ->
  chunk_loop E new_messages (earlier ++ rest) vars w
  = chunk_loop E new_messages rest vars' w'.
Proof.
  induction 1 as [|i later vars w vars1 w1 vars2 w2 Hstep _ IH].
  - reflexivity.
  - simpl. unfold bind at 1. rewrite Hstep. exact IH.
Qed.

Lemma utcnow_z_files (w : world) :
  on_disk (utcnow_z E w).2 = on_disk w
  /\ state_writes (utcnow_z E w).2 = state_writes w.
Proof. split; reflexivity. Qed.

(** What committing a chunk does: one write of the state file, holding
    the state the loop goes on with. *)
Lemma commit_chunk_effect (vars : loop_vars) (last_of_chunk : formatted)
    (w : world) :
  let step := commit_chunk E vars last_of_chunk w in
  step.1.1 = Continue
  /\ state step.1.2
     = record_prompts E (advance_cursor (state vars) last_of_chunk)
  /\ previous_insights_context_str step.1.2
     = previous_insights_context_str vars
  /\ any_new_insights_this_run step.1.2 = any_new_insights_this_run vars
  /\ all_chunks_successful step.1.2 = all_chunks_successful vars
  /\ state_writes step.2 = S (state_writes w)
  /\ on_disk step.2
     = match state_write E (state_writes w) with
       | Written => FileSnapshot (snapshot_of (state step.1.2))
       | OpenFailed => on_disk w
       | DumpFailed => FileGarbled
       end
  /\ requests step.2 = requests w.
Proof. repeat split. Qed.

(** Every iteration that does not leave the loop ends with a write of the
    state file that holds the state the loop goes on with. *)
Lemma process_chunk_continue_commits (new_messages : list formatted)
    (i : nat) (vars vars' : loop_vars) (w w' : world) :
  chunk_messages_of MESSAGES_PER_CHUNK new_messages i <> [] ->
  process_chunk E new_messages i vars w = (Continue, vars', w') ->
  state_writes w' = S (state_writes w)
  /\ on_disk w'
     = match state_write E (state_writes w) with
       | Written => FileSnapshot (snapshot_of (state vars'))
       | OpenFailed => on_disk w
       | DumpFailed => FileGarbled
       end.
Proof.
  intros Hne Hstep. unfold process_chunk in Hstep.
  destruct (chunk_messages_of MESSAGES_PER_CHUNK new_messages i)
    as [|first_of_chunk others] eqn:Hchunk; [congruence|].
  unfold bind in Hstep.
  match type of Hstep with
  | context [call_anthropic_api E ?p ?u ?m ?a w] =>
      pose proof (call_anthropic_api_only_talks E p u m a w) as Hcall;
      destruct (call_anthropic_api E p u m a w) as [text w1]
  end.
  apply only_service_traffic_files in Hcall as (Hd1 & Hs1 & _).
  cbn [snd] in Hd1, Hs1.
  destruct (is_error_marker text); [discriminate|].
  destruct (str_eqb text NO_NEW_INSIGHTS).
  - pose proof (commit_chunk_effect vars (List.last others first_of_chunk) w1)
      as (_ & _ & _ & _ & _ & Hw & Hd & _).
    rewrite Hstep in Hw, Hd. cbn [fst snd] in Hw, Hd.
    rewrite Hw, Hd, Hs1, Hd1. split; reflexivity.
  - destruct (utcnow_z_files w1) as [Hd2 Hs2].
    destruct (utcnow_z E w1) as [generated w2]. cbn [snd] in Hd2, Hs2.
    match type of Hstep with
    | context [compact_insights_collection E ?l ?b ?p w2] =>
        pose proof (compact_insights_collection_only_talks E l b p w2)
          as Hcompact;
        destruct (compact_insights_collection E l b p w2) as [context w3]
    end.
    apply only_service_traffic_files in Hcompact as (Hd3 & Hs3 & _).
    cbn [snd] in Hd3, Hs3.
    destruct (is_error_marker context); [discriminate|].
    match type of Hstep with
    | commit_chunk E ?v ?l w3 = _ =>
        pose proof (commit_chunk_effect v l w3)
          as (_ & _ & _ & _ & _ & Hw & Hd & _)
    end.
    rewrite Hstep in Hw, Hd. cbn [fst snd] in Hw, Hd.
    rewrite Hw, Hd, Hs3, Hs2, Hs1, Hd3, Hd2, Hd1. split; reflexivity.
Qed.

End ChunkProcessing.

(** C5, as stated, fails: with a state file that cannot be opened for
    writing, the first chunk of fifty-one messages is answered by
    "NO_NEW_INSIGHTS" and moves the cursor to its last record in memory,
    yet no state file exists when the second chunk is processed, nor
    after it; a run that starts then reads the cursor (0, 0). *)
Lemma unsaved_sentinel_chunk_is_followed_by_the_next :
  let E := faulty_env (service_says "NO_NEW_INSIGHTS")
             (fun _ => OpenFailed) (fun _ => true) in
  let vars := initial_loop_vars fresh_state [] in
  let step := process_chunk E fifty_one_lines 0 vars empty_world in
  let next := process_chunk E fifty_one_lines 1 step.1.2 step.2 in
  (chunk_call E fifty_one_lines 0 vars empty_world).1 = NO_NEW_INSIGHTS
  /\ step.1.1 = Continue
  /\ last_processed_message_id (state step.1.2) = 50
  /\ state_writes step.2 = 1%nat
  /\ on_disk step.2 = FileMissing
  /\ last_processed_message_id (load_state_data (on_disk step.2)) = 0
  /\ chunk_loop E fifty_one_lines [0; 1]%nat vars empty_world
     = chunk_loop E fifty_one_lines [1]%nat step.1.2 step.2
  /\ length (requests step.2) = 1%nat
  /\ length (requests next.2) = 2%nat
  /\ on_disk next.2 = FileMissing.
Proof. vm_compute. repeat split. Qed.

(** C5.  When the call for a chunk returns the literal "NO_NEW_INSIGHTS",
    the iteration does not leave the loop, appends no insight, moves the
    cursor in memory to the (timestamp, id) of the chunk's last record, and
    attempts one write of the state file before the loop goes on to the
    next chunk.  When that write succeeds the file holds the new state,
    which a later run reads back; when the file cannot be opened it stays
    as it was; when the dump fails the file is left unusable.  In each
    case the loop goes on. *)
Theorem no_new_insights_still_advances_the_cursor
    (E : env) (new_messages : list formatted) (i : nat) (later : list nat)
    (vars : loop_vars) (w : world) (last_of_chunk : formatted) :
  last (chunk_messages_of MESSAGES_PER_CHUNK new_messages i)
  = Some last_of_chunk ->
  (chunk_call E new_messages i vars w).1 = NO_NEW_INSIGHTS ->
  let step := process_chunk E new_messages i vars w in
  let vars' := step.1.2 in
  let w' := step.2 in
  step.1.1 = Continue
  /\ individual_useful_insights (state vars')
     = individual_useful_insights (state vars)
  /\ any_new_insights_this_run vars' = any_new_insights_this_run vars
  /\ last_processed_message_id (state vars') = f_id last_of_chunk
  /\ last_processed_message_timestamp_unix (state vars')
     = timestamp_unix last_of_chunk
  /\ state_writes w' = S (state_writes w)
  /\ on_disk w'
     = match state_write E (state_writes w) with
       | Written => FileSnapshot (snapshot_of (state vars'))
       | OpenFailed => on_disk w
       | DumpFailed => FileGarbled
       end
  /\ (state_write E (state_writes w) = Written ->
      load_state_data (on_disk w') = state vars'
      /\ last_processed_message_id (load_state_data (on_disk w'))
         = f_id last_of_chunk
      /\ last_processed_message_timestamp_unix
           (load_state_data (on_disk w'))
         = timestamp_unix last_of_chunk
      /\ individual_useful_insights (load_state_data (on_disk w'))
         = individual_useful_insights (state vars))
  /\ chunk_loop E new_messages (i :: later) vars w
     = chunk_loop E new_messages later vars' w'.
Proof.
  intros Hlast Hsentinel step vars' w'.
  pose proof (process_chunk_no_new_insights E new_messages i vars w
                last_of_chunk Hlast Hsentinel) as Hstep.
  pose proof (call_anthropic_api_only_talks E
                (SYSTEM_PROMPT_CHUNK_INSIGHTS E)
                (prompt_content_for_chunk_of
                   (previous_insights_context_str vars)
                   (chunk_messages_of MESSAGES_PER_CHUNK new_messages i))
                1500 1 w) as Hcall.
  apply only_service_traffic_files in Hcall as (Hd1 & Hs1 & _).
  fold (chunk_call E new_messages i vars) in Hd1, Hs1.
  pose proof (commit_chunk_effect E vars last_of_chunk
                (chunk_call E new_messages i vars w).2)
    as (Hctl & Hstate & _ & Hany & _ & Hw & Hd & _).
  rewrite <- Hstep in Hctl, Hstate, Hany, Hw, Hd.
  fold step in Hctl, Hstate, Hany, Hw, Hd.
  fold vars' in Hstate, Hany, Hd. fold w' in Hw, Hd.
  rewrite Hs1, Hd1 in Hd.
  split; [exact Hctl|].
  split; [rewrite Hstate; reflexivity|].
  split; [exact Hany|].
  split; [rewrite Hstate; reflexivity|].
  split; [rewrite Hstate; reflexivity|].
  split; [rewrite Hw, Hs1; reflexivity|].
  split; [exact Hd|].
  split.
  - intros Hok. rewrite Hd, Hok, load_of_snapshot_of, Hstate.
    repeat split.
  - cbn [chunk_loop]. unfold bind at 1. fold step.
    destruct step as [[ctl v1] w1] eqn:Hs. cbn [fst snd] in *.
    subst ctl. reflexivity.
Qed.

Lemma no_new_insights_still_advances_the_cursor_witness :
  let E := sample_env (service_says "NO_NEW_INSIGHTS") in
  let step := process_chunk E two_lines 0
                (initial_loop_vars fresh_state []) empty_world in
  step.1.1 = Continue
  /\ individual_useful_insights (state step.1.2) = []
  /\ last_processed_message_id (state step.1.2) = 5
  /\ last_processed_message_timestamp_unix (state step.1.2) = 1700000060
  /\ on_disk step.2 = FileSnapshot (snapshot_of (state step.1.2))
  /\ last_processed_message_id (load_state_data (on_disk step.2)) = 5.
Proof.
  pose proof (no_new_insights_still_advances_the_cursor
                (sample_env (service_says "NO_NEW_INSIGHTS")) two_lines 0 []
                (initial_loop_vars fresh_state []) empty_world
                (line 5 1700000060 "From Bob: hi")
                eq_refl eq_refl)
    as (Hctl & Hins & _ & Hid & Hts & _ & Hdisk & Hload & _).
  split; [exact Hctl|]. split; [exact Hins|]. split; [exact Hid|].
  split; [exact Hts|]. split; [exact Hdisk|].
  exact (proj1 (proj2 (Hload eq_refl))).
Defined.

(** ** An error-marker in the chunk loop *)

Section LoopErrors.

Variable E : env.

Lemma chunk_of_index_is_nonempty {A} (l : list A) (i : nat) :
  (i < num_chunks_of MESSAGES_PER_CHUNK (length l))%nat ->
  chunk_messages_of MESSAGES_PER_CHUNK l i <> [].
Proof.
  intros Hi Hnil.
  assert (Hpos : (0 < MESSAGES_PER_CHUNK)%nat)
    by (unfold MESSAGES_PER_CHUNK; lia).
  destruct (num_chunks_of_covers MESSAGES_PER_CHUNK (length l) Hpos)
    as [_ Hhigh].
  apply (f_equal length) in Hnil.
  rewrite chunk_messages_of_take_drop, length_take, length_drop in Hnil.
  assert (Hle : (S i * MESSAGES_PER_CHUNK
                 <= num_chunks_of MESSAGES_PER_CHUNK (length l)
                    * MESSAGES_PER_CHUNK)%nat)
    by (apply Nat.mul_le_mono_r; lia).
  cbn [length] in Hnil. lia.
Qed.

(** After chunks that were all committed, the last write of the state
    file was given the state the loop holds. *)
Lemma runs_through_last_commit (new_messages : list formatted)
    (indices : list nat) (vars vars' : loop_vars) (w w' : world) :
  runs_through E new_messages indices vars w vars' w' ->
  indices <> [] ->
  Forall (fun i => chunk_messages_of MESSAGES_PER_CHUNK new_messages i <> [])
    indices ->
  exists n,
    state_writes w' = S n
    /\ (state_write E n = Written ->
        on_disk w' = FileSnapshot (snapshot_of (state vars'))).
Proof.
  induction 1 as [|i later vars w vars1 w1 vars2 w2 Hstep Hrest IH];
    intros Hne Hchunks; [congruence|].
  apply Forall_cons in Hchunks as [Hi Hlater].
  destruct later as [|j later].
  - inversion Hrest; subst.
    destruct (process_chunk_continue_commits E new_messages i vars vars2
                w w2 Hi Hstep) as [Hw Hd].
    exists (state_writes w). split; [exact Hw|].
    intros Hok. rewrite Hd, Hok. reflexivity.
  - apply IH; [discriminate|exact Hlater].
Qed.

(** The loop is left where the call for chunk [i] fails. *)
Lemma chunk_loop_stops_at_error_marker (new_messages : list formatted)
    (earlier later : list nat) (i : nat)
    (vars vars_i : loop_vars) (w w_i : world) :
  runs_through E new_messages earlier vars w vars_i w_i ->
  chunk_messages_of MESSAGES_PER_CHUNK new_messages i <> [] ->
  is_error_marker (chunk_call E new_messages i vars_i w_i).1 = true ->
  chunk_loop E new_messages (earlier ++ i :: later) vars w
  = ({| state := state vars_i;
        previous_insights_context_str := previous_insights_context_str vars_i;
        any_new_insights_this_run := any_new_insights_this_run vars_i;
        all_chunks_successful := false |},
     (chunk_call E new_messages i vars_i w_i).2).
Proof.
  intros Hruns Hne Hfail.
  rewrite (chunk_loop_app E _ _ _ _ _ _ _ Hruns).
  cbn [chunk_loop]. unfold bind.
  rewrite (process_chunk_error_marker E _ _ _ _ Hne Hfail). reflexivity.
Qed.

End LoopErrors.

Lemma seq_split_at (i n : nat) :
  (i < n)%nat -> seq 0 n = seq 0 i ++ i :: seq (S i) (n - S i).
Proof.
  intros Hi. replace n with (i + S (n - S i))%nat at 1 by lia.
  rewrite seq_app. reflexivity.
Qed.

(** C3.  Take a run that holds new messages and in which chunks 0 to
    i - 1 were processed and committed.  If the call for chunk [i] returns
    an error-marker, the chunk loop is left there with the state it held
    after chunk i - 1, and the run ends with the failed call: the only
    requests sent after chunk i - 1 are the attempts for chunk [i], and
    the state file, the write counter, the report files and the export
    are as chunk i - 1 left them.  When chunk i - 1 exists and its write
    succeeded, the state file holds that state, with every insight and
    cursor advance committed before [i]. *)
Theorem error_marker_aborts_remaining_chunks
    (E : env) (state_data : state_data) (new_messages : list formatted)
    (chat_folder_basename : str) (w : world)
    (i : nat) (vars_i : loop_vars) (w_i : world) :
  let compacted :=
    compact_insights_collection E
      (List.map insight_text (individual_useful_insights state_data))
      MAX_PREVIOUS_INSIGHTS_TOKENS_FOR_CHUNK_PROCESSING
      (SYSTEM_PROMPT_COMPACT_INSIGHTS_COLLECTION E) w in
  let num_chunks := num_chunks_of MESSAGES_PER_CHUNK (length new_messages) in
  is_error_marker compacted.1 = false ->
  (i < num_chunks)%nat ->
  runs_through E new_messages (seq 0 i)
    (initial_loop_vars state_data compacted.1) compacted.2 vars_i w_i ->
  is_error_marker (chunk_call E new_messages i vars_i w_i).1 = true ->
  let loop :=
    chunk_loop E new_messages (seq 0 num_chunks)
      (initial_loop_vars state_data compacted.1) compacted.2 in
  let w_end :=
    (process_new_messages E state_data new_messages chat_folder_basename
       w).2 in
  state loop.1 = state vars_i
  /\ all_chunks_successful loop.1 = false
  /\ w_end = (chunk_call E new_messages i vars_i w_i).2
  /\ (exists k,
        requests w_end
        = requests w_i
          ++ repeat
               (request_of (SYSTEM_PROMPT_CHUNK_INSIGHTS E)
                  (prompt_content_for_chunk_of
                     (previous_insights_context_str vars_i)
                     (chunk_messages_of MESSAGES_PER_CHUNK new_messages i))
                  1500)
               (S k))
  /\ on_disk w_end = on_disk w_i
  /\ state_writes w_end = state_writes w_i
  /\ report_files w_end = report_files w_i
  /\ export_removed w_end = export_removed w_i
  /\ ((0 < i)%nat ->
      exists n,
        state_writes w_end = S n
        /\ (state_write E n = Written ->
            on_disk w_end = FileSnapshot (snapshot_of (state vars_i)))).
Proof.
  intros compacted num_chunks Hcontext Hi Hruns Hfail loop w_end.
  assert (Hchunk : forall j, (j < num_chunks)%nat ->
            chunk_messages_of MESSAGES_PER_CHUNK new_messages j <> []).
  { intros j Hj. apply chunk_of_index_is_nonempty. exact Hj. }
  assert (Hloop : loop
            = ({| state := state vars_i;
                  previous_insights_context_str :=
                    previous_insights_context_str vars_i;
                  any_new_insights_this_run :=
                    any_new_insights_this_run vars_i;
                  all_chunks_successful := false |},
               (chunk_call E new_messages i vars_i w_i).2)).
  { unfold loop. rewrite (seq_split_at i num_chunks Hi).
    apply chunk_loop_stops_at_error_marker; auto. }
  assert (Hend : w_end = (chunk_call E new_messages i vars_i w_i).2).
  { unfold w_end, process_new_messages, bind.
    fold compacted. destruct compacted as [context w0] eqn:Hc.
    cbn [fst snd] in *. rewrite Hcontext.
    fold num_chunks. fold loop. rewrite Hloop. reflexivity. }
  destruct (call_anthropic_api_from_trace E
              (Z.to_nat (MAX_API_RETRIES - 1))
              (SYSTEM_PROMPT_CHUNK_INSIGHTS E)
              (prompt_content_for_chunk_of
                 (previous_insights_context_str vars_i)
                 (chunk_messages_of MESSAGES_PER_CHUNK new_messages i))
              1500 1 w_i) as (k & _ & Htrace & _).
  change (call_anthropic_api_from E (Z.to_nat (MAX_API_RETRIES - 1))
            (SYSTEM_PROMPT_CHUNK_INSIGHTS E)
            (prompt_content_for_chunk_of
               (previous_insights_context_str vars_i)
               (chunk_messages_of MESSAGES_PER_CHUNK new_messages i))
            1500 1 w_i)
    with (chunk_call E new_messages i vars_i w_i) in Htrace.
  rewrite <- Hend in Htrace.
  split; [rewrite Hloop; reflexivity|].
  split; [rewrite Hloop; reflexivity|].
  split; [exact Hend|].
  split; [exists k; rewrite Htrace; reflexivity|].
  rewrite Htrace. repeat (split; [reflexivity|]).
  intros Hpos.
  destruct (runs_through_last_commit E new_messages (seq 0 i) _ _ _ _ Hruns)
    as (n & Hn & Hdisk).
  - destruct i; [lia|discriminate].
  - apply List.Forall_forall. intros j Hj. apply in_seq in Hj.
    apply Hchunk. lia.
  - exists n. split; [exact Hn|exact Hdisk].
Qed.

Lemma error_marker_aborts_remaining_chunks_witness :
  let E := sample_env service_fails_after_first in
  let first_chunk :=
    process_chunk E fifty_one_lines 0 (initial_loop_vars fresh_state [])
      empty_world in
  let w_end :=
    (process_new_messages E fresh_state fifty_one_lines (lit "chat")
       empty_world).2 in
  on_disk w_end = on_disk first_chunk.2
  /\ state_writes w_end = 1%nat
  /\ on_disk w_end = FileSnapshot (snapshot_of (state first_chunk.1.2)).
Proof.
  intros E first_chunk w_end.
  assert (Hfirst : first_chunk
                   = (Continue, first_chunk.1.2, first_chunk.2))
    by (vm_compute; reflexivity).
  pose proof (error_marker_aborts_remaining_chunks E fresh_state
                fifty_one_lines (lit "chat") empty_world 1
                first_chunk.1.2 first_chunk.2
                eq_refl ltac:(vm_compute; lia)
                (runs_through_cons E fifty_one_lines 0 [] _ _ _ _ _ _
                   Hfirst (runs_through_nil E fifty_one_lines _ _))
                ltac:(vm_compute; reflexivity))
    as (_ & _ & _ & _ & Hdisk & Hwrites & _ & _ & Hlast).
  split; [exact Hdisk|]. split; [exact Hwrites|].
  destruct (Hlast ltac:(lia)) as (n & Hn & Hsnap).
  apply Hsnap. reflexivity.
Defined.

(** ** A failed report synthesis *)

Lemma should_generate_report_reads_only
    (state_data_ref : state_data) (new_insights_were_added_this_run : bool)
    (w : world) :
  (should_generate_report state_data_ref
     new_insights_were_added_this_run w).2 = w.
Proof.
  unfold should_generate_report, bind.
  destruct (latest_report_filename state_data_ref); reflexivity.
Qed.

(** C8, as stated, fails: with a state file that cannot be opened for
    writing, the failed synthesis clears the report reference in memory
    and False is returned, yet the state file still names the old
    report. *)
Lemma cleared_reference_is_not_saved_when_the_write_fails :
  let E := faulty_env service_down (fun _ => OpenFailed) (fun _ => true) in
  let prepared :=
    report_input_of E (report_insights_of state_with_report)
      world_with_reported_state in
  let run :=
    generate_and_save_final_report_txt E state_with_report (lit "chat")
      true world_with_reported_state in
  is_error_marker
    (call_anthropic_api E (SYSTEM_PROMPT_FINAL_REPORT E)
       (final_report_prompt_of prepared.1) 4000 1 prepared.2).1 = true
  /\ run.1.1 = false
  /\ latest_report_filename run.1.2 = None
  /\ state_writes run.2 = 1%nat
  /\ on_disk run.2 = FileSnapshot (snapshot_of state_with_report)
  /\ latest_report_filename (load_state_data (on_disk run.2))
     = Some (lit "chat-Report-2020-09-14_080000.txt").
Proof. vm_compute. repeat split. Qed.

(** C8.  When a report is due, there are insights to report, and the
    final synthesis call returns an error-marker,
    [generate_and_save_final_report_txt] returns False, leaves
    [latest_report_filename] cleared in memory, leaves the insight
    collection and the cursor as they were, writes no report file, and
    attempts one write of the state file.  When that write succeeds the
    file holds the cleared state, which a later run reads back; when the
    file cannot be opened it stays as it was; when the dump fails the file
    is left unusable. *)
Theorem failed_report_clears_the_report_reference
    (E : env) (state_data_ref : state_data) (chat_folder_basename : str)
    (new_insights_were_added_this_run : bool) (w : world) :
  (should_generate_report state_data_ref
     new_insights_were_added_this_run w).1 = true ->
  report_insights_of state_data_ref <> [] ->
  let prepared :=
    report_input_of E (report_insights_of state_data_ref) w in
  is_error_marker
    (call_anthropic_api E (SYSTEM_PROMPT_FINAL_REPORT E)
       (final_report_prompt_of prepared.1) 4000 1 prepared.2).1 = true ->
  let run :=
    generate_and_save_final_report_txt E state_data_ref chat_folder_basename
      new_insights_were_added_this_run w in
  let state' := run.1.2 in
  run.1.1 = false
  /\ latest_report_filename state' = None
  /\ individual_useful_insights state'
     = individual_useful_insights state_data_ref
  /\ last_processed_message_id state'
     = last_processed_message_id state_data_ref
  /\ last_processed_message_timestamp_unix state'
     = last_processed_message_timestamp_unix state_data_ref
  /\ state_writes run.2 = S (state_writes w)
  /\ on_disk run.2
     = match state_write E (state_writes w) with
       | Written => FileSnapshot (snapshot_of state')
       | OpenFailed => on_disk w
       | DumpFailed => FileGarbled
       end
  /\ (state_write E (state_writes w) = Written ->
      load_state_data (on_disk run.2) = state'
      /\ latest_report_filename (load_state_data (on_disk run.2)) = None
      /\ individual_useful_insights (load_state_data (on_disk run.2))
         = individual_useful_insights state_data_ref
      /\ last_processed_message_id (load_state_data (on_disk run.2))
         = last_processed_message_id state_data_ref
      /\ last_processed_message_timestamp_unix
           (load_state_data (on_disk run.2))
         = last_processed_message_timestamp_unix state_data_ref)
  /\ report_files run.2 = report_files w.
Proof.
  intros Hdue Hinsights prepared Hfail run state'.
  assert (Hrun : exists w2,
            only_service_traffic w w2
            /\ run
               = (false,
                  (save_state_data E
                     (set_report state_data_ref None
                        (Some (utcnow_z E w2).1)) (utcnow_z E w2).2).1,
                  (save_state_data E
                     (set_report state_data_ref None
                        (Some (utcnow_z E w2).1)) (utcnow_z E w2).2).2)).
  { unfold run, generate_and_save_final_report_txt. unfold bind at 1.
    pose proof (should_generate_report_reads_only state_data_ref
                  new_insights_were_added_this_run w) as Hpure.
    destruct (should_generate_report state_data_ref
                new_insights_were_added_this_run w) as [due w0].
    cbn [fst snd] in Hdue, Hpure. subst due w0. cbn [negb].
    destruct (report_insights_of state_data_ref) as [|t ts] eqn:Hts;
      [congruence|].
    unfold bind at 1.
    pose proof (report_input_of_only_talks E (t :: ts) w) as Hprep.
    fold prepared in Hprep |- *.
    destruct prepared as [input w1]. cbn [fst snd] in Hfail, Hprep.
    unfold bind at 1.
    pose proof (call_anthropic_api_only_talks E
                  (SYSTEM_PROMPT_FINAL_REPORT E)
                  (final_report_prompt_of input) 4000 1 w1) as Hcall.
    destruct (call_anthropic_api E (SYSTEM_PROMPT_FINAL_REPORT E)
                (final_report_prompt_of input) 4000 1 w1) as [text w2].
    cbn [fst snd] in Hfail, Hcall. rewrite Hfail.
    exists w2. split; [exact (only_service_traffic_trans _ _ _ Hprep Hcall)|].
    unfold bind.
    destruct (utcnow_z E w2) as [generated w3]. cbn [fst snd].
    destruct (save_state_data E _ w3) as [saved w4]. reflexivity. }
  destruct Hrun as (w2 & Htalk & Hrun).
  apply only_service_traffic_files in Htalk
    as (Hd & Hs & _ & _ & Hfiles & _).
  subst state'. clearbody run. subst run. cbn [fst snd].
  assert (Hdisk :
            on_disk
              (save_state_data E
                 (set_report state_data_ref None (Some (utcnow_z E w2).1))
                 (utcnow_z E w2).2).2
            = match state_write E (state_writes w) with
              | Written =>
                  FileSnapshot
                    (snapshot_of
                       (save_state_data E
                          (set_report state_data_ref None
                             (Some (utcnow_z E w2).1)) (utcnow_z E w2).2).1)
              | OpenFailed => on_disk w
              | DumpFailed => FileGarbled
              end).
  { cbn [save_state_data bind ret put_state_file utcnow_z read_clock fst snd
         on_disk state_writes].
    rewrite Hs, Hd. reflexivity. }
  split; [reflexivity|]. split; [reflexivity|]. split; [reflexivity|].
  split; [reflexivity|]. split; [reflexivity|].
  split; [cbn; rewrite Hs; reflexivity|].
  split; [exact Hdisk|].
  split; [|cbn; exact Hfiles].
  intros Hok. rewrite Hdisk, Hok, load_of_snapshot_of. repeat split.
Qed.

Lemma failed_report_clears_the_report_reference_witness :
  let run :=
    generate_and_save_final_report_txt (sample_env service_down)
      state_with_report (lit "chat") true world_with_reported_state in
  run.1.1 = false
  /\ latest_report_filename run.1.2 = None
  /\ individual_useful_insights run.1.2
     = individual_useful_insights state_with_report
  /\ on_disk run.2 = FileSnapshot (snapshot_of run.1.2)
  /\ latest_report_filename (load_state_data (on_disk run.2)) = None.
Proof.
  pose proof (failed_report_clears_the_report_reference
                (sample_env service_down) state_with_report (lit "chat")
                true world_with_reported_state eq_refl ltac:(discriminate)
                eq_refl)
    as (Hflag & Hname & Hins & _ & _ & _ & Hdisk & Hload & _).
  split; [exact Hflag|]. split; [exact Hname|]. split; [exact Hins|].
  split; [exact Hdisk|].
  exact (proj1 (proj2 (Hload eq_refl))).
Defined.

(* ===================================================================== *)
(** * Further properties of the script *)
(* ===================================================================== *)

(** ** The state file *)

(** X1.  Round trip: when the write succeeds, loading the state file that
    [save_state_data] has written gives back the dictionary that
    [save_state_data] leaves in memory, cursor, insights, report reference
    and prompts included. *)
Theorem saved_state_loads_back (E : env) (data : state_data) (w : world) :
  state_write E (state_writes w) = Written ->
  load_state_data (on_disk (save_state_data E data w).2)
  = (save_state_data E data w).1.
Proof.
  intros Hok.
  destruct (save_state_data_effect E data w) as (Hdata & _ & Hdisk & _).
  rewrite Hdisk, Hok, Hdata. apply load_of_snapshot_of.
Qed.

Lemma saved_state_loads_back_witness :
  load_state_data
    (on_disk (save_state_data (sample_env service_down) state_with_report
                empty_world).2)
  = (save_state_data (sample_env service_down) state_with_report
       empty_world).1.
Proof.
  apply (saved_state_loads_back (sample_env service_down) state_with_report
           empty_world).
  reflexivity.
Defined.

(** X2.  When [json.dump] fails after the state file was opened for
    writing, [save_state_data] still returns normally, the file is left
    unusable, and the next [load_state_data] starts from the fresh state:
    the cursor and the insights saved before are gone. *)
Theorem failed_dump_makes_the_next_load_start_fresh
    (E : env) (data : state_data) (w : world) :
  state_write E (state_writes w) = DumpFailed ->
  (save_state_data E data w).1 = record_prompts E data
  /\ on_disk (save_state_data E data w).2 = FileGarbled
  /\ load_state_data (on_disk (save_state_data E data w).2) = fresh_state.
Proof.
  intros Hfail.
  destruct (save_state_data_effect E data w) as (Hdata & _ & Hdisk & _).
  rewrite Hdisk, Hfail. split; [exact Hdata|]. split; reflexivity.
Qed.

Lemma failed_dump_makes_the_next_load_start_fresh_witness :
  let E := faulty_env service_down (fun _ => DumpFailed) (fun _ => true) in
  (save_state_data E state_with_report world_with_state).1
  = record_prompts E state_with_report
  /\ on_disk (save_state_data E state_with_report world_with_state).2
     = FileGarbled
  /\ load_state_data
       (on_disk (save_state_data E state_with_report world_with_state).2)
     = fresh_state.
Proof.
  apply (failed_dump_makes_the_next_load_start_fresh
           (faulty_env service_down (fun _ => DumpFailed) (fun _ => true))).
  reflexivity.
Defined.

(** When the state file cannot be opened for writing,
    [save_state_data] returns normally and the file keeps what it held:
    the progress of this step is in memory only. *)
Lemma failed_open_keeps_the_old_state_file
    (E : env) (data : state_data) (w : world) :
  state_write E (state_writes w) = OpenFailed ->
  on_disk (save_state_data E data w).2 = on_disk w
  /\ load_state_data (on_disk (save_state_data E data w).2)
     = load_state_data (on_disk w).
Proof.
  intros Hfail.
  destruct (save_state_data_effect E data w) as (_ & _ & Hdisk & _).
  rewrite Hdisk, Hfail. split; reflexivity.
Qed.

Lemma failed_open_keeps_the_old_state_file_witness :
  let E := faulty_env service_down (fun _ => OpenFailed) (fun _ => true) in
  on_disk (save_state_data E state_with_report world_with_state).2
  = on_disk world_with_state
  /\ load_state_data
       (on_disk (save_state_data E state_with_report world_with_state).2)
     = load_state_data (on_disk world_with_state).
Proof.
  apply (failed_open_keeps_the_old_state_file
           (faulty_env service_down (fun _ => OpenFailed) (fun _ => true))).
  reflexivity.
Defined.

(** [save_state_data] records the three instruction texts in use
    under their keys, replacing what was recorded before, and leaves every
    other key of [system_prompts_used] as it was. *)
Lemma saved_state_records_the_prompts
    (E : env) (data : state_data) (w : world) :
  let prompts := system_prompts_used (save_state_data E data w).1 in
  prompts !! "chunk_insights"%string = Some (SYSTEM_PROMPT_CHUNK_INSIGHTS E)
  /\ prompts !! "compact_insights_collection"%string
     = Some (SYSTEM_PROMPT_COMPACT_INSIGHTS_COLLECTION E)
  /\ prompts !! "final_report"%string = Some (SYSTEM_PROMPT_FINAL_REPORT E)
  /\ (forall key : string,
        key <> "chunk_insights"%string ->
        key <> "compact_insights_collection"%string ->
        key <> "final_report"%string ->
        prompts !! key = system_prompts_used data !! key).
Proof.
  intros prompts. subst prompts.
  change (system_prompts_used (save_state_data E data w).1)
    with (system_prompts_used (record_prompts E data)).
  unfold record_prompts. cbn [system_prompts_used].
  repeat split.
  - rewrite lookup_insert_ne by discriminate.
    rewrite lookup_insert_ne by discriminate.
    apply lookup_insert_eq.
  - rewrite lookup_insert_ne by discriminate. apply lookup_insert_eq.
  - apply lookup_insert_eq.
  - intros key H1 H2 H3.
    rewrite !lookup_insert_ne by congruence. reflexivity.
Qed.

(** ** Discovery of the export file *)

Lemma str_eqb_eq (a b : str) : str_eqb a b = true <-> a = b.
Proof.
  revert b. induction a as [|x a IH]; intros [|y b]; simpl;
    try (split; congruence).
  unfold char_eqb. rewrite andb_true_iff, N.eqb_eq, IH.
  split; [intros [-> ->]; reflexivity|intros H; inversion H; auto].
Qed.

Lemma max_by_mtime_spec (best : json_file) (rest : list json_file) :
  In (max_by_mtime best rest) (best :: rest)
  /\ (forall g, In g (best :: rest) ->
      mtime g <= mtime (max_by_mtime best rest)).
Proof.
  revert best. induction rest as [|f rest IH]; intros best.
  - simpl. split; [auto|]. intros g [->|[]]. lia.
  - cbn [max_by_mtime].
    destruct (IH (if mtime best <? mtime f then f else best)) as [Hin Hmax].
    split.
    + destruct Hin as [Heq|Hin]; [|right; right; exact Hin].
      rewrite <- Heq. destruct (mtime best <? mtime f); simpl; auto.
    + intros g Hg.
      assert (Hstep : mtime best <= mtime (if mtime best <? mtime f
                                           then f else best)
                      /\ mtime f <= mtime (if mtime best <? mtime f
                                           then f else best)).
      { destruct (Z.ltb_spec (mtime best) (mtime f)); lia. }
      pose proof (Hmax _ (or_introl eq_refl)) as Hcur.
      destruct Hg as [->|[->|Hg]]; [lia|lia|].
      apply Hmax. right. exact Hg.
Qed.

(** X3.  [find_latest_export_file] returns nothing exactly when every
    matched file is the state file; otherwise it returns one of the
    matched files, never the state file, and no other matched file than
    the state file is more recent than it. *)
Theorem latest_export_is_newest_and_not_the_state_file
    (json_files : list json_file) (state_file_name : str) :
  (find_latest_export_file json_files state_file_name = None
   <-> forall f, In f json_files -> basename f = state_file_name)
  /\ (forall latest,
        find_latest_export_file json_files state_file_name = Some latest ->
        In latest json_files
        /\ basename latest <> state_file_name
        /\ (forall g, In g json_files -> basename g <> state_file_name ->
            mtime g <= mtime latest)).
Proof.
  unfold find_latest_export_file.
  set (keep := fun f => negb (str_eqb (basename f) state_file_name)).
  assert (Hkeep : forall f, keep f = true <-> basename f <> state_file_name).
  { intros f. unfold keep. rewrite negb_true_iff, <- str_eqb_eq.
    destruct (str_eqb (basename f) state_file_name); split; congruence. }
  assert (Hfilter : forall f, In f (List.filter keep json_files)
                              <-> In f json_files
                                  /\ basename f <> state_file_name).
  { intros f. rewrite filter_In, Hkeep. reflexivity. }
  destruct (List.filter keep json_files) as [|f rest] eqn:Hfound.
  - split.
    + split; [|reflexivity]. intros _ f Hf.
      destruct (str_eqb (basename f) state_file_name) eqn:Heq;
        [apply str_eqb_eq; exact Heq|].
      exfalso. apply (proj2 (Hfilter f)). split; [exact Hf|].
      intros H. apply str_eqb_eq in H. congruence.
    + intros latest H. discriminate.
  - split.
    + split; [discriminate|]. intros Hall. exfalso.
      destruct (proj1 (Hfilter f) (or_introl eq_refl)) as [Hf Hne].
      apply Hne, Hall, Hf.
    + intros latest H. apply Some_eq in H. subst latest.
      destruct (max_by_mtime_spec f rest) as [Hin Hmax].
      apply Hfilter in Hin as [Hin Hne].
      split; [exact Hin|]. split; [exact Hne|].
      intros g Hg Hgne. apply Hmax. apply Hfilter. auto.
Qed.

(** The newer of the two exports of the sample folder is chosen, although
    the state file is newer still. *)
Example latest_export_of_the_sample_folder :
  find_latest_export_file folder_listing (lit "chat-state.json")
  = Some {| basename := lit "result (1).json"; mtime := 200 |}.
Proof. reflexivity. Qed.

(** ** Parsing and rendering of messages *)

Section Rendering.

Lemma lstrip_head (s : str) (c : char) (r : str) :
  lstrip s = c :: r -> isspace c = false.
Proof.
  induction s as [|x s IH]; simpl; [discriminate|].
  destruct (isspace x) eqn:Hx; [exact IH|].
  intros H. inversion H; subst. exact Hx.
Qed.

Lemma lstrip_nil_iff (s : str) :
  lstrip s = [] <-> forallb isspace s = true.
Proof.
  induction s as [|x s IH]; simpl; [tauto|].
  destruct (isspace x); simpl; [exact IH|].
  split; discriminate.
Qed.

Lemma forallb_rev {A} (f : A -> bool) (l : list A) :
  forallb f (rev l) = forallb f l.
Proof.
  induction l as [|x l IH]; simpl; [reflexivity|].
  rewrite forallb_app, IH. simpl. rewrite andb_true_r. apply andb_comm.
Qed.

Lemma strip_nil_iff (s : str) :
  strip s = [] <-> forallb isspace s = true.
Proof.
  unfold strip, rstrip. rewrite <- lstrip_nil_iff. split.
  - intros H. apply (f_equal (@rev char)) in H.
    rewrite rev_involutive in H. simpl in H.
    apply lstrip_nil_iff in H. rewrite forallb_rev in H.
    destruct (lstrip s) as [|c r] eqn:Hs; [reflexivity|].
    apply lstrip_head in Hs. simpl in H. rewrite Hs in H. discriminate.
  - intros ->. reflexivity.
Qed.

Lemma strip_head (s : str) (c : char) (r : str) :
  strip s = c :: r -> isspace c = false.
Proof.
  unfold strip. intros H.
  destruct (rstrip_is_prefix (lstrip s)) as [v Hv].
  rewrite H in Hv. simpl in Hv. exact (lstrip_head s c _ Hv).
Qed.

Lemma strip_last (s : str) (d : char) :
  last (strip s) = Some d -> isspace d = false.
Proof.
  unfold strip, rstrip.
  destruct (lstrip (rev (lstrip s))) as [|c x] eqn:Hx; [discriminate|].
  simpl. rewrite last_snoc. intros H. apply Some_eq in H. subst d.
  exact (lstrip_head _ _ _ Hx).
Qed.

End Rendering.

(** X4.  [parse_telegram_message_text] returns the text of the field, be
    it a string or a list of segments, without white space at either end;
    the result is empty exactly when that text holds white space only (as
    it does for a value that is neither a string nor a list). *)
Theorem parsed_text_is_stripped (text_data : text_data) :
  let parsed := parse_telegram_message_text text_data in
  parsed = strip (raw_text_of text_data)
  /\ (forall c rest, parsed = c :: rest -> isspace c = false)
  /\ (forall d, last parsed = Some d -> isspace d = false)
  /\ (parsed = [] <-> forallb isspace (raw_text_of text_data) = true).
Proof.
  intros parsed.
  assert (Hparsed : parsed = strip (raw_text_of text_data))
    by (destruct text_data; reflexivity).
  rewrite Hparsed. split; [reflexivity|]. split; [|split].
  - intros c rest. apply strip_head.
  - intros d. apply strip_last.
  - apply strip_nil_iff.
Qed.

(** A caption split into segments, with white space around it. *)
Example parsed_text_of_segments :
  parse_telegram_message_text
    (TextList [SegPlain (lit "  see "); SegEntity (lit "https://t.me");
               SegOther; SegPlain [10%N]])
  = lit "see https://t.me".
Proof. reflexivity. Qed.

(** X5.  The snippet quoted from the message replied to is the original
    text when that has at most 75 characters, and otherwise its first 75
    characters followed by three dots: it never has more than 78
    characters. *)
Theorem reply_snippet_is_bounded (original_text : str) :
  (length (reply_snippet_of original_text) <= 78)%nat
  /\ ((length original_text <= 75)%nat ->
      reply_snippet_of original_text = original_text)
  /\ ((75 < length original_text)%nat ->
      reply_snippet_of original_text = take 75 original_text ++ lit "..."
      /\ length (reply_snippet_of original_text) = 78%nat).
Proof.
  unfold reply_snippet_of.
  destruct (Nat.ltb_spec 75 (length original_text)) as [Hlong|Hshort].
  - rewrite length_app, length_take.
    change (length (lit "...")) with 3%nat.
    split; [lia|]. split; [lia|]. intros _. split; [reflexivity|lia].
  - split; [lia|]. split; [reflexivity|lia].
Qed.

Lemma llm_text_prefix_of_starts_with_From (lookup : gmap Z message)
    (m : message) :
  exists rest, llm_text_prefix_of lookup m = lit "From " ++ rest.
Proof.
  unfold llm_text_prefix_of.
  destruct (m_reply_to_message_id m) as [reply_to_id|]; [|eexists; reflexivity].
  destruct (reply_to_id =? 0); [eexists; reflexivity|].
  destruct (lookup !! reply_to_id) as [original_msg|];
    [|eexists; reflexivity].
  destruct (nonempty (original_text_of original_msg));
    eexists; reflexivity.
Qed.

(** What [final_text_for_llm_of] returns when it returns a line. *)
Lemma final_text_for_llm_of_From (rest : str) (m : message) (text : str) :
  final_text_for_llm_of (lit "From " ++ rest) m = Some text ->
  text = (lit "From " ++ rest) ++ lit " " ++ content_of m.
Proof.
  unfold final_text_for_llm_of, content_of. intros H.
  destruct (nonempty (message_text m)).
  { apply Some_eq in H. subst text. reflexivity. }
  destruct (flag (m_file m)).
  { apply Some_eq in H. subst text. reflexivity. }
  destruct (flag (m_photo m)).
  { apply Some_eq in H. subst text. reflexivity. }
  destruct (flag (m_sticker m)); [|discriminate].
  apply Some_eq in H. subst text.
  exact (strip_line _
           (lit " [Sent a sticker "
            ++ fmt (get_default (m_sticker_emoji m) []))
           70%N 93%N _ eq_refl eq_refl eq_refl).
Qed.

(** X6.  Every entry returned by [load_and_format_new_messages] comes
    from a well-formed message of the file, carries that message's id and
    timestamp, and holds a line that starts with "From " and ends with the
    content of the message. *)
Theorem emitted_lines_start_with_From
    (messages : option (list message))
    (last_id_processed last_timestamp_unix_processed : Z) (f : formatted) :
  In f (load_and_format_new_messages (ExportData messages)
          last_id_processed last_timestamp_unix_processed).1.1 ->
  exists m v middle,
    In m (default [] messages)
    /\ validate m = Some v
    /\ f_id f = msg_id v
    /\ timestamp_unix f = msg_timestamp_unix v
    /\ text_for_llm f = lit "From " ++ middle ++ lit " " ++ content_of m
    /\ startswith (text_for_llm f) (lit "From ") = true.
Proof.
  intros Hin.
  apply In_new_formatted_messages in Hin as (m & v & Hm & Hv & Hf).
  assert (Hdata : msg_data v = m).
  { unfold validate in Hv.
    destruct (m_id m), (m_date_unixtime m); inversion Hv; reflexivity. }
  destruct (format_message_keeps_key _ _ _ _ _ Hf) as [Hid Hts].
  unfold format_message in Hf. rewrite Hdata in Hf.
  destruct (already_processed _ _ v); [discriminate|].
  destruct (negb (is_message m)); [discriminate|].
  destruct (llm_text_prefix_of_starts_with_From
              (scan_messages (default [] messages) ∅ []).1 m)
    as [rest Hrest].
  rewrite Hrest in Hf.
  destruct (final_text_for_llm_of (lit "From " ++ rest) m) as [text|] eqn:Ht;
    [|discriminate].
  apply final_text_for_llm_of_From in Ht.
  apply Some_eq in Hf. subst f. cbn [text_for_llm f_id timestamp_unix] in *.
  exists m, v, rest. repeat (split; [assumption|]).
  rewrite Ht. reflexivity.
Qed.

Lemma emitted_lines_start_with_From_witness :
  exists m v middle,
    In m [photo_of_ann; reply_of_bob]
    /\ validate m = Some v
    /\ 11 = msg_id v
    /\ 1700000060 = msg_timestamp_unix v
    /\ lit "From Bob (replying to 'Ann: [Photo]'): nice one"
       = lit "From " ++ middle ++ lit " " ++ content_of m
    /\ startswith (lit "From Bob (replying to 'Ann: [Photo]'): nice one")
         (lit "From ") = true.
Proof.
  apply (emitted_lines_start_with_From
           (Some [photo_of_ann; reply_of_bob]) 0 0
           {| f_id := 11;
              text_for_llm :=
                lit "From Bob (replying to 'Ann: [Photo]'): nice one";
              timestamp_unix := 1700000060; timestamp_utc := PStr [] |}).
  simpl. right. left. reflexivity.
Defined.

(** An id that no well-formed message of the file carries is not in the
    index. *)
Lemma scan_messages_lookup_None (all_messages_in_file : list message)
    (lookup : gmap Z message) (valid : list valid_message) (i : Z) :
  (forall m v, In m all_messages_in_file -> validate m = Some v ->
               is_message m = true -> msg_id v <> i) ->
  lookup !! i = None ->
  (scan_messages all_messages_in_file lookup valid).1 !! i = None.
Proof.
  revert lookup valid.
  induction all_messages_in_file as [|x rest IH]; intros lookup valid Hid H.
  - exact H.
  - simpl. destruct (validate x) as [vx|] eqn:Hx.
    + apply IH; [intros m v Hin; apply Hid; right; exact Hin|].
      destruct (is_message x) eqn:Hmsg; [|exact H].
      rewrite lookup_insert_ne; [exact H|].
      exact (Hid x vx (or_introl eq_refl) Hx Hmsg).
    + apply IH; [intros m v Hin; apply Hid; right; exact Hin|exact H].
Qed.

(** X7.  A record that replies to an id that no message of the export
    carries (a message that was deleted, or that only an earlier export
    held) is rendered as a plain line, "From <sender>: <content>", without
    a quotation. *)
Theorem reply_to_absent_message_is_rendered_plain
    (messages : option (list message))
    (last_id_processed last_timestamp_unix_processed : Z)
    (reply : message) (v : valid_message) (reply_to_id : Z) (f : formatted) :
  validate reply = Some v ->
  m_reply_to_message_id reply = Some reply_to_id ->
  (forall m' v', In m' (default [] messages) -> validate m' = Some v' ->
                 is_message m' = true -> msg_id v' <> reply_to_id) ->
  format_message (scan_messages (default [] messages) ∅ []).1
    last_id_processed last_timestamp_unix_processed v = Some f ->
  text_for_llm f
  = (lit "From " ++ sender_of reply (lit "Unknown Sender") ++ lit ":")
    ++ lit " " ++ content_of reply.
Proof.
  intros Hv Hreply Habsent Hf.
  assert (Hdata : msg_data v = reply).
  { unfold validate in Hv.
    destruct (m_id reply), (m_date_unixtime reply); inversion Hv;
      reflexivity. }
  assert (Hlookup : (scan_messages (default [] messages) ∅ []).1
                    !! reply_to_id = None).
  { apply scan_messages_lookup_None; [exact Habsent|apply lookup_empty]. }
  assert (Hprefix : llm_text_prefix_of
                      (scan_messages (default [] messages) ∅ []).1 reply
                    = lit "From "
                      ++ (sender_of reply (lit "Unknown Sender") ++ lit ":")).
  { unfold llm_text_prefix_of. rewrite Hreply, Hlookup.
    destruct (reply_to_id =? 0); reflexivity. }
  unfold format_message in Hf. rewrite Hdata, Hprefix in Hf.
  destruct (already_processed _ _ v); [discriminate|].
  destruct (negb (is_message reply)); [discriminate|].
  destruct (final_text_for_llm_of _ reply) as [text|] eqn:Ht; [|discriminate].
  apply final_text_for_llm_of_From in Ht.
  apply Some_eq in Hf. subst f. cbn [text_for_llm]. exact Ht.
Qed.

Lemma reply_to_absent_message_is_rendered_plain_witness :
  text_for_llm
    {| f_id := 11; text_for_llm := lit "From Bob: nice one";
       timestamp_unix := 1700000060; timestamp_utc := PStr [] |}
  = (lit "From " ++ sender_of reply_of_bob (lit "Unknown Sender") ++ lit ":")
    ++ lit " " ++ content_of reply_of_bob.
Proof.
  apply (reply_to_absent_message_is_rendered_plain
           (Some [reply_of_bob]) 0 0 reply_of_bob
           {| msg_id := 11; msg_timestamp_unix := 1700000060;
              msg_data := reply_of_bob |} 10).
  - reflexivity.
  - reflexivity.
  - intros m' v' Hin Hv' _. simpl in Hin. destruct Hin as [<-|[]].
    vm_compute in Hv'. apply Some_eq in Hv'. subst v'.
    vm_compute. discriminate.
  - reflexivity.
Defined.

(** ** Order of the new messages *)

Section Order.

Lemma key_leq_spec (a b : valid_message) :
  key_leq a b
  <-> msg_timestamp_unix a < msg_timestamp_unix b
      \/ (msg_timestamp_unix a = msg_timestamp_unix b
          /\ msg_id a <= msg_id b).
Proof.
  unfold key_leq, key_le.
  rewrite orb_true_iff, andb_true_iff, Z.ltb_lt, Z.eqb_eq, Z.leb_le.
  reflexivity.
Qed.

Lemma key_leq_total (a b : valid_message) :
  key_le a b = false -> key_leq b a.
Proof.
  intros H. apply key_leq_spec.
  assert (Hn : ~ key_leq a b) by (unfold key_leq; congruence).
  rewrite key_leq_spec in Hn. lia.
Qed.

Lemma key_leq_trans (a b c : valid_message) :
  key_leq a b -> key_leq b c -> key_leq a c.
Proof. rewrite !key_leq_spec. lia. Qed.

Lemma insert_by_key_sorted (x : valid_message) (l : list valid_message) :
  StronglySorted key_leq l -> StronglySorted key_leq (insert_by_key x l).
Proof.
  induction 1 as [|y l Hsorted IH Hy]; simpl.
  - repeat constructor.
  - destruct (key_le x y) eqn:Hxy.
    + constructor; [constructor; assumption|].
      constructor; [exact Hxy|].
      rewrite List.Forall_forall in *. intros z Hz.
      exact (key_leq_trans _ _ _ Hxy (Hy z Hz)).
    + constructor; [exact IH|].
      rewrite List.Forall_forall in *. intros z Hz.
      apply In_insert_by_key in Hz as [->|Hz];
        [exact (key_leq_total _ _ Hxy)|exact (Hy z Hz)].
Qed.

Lemma sort_by_key_sorted (l : list valid_message) :
  StronglySorted key_leq (sort_by_key l).
Proof.
  induction l as [|x l IH]; simpl; [constructor|].
  apply insert_by_key_sorted, IH.
Qed.

Lemma omap_sorted {A B} (R : A -> A -> Prop) (R' : B -> B -> Prop)
    (g : A -> option B) (l : list A) :
  (forall a b a' b', g a = Some a' -> g b = Some b' -> R a b -> R' a' b') ->
  StronglySorted R l -> StronglySorted R' (omap g l).
Proof.
  intros Hmono. induction 1 as [|x l Hsorted IH Hx]; simpl; [constructor|].
  destruct (g x) as [x'|] eqn:Hgx; [|exact IH].
  constructor; [exact IH|].
  rewrite List.Forall_forall in *. intros y' Hy'.
  apply In_omap in Hy' as (y & Hy & Hgy).
  exact (Hmono _ _ _ _ Hgx Hgy (Hx y Hy)).
Qed.

Lemma sorted_before_last {A} (R : A -> A -> Prop) (pre : list A) (l x : A) :
  StronglySorted R (pre ++ [l]) -> In x pre -> R x l.
Proof.
  induction pre as [|y pre IH]; intros Hsorted Hin; [contradiction|].
  simpl in Hsorted. apply StronglySorted_inv in Hsorted as [Hrest Hy].
  destruct Hin as [->|Hin]; [|exact (IH Hrest Hin)].
  rewrite List.Forall_forall in Hy. apply Hy.
  apply in_or_app. right. left. reflexivity.
Qed.

End Order.

(** X8.  The entries returned by [load_and_format_new_messages] are in
    non-decreasing order of (timestamp, id), whatever the order of the
    messages in the file. *)
Theorem new_messages_are_sorted (export : export_file)
    (last_id_processed last_timestamp_unix_processed : Z) :
  StronglySorted entry_le
    (load_and_format_new_messages export last_id_processed
       last_timestamp_unix_processed).1.1.
Proof.
  unfold load_and_format_new_messages.
  destruct export as [|messages]; [constructor|].
  destruct (scan_messages (default [] messages) ∅ []) as [lookup valid].
  pose proof (sort_by_key_sorted valid) as Hsorted.
  destruct (sort_by_key valid) as [|first others]; [constructor|].
  cbn [fst].
  apply (omap_sorted key_leq entry_le); [|exact Hsorted].
  intros a b a' b' Ha Hb Hab.
  destruct (format_message_keeps_key _ _ _ _ _ Ha) as [Hida Htsa].
  destruct (format_message_keeps_key _ _ _ _ _ Hb) as [Hidb Htsb].
  apply key_leq_spec in Hab. unfold entry_le. lia.
Qed.

(** Two messages stored in reverse order come out in order. *)
Example new_messages_of_a_shuffled_file :
  List.map f_id
    (load_and_format_new_messages
       (ExportData (Some [reply_of_bob; photo_of_ann])) 0 0).1.1
  = [10; 11].
Proof. reflexivity. Qed.

Lemma format_message_under_later_cursor (lookup : gmap Z message)
    (id0 ts0 id1 ts1 : Z) (v : valid_message) (f : formatted) :
  format_message lookup id1 ts1 v = Some f ->
  after_cursor id0 ts0 (msg_timestamp_unix v) (msg_id v) ->
  format_message lookup id0 ts0 v = Some f.
Proof.
  intros Hf Hafter. apply already_processed_false in Hafter.
  unfold format_message in *. rewrite Hafter.
  destruct (already_processed id1 ts1 v); [discriminate|exact Hf].
Qed.

(** X9.  A second pass emits nothing: when the cursor is moved to the
    (timestamp, id) of the last entry that [load_and_format_new_messages]
    returned, the same export yields no new message. *)
Theorem second_pass_over_the_same_export_is_empty
    (messages : option (list message))
    (last_id_processed last_timestamp_unix_processed : Z)
    (last_emitted : formatted) :
  last (load_and_format_new_messages (ExportData messages)
          last_id_processed last_timestamp_unix_processed).1.1
  = Some last_emitted ->
  (load_and_format_new_messages (ExportData messages)
     (f_id last_emitted) (timestamp_unix last_emitted)).1.1 = [].
Proof.
  intros Hlast.
  pose proof (new_messages_are_sorted (ExportData messages)
                last_id_processed last_timestamp_unix_processed) as Hsorted.
  set (first_pass := (load_and_format_new_messages (ExportData messages)
                        last_id_processed
                        last_timestamp_unix_processed).1.1) in *.
  assert (Hsplit : exists pre, first_pass = pre ++ [last_emitted]).
  { destruct first_pass as [|x l] using rev_ind; [discriminate|].
    rewrite last_snoc in Hlast. apply Some_eq in Hlast. subst x.
    exists l. reflexivity. }
  destruct Hsplit as [pre Hpre].
  assert (Hmax : forall f, In f first_pass -> entry_le f last_emitted).
  { intros f Hf. rewrite Hpre in Hf, Hsorted.
    apply in_app_or in Hf as [Hf|[<-|[]]].
    - exact (sorted_before_last _ _ _ _ Hsorted Hf).
    - unfold entry_le. lia. }
  assert (Hlast_in : In last_emitted first_pass)
    by (rewrite Hpre; apply in_or_app; right; left; reflexivity).
  apply In_new_formatted_messages in Hlast_in as (ml & vl & _ & _ & Hfl).
  assert (Hafter_l : after_cursor last_id_processed
                       last_timestamp_unix_processed
                       (timestamp_unix last_emitted) (f_id last_emitted)).
  { destruct (format_message_keeps_key _ _ _ _ _ Hfl) as [-> ->].
    assert (Hsome : is_Some (format_message
                               (scan_messages (default [] messages) ∅ []).1
                               last_id_processed
                               last_timestamp_unix_processed vl)) by eauto.
    apply format_message_is_Some in Hsome. tauto. }
  destruct (load_and_format_new_messages (ExportData messages)
              (f_id last_emitted) (timestamp_unix last_emitted)).1.1
    as [|f rest] eqn:Hsecond; [reflexivity|].
  exfalso.
  assert (Hf : In f (load_and_format_new_messages (ExportData messages)
                       (f_id last_emitted)
                       (timestamp_unix last_emitted)).1.1)
    by (rewrite Hsecond; left; reflexivity).
  apply In_new_formatted_messages in Hf as (m & v & Hm & Hv & Hfv).
  assert (Hafter_v : after_cursor (f_id last_emitted)
                       (timestamp_unix last_emitted)
                       (msg_timestamp_unix v) (msg_id v)).
  { assert (Hsome : is_Some (format_message
                               (scan_messages (default [] messages) ∅ []).1
                               (f_id last_emitted)
                               (timestamp_unix last_emitted) v)) by eauto.
    apply format_message_is_Some in Hsome. tauto. }
  assert (Hafter0 : after_cursor last_id_processed
                      last_timestamp_unix_processed
                      (msg_timestamp_unix v) (msg_id v)).
  { unfold after_cursor in *. lia. }
  pose proof (format_message_under_later_cursor _ _ _ _ _ _ _ Hfv Hafter0)
    as Hfirst.
  assert (Hin : In f first_pass).
  { apply In_new_formatted_messages. exists m, v. auto. }
  specialize (Hmax f Hin).
  destruct (format_message_keeps_key _ _ _ _ _ Hfirst) as [Hid Hts].
  unfold entry_le, after_cursor in *. lia.
Qed.

Lemma second_pass_over_the_same_export_is_empty_witness :
  (load_and_format_new_messages
     (ExportData (Some [reply_of_bob; photo_of_ann])) 11 1700000060).1.1
  = [].
Proof.
  apply (second_pass_over_the_same_export_is_empty
           (Some [reply_of_bob; photo_of_ann]) 0 0
           {| f_id := 11;
              text_for_llm :=
                lit "From Bob (replying to 'Ann: [Photo]'): nice one";
              timestamp_unix := 1700000060; timestamp_utc := PStr [] |}).
  reflexivity.
Defined.

Lemma sorted_last_is_greatest {A} (R : A -> A -> Prop) (l : list A) (x : A) :
  (forall a, R a a) ->
  StronglySorted R l -> last l = Some x -> forall y, In y l -> R y x.
Proof.
  intros Hrefl Hsorted Hlast y Hy.
  destruct l as [|z pre] using rev_ind; [discriminate|].
  rewrite last_snoc in Hlast. apply Some_eq in Hlast. subst z.
  apply in_app_or in Hy as [Hy|[<-|[]]].
  - exact (sorted_before_last _ _ _ _ Hsorted Hy).
  - apply Hrefl.
Qed.

Lemma key_leq_refl (a : valid_message) : key_leq a a.
Proof. apply key_leq_spec. lia. Qed.

(** X10.  When the export has no well-formed message (no 'messages' key,
    an empty list, or only messages whose id or timestamp is no integer),
    [load_and_format_new_messages] returns ([], 0, 0).  Otherwise the two
    ids it returns are those of the well-formed messages with the least
    and with the greatest (timestamp, id), whether or not they are new. *)
Theorem first_and_last_id_in_file
    (messages : option (list message))
    (last_id_processed last_timestamp_unix_processed : Z) :
  let valid := omap validate (default [] messages) in
  let result :=
    load_and_format_new_messages (ExportData messages) last_id_processed
      last_timestamp_unix_processed in
  (valid = [] -> result = ([], 0, 0))
  /\ (valid <> [] ->
      exists earliest latest,
        In earliest valid /\ In latest valid
        /\ result.1.2 = msg_id earliest
        /\ result.2 = msg_id latest
        /\ (forall v, In v valid -> key_leq earliest v /\ key_leq v latest)).
Proof.
  intros valid result. subst result. unfold load_and_format_new_messages.
  pose proof (scan_messages_valid (default [] messages) ∅ []) as Hvalid.
  destruct (scan_messages (default [] messages) ∅ []) as [lookup valid'].
  cbn [snd app] in Hvalid. fold valid in Hvalid. subst valid'.
  pose proof (sort_by_key_sorted valid) as Hsorted.
  pose proof (fun y => In_sort_by_key y valid) as Hperm.
  destruct (sort_by_key valid) as [|first others] eqn:Hsort.
  - split; [reflexivity|]. intros Hne. exfalso.
    destruct valid as [|v rest]; [congruence|].
    apply (proj2 (Hperm v)). left. reflexivity.
  - split.
    + intros Hnil. exfalso. rewrite Hnil in Hperm.
      apply (proj1 (Hperm first)). left. reflexivity.
    + intros _. exists first, (List.last others first).
      assert (Hlast : last (first :: others)
                      = Some (List.last others first)) by apply last_cons.
      split; [apply Hperm; left; reflexivity|].
      split.
      { apply Hperm. destruct others as [|o others'] using rev_ind;
          [left; reflexivity|].
        rewrite List.last_last. right. apply in_or_app. right. left.
        reflexivity. }
      split; [reflexivity|]. split; [reflexivity|].
      intros v Hv. apply Hperm in Hv. split.
      * apply StronglySorted_inv in Hsorted as [_ Hfirst].
        destruct Hv as [<-|Hv]; [apply key_leq_refl|].
        rewrite List.Forall_forall in Hfirst. exact (Hfirst v Hv).
      * exact (sorted_last_is_greatest key_leq _ _ key_leq_refl Hsorted
                 Hlast v Hv).
Qed.

(** An export without the 'messages' key, and one whose only message has
    no integer id. *)
Example exports_without_well_formed_message :
  load_and_format_new_messages (ExportData None) 3 1600000000 = ([], 0, 0)
  /\ load_and_format_new_messages
       (ExportData (Some [{| m_id := None; m_date_unixtime := Some 5;
                             m_type := Some (PStr (lit "message"));
                             m_text := Some (TextStr (lit "hi"));
                             m_from := None; m_reply_to_message_id := None;
                             m_file := None; m_file_name := None;
                             m_photo := None; m_sticker := None;
                             m_sticker_emoji := None; m_date := None |}]))
       0 0
     = ([], 0, 0).
Proof. split; reflexivity. Qed.

(** ** More on the summarization client adapter *)

(** X11.  [call_anthropic_api] always returns a string: either the
    stripped text of the response that ended the call, or a string that
    starts with one of the two reserved error prefixes. *)
Theorem adapter_returns_text_or_error_marker
    (E : env) (system_prompt user : str) (max_response_tokens : Z)
    (w : world) :
  let run := call_anthropic_api E system_prompt user max_response_tokens
               1 w in
  (exists n t,
      messages_create E n
        (request_of system_prompt user max_response_tokens) = ApiText t
      /\ run.1 = strip t)
  \/ is_error_marker run.1 = true.
Proof.
  intros run.
  destruct (call_anthropic_api_from_trace E
              (Z.to_nat (MAX_API_RETRIES - 1)) system_prompt user
              max_response_tokens 1 w) as (k & _ & _ & Hr & _).
  change (call_anthropic_api_from E (Z.to_nat (MAX_API_RETRIES - 1))
            system_prompt user max_response_tokens 1 w) with run in Hr.
  rewrite Hr.
  destruct (messages_create E (length (requests w) + k)
              (request_of system_prompt user max_response_tokens))
    as [t|code message as_str|as_str] eqn:Hout.
  - left. exists (length (requests w) + k)%nat, t. split; [exact Hout|].
    reflexivity.
  - right. apply error_prefix_is_error_marker.
  - right. reflexivity.
Qed.

(** X12.  An attempt that does not fail retriably ends the call at once:
    a response, a status outside 429, 529 and 5xx (such as 400 or 401), or
    any other exception on the first attempt costs one request and no
    sleep, and decides the result. *)
Theorem terminal_outcome_is_not_retried
    (E : env) (system_prompt user : str) (max_response_tokens : Z)
    (w : world) :
  let req := request_of system_prompt user max_response_tokens in
  let outcome := messages_create E (length (requests w)) req in
  fails_retriably outcome = false ->
  call_anthropic_api E system_prompt user max_response_tokens 1 w
  = (result_of_outcome outcome, after_attempts w [req] []).
Proof.
  intros req outcome Hterminal.
  unfold call_anthropic_api. rewrite call_anthropic_api_from_step.
  fold req. fold outcome. rewrite Hterminal. reflexivity.
Qed.

Lemma terminal_outcome_is_not_retried_witness :
  call_anthropic_api (sample_env service_down) (lit "extract") (lit "hello")
    1500 1 empty_world
  = (lit "ANTHROPIC_API_ERROR (Code 401): unauthorized",
     after_attempts empty_world
       [request_of (lit "extract") (lit "hello") 1500] []).
Proof.
  apply (terminal_outcome_is_not_retried (sample_env service_down)
           (lit "extract") (lit "hello") 1500 empty_world).
  reflexivity.
Defined.

(** X13.  One call of the adapter sleeps at most four times and, with the
    delays of 5, 10, 20 and 40 seconds and a jitter of at most a fifth,
    never more than 90 seconds in all. *)
Theorem adapter_sleeps_at_most_90_seconds
    (E : env) (system_prompt user : str) (max_response_tokens : Z)
    (w : world) :
  let run := call_anthropic_api E system_prompt user max_response_tokens
               1 w in
  exists delays,
    sleeps run.2 = sleeps w ++ delays
    /\ (length delays <= 4)%nat
    /\ (total_sleep delays <= 90)%Q.
Proof.
  intros run.
  destruct (call_anthropic_api_from_trace E
              (Z.to_nat (MAX_API_RETRIES - 1)) system_prompt user
              max_response_tokens 1 w) as (k & Hk & Hw & _).
  change (call_anthropic_api_from E (Z.to_nat (MAX_API_RETRIES - 1))
            system_prompt user max_response_tokens 1 w) with run in Hw.
  exists (delays_of E 1 (length (requests w)) k).
  split; [rewrite Hw; reflexivity|].
  assert (Hk4 : (k <= 4)%nat) by (unfold MAX_API_RETRIES in Hk; lia).
  split; [unfold delays_of; rewrite length_map, length_seq; exact Hk4|].
  set (n := length (requests w)).
  pose proof (backoff_seconds_bounds (1 + Z.of_nat 0) (urandom E (n + 0))
                ltac:(lia)) as [L1 H1].
  pose proof (backoff_seconds_bounds (1 + Z.of_nat 1) (urandom E (n + 1))
                ltac:(lia)) as [L2 H2].
  pose proof (backoff_seconds_bounds (1 + Z.of_nat 2) (urandom E (n + 2))
                ltac:(lia)) as [L3 H3].
  pose proof (backoff_seconds_bounds (1 + Z.of_nat 3) (urandom E (n + 3))
                ltac:(lia)) as [L4 H4].
  change (inject_Z (nominal_backoff (1 + Z.of_nat 0))) with 5%Q in H1, L1.
  change (inject_Z (nominal_backoff (1 + Z.of_nat 1))) with 10%Q in H2, L2.
  change (inject_Z (nominal_backoff (1 + Z.of_nat 2))) with 20%Q in H3, L3.
  change (inject_Z (nominal_backoff (1 + Z.of_nat 3))) with 40%Q in H4, L4.
  unfold delays_of, total_sleep.
  destruct k as [|[|[|[|[|k]]]]]; [| | | | |lia];
    cbn [seq List.map fold_right]; lra.
Qed.

(** ** More on the compactor *)

(** X14.  When the texts exceed the budget and the compaction call
    returns a text that is no error-marker, [compact_insights_collection]
    returns that text as it is, after this one call: the size of the
    summary is not checked against the budget. *)
Theorem compaction_summary_is_returned_unchecked
    (E : env) (insights_texts_list : list str)
    (max_tokens_for_context : Z) (prompt_for_compaction : str) (w : world) :
  insights_texts_list <> [] ->
  max_tokens_for_context < count_tokens E (join SEP insights_texts_list) ->
  let call :=
    call_anthropic_api E prompt_for_compaction
      (compaction_user_prompt_of E (join SEP insights_texts_list)
         prompt_for_compaction)
      3000 1 w in
  is_error_marker call.1 = false ->
  compact_insights_collection E insights_texts_list max_tokens_for_context
    prompt_for_compaction w
  = call.
Proof.
  intros Hne Hover call Hok. unfold compact_insights_collection.
  destruct insights_texts_list as [|t ts]; [congruence|].
  destruct (Z.ltb_spec max_tokens_for_context
              (count_tokens E (join SEP (t :: ts)))); [|lia].
  unfold bind. fold call. destruct call as [summary w']. cbn [fst] in Hok.
  rewrite Hok. reflexivity.
Qed.

Lemma compaction_summary_is_returned_unchecked_witness :
  let E := sample_env (service_says "a summary longer than the budget") in
  compact_insights_collection E [lit "hello"] 3 (lit "compact") empty_world
  = call_anthropic_api E (lit "compact")
      (compaction_user_prompt_of E (join SEP [lit "hello"]) (lit "compact"))
      3000 1 empty_world
  /\ 3 < count_tokens E
           (compact_insights_collection E [lit "hello"] 3 (lit "compact")
              empty_world).1.
Proof.
  split; [|reflexivity].
  apply (compaction_summary_is_returned_unchecked
           (sample_env (service_says "a summary longer than the budget"))
           [lit "hello"] 3 (lit "compact") empty_world).
  - discriminate.
  - reflexivity.
  - reflexivity.
Defined.

(** X15.  Compaction sends at most one request text, at most
    MAX_API_RETRIES times, and touches nothing but the request log and the
    sleep log: the state file, the report files and the export are as
    before. *)
Theorem compaction_costs_at_most_one_call
    (E : env) (insights_texts_list : list str)
    (max_tokens_for_context : Z) (prompt_for_compaction : str) (w : world) :
  let run :=
    compact_insights_collection E insights_texts_list max_tokens_for_context
      prompt_for_compaction w in
  exists k,
    (k <= Z.to_nat MAX_API_RETRIES)%nat
    /\ requests run.2
       = requests w
         ++ repeat
              (request_of prompt_for_compaction
                 (compaction_user_prompt_of E (join SEP insights_texts_list)
                    prompt_for_compaction) 3000) k
    /\ on_disk run.2 = on_disk w
    /\ state_writes run.2 = state_writes w
    /\ report_files run.2 = report_files w
    /\ export_removed run.2 = export_removed w.
Proof.
  intros run. subst run. unfold compact_insights_collection.
  assert (Hnone : forall r : str,
            exists k, (k <= Z.to_nat MAX_API_RETRIES)%nat
              /\ requests (r, w).2
                 = requests w
                   ++ repeat
                        (request_of prompt_for_compaction
                           (compaction_user_prompt_of E
                              (join SEP insights_texts_list)
                              prompt_for_compaction) 3000) k
              /\ on_disk (r, w).2 = on_disk w
              /\ state_writes (r, w).2 = state_writes w
              /\ report_files (r, w).2 = report_files w
              /\ export_removed (r, w).2 = export_removed w).
  { intros r. exists 0%nat. simpl. rewrite app_nil_r.
    repeat split. unfold MAX_API_RETRIES. lia. }
  destruct insights_texts_list as [|t ts]; [apply Hnone|].
  destruct (max_tokens_for_context <? _); [|apply Hnone].
  unfold bind.
  destruct (call_anthropic_api_from_trace E
              (Z.to_nat (MAX_API_RETRIES - 1)) prompt_for_compaction
              (compaction_user_prompt_of E (join SEP (t :: ts))
                 prompt_for_compaction) 3000 1 w)
    as (k & Hk & Hw & _).
  change (call_anthropic_api_from E (Z.to_nat (MAX_API_RETRIES - 1))
            prompt_for_compaction
            (compaction_user_prompt_of E (join SEP (t :: ts))
               prompt_for_compaction) 3000 1 w)
    with (call_anthropic_api E prompt_for_compaction
            (compaction_user_prompt_of E (join SEP (t :: ts))
               prompt_for_compaction) 3000 1 w) in Hw.
  destruct (call_anthropic_api E prompt_for_compaction _ 3000 1 w)
    as [summary w'].
  cbn [snd] in Hw. exists (S k).
  split; [unfold MAX_API_RETRIES in *; lia|].
  destruct (is_error_marker summary); cbn [snd ret]; rewrite Hw;
    repeat split.
Qed.

(** ** More on the report synthesizer *)

(** X16.  Whatever happens in [generate_and_save_final_report_txt]
    (report not due, nothing to report, failed call, failed or successful
    write), the insight collection and the cursor of the state are left as
    they were. *)
Theorem report_never_changes_insights_or_cursor
    (E : env) (state_data_ref : state_data) (chat_folder_basename : str)
    (new_insights_were_added_this_run : bool) (w : world) :
  let state' :=
    (generate_and_save_final_report_txt E state_data_ref
       chat_folder_basename new_insights_were_added_this_run w).1.2 in
  individual_useful_insights state'
  = individual_useful_insights state_data_ref
  /\ last_processed_message_id state'
     = last_processed_message_id state_data_ref
  /\ last_processed_message_timestamp_unix state'
     = last_processed_message_timestamp_unix state_data_ref.
Proof.
  intros state'.
  assert (Hshape : state' = state_data_ref
                   \/ exists filename generated_at,
                        state' = record_prompts E
                                   (set_report state_data_ref filename
                                      generated_at)).
  { subst state'.
    cbv [generate_and_save_final_report_txt bind ret].
    destruct (should_generate_report state_data_ref
                new_insights_were_added_this_run w) as [due w0].
    destruct due; cbn [negb]; [|left; reflexivity].
    right.
    destruct (report_insights_of state_data_ref) as [|t ts].
    { cbv [bind ret utcnow_z read_clock save_state_data put_state_file
           fst snd].
      eexists _, _; reflexivity. }
    destruct (report_input_of E (t :: ts) w0) as [input w1].
    destruct (call_anthropic_api E (SYSTEM_PROMPT_FINAL_REPORT E)
                (final_report_prompt_of input) 4000 1 w1) as [text w2].
    destruct (is_error_marker text).
    { cbv [bind ret utcnow_z read_clock save_state_data put_state_file
           fst snd].
      eexists _, _; reflexivity. }
    cbv [save_report bind ret read_clock report_write_index report_writes].
    destruct (report_write E _);
      [|destruct (report_failure E _) as [|[|] kept]];
      cbv [bind ret utcnow_z read_clock save_state_data put_state_file
           put_report_file fst snd];
      eexists _, _; reflexivity. }
  clearbody state'.
  destruct Hshape as [->|(filename & generated_at & ->)]; repeat split.
Qed.

(** X17.  When a report is due but no insight has a text other than the
    empty one and "NO_NEW_INSIGHTS", no request is sent and no report file
    is written; the report reference is cleared, the state is written
    once, and True is returned. *)
Theorem nothing_to_report_clears_the_reference
    (E : env) (state_data_ref : state_data) (chat_folder_basename : str)
    (new_insights_were_added_this_run : bool) (w : world) :
  (should_generate_report state_data_ref
     new_insights_were_added_this_run w).1 = true ->
  report_insights_of state_data_ref = [] ->
  let run :=
    generate_and_save_final_report_txt E state_data_ref chat_folder_basename
      new_insights_were_added_this_run w in
  run.1.1 = true
  /\ latest_report_filename run.1.2 = None
  /\ requests run.2 = requests w
  /\ report_files run.2 = report_files w
  /\ state_writes run.2 = S (state_writes w).
Proof.
  intros Hdue Hnone run.
  assert (Hrun : run
            = (true,
               record_prompts E
                 (set_report state_data_ref None (Some (utcnow_z E w).1)),
               (save_state_data E
                  (set_report state_data_ref None (Some (utcnow_z E w).1))
                  (utcnow_z E w).2).2)).
  { subst run. cbv [generate_and_save_final_report_txt bind ret].
    pose proof (should_generate_report_reads_only state_data_ref
                  new_insights_were_added_this_run w) as Hpure.
    destruct (should_generate_report state_data_ref
                new_insights_were_added_this_run w) as [due w0].
    cbn [fst snd] in Hdue, Hpure. subst due w0. cbn [negb].
    rewrite Hnone. reflexivity. }
  clearbody run. subst run. repeat split.
Qed.

Lemma nothing_to_report_clears_the_reference_witness :
  let run :=
    generate_and_save_final_report_txt (sample_env service_down)
      fresh_state (lit "chat") true empty_world in
  run.1.1 = true
  /\ latest_report_filename run.1.2 = None
  /\ requests run.2 = requests empty_world
  /\ report_files run.2 = report_files empty_world
  /\ state_writes run.2 = S (state_writes empty_world).
Proof.
  apply (nothing_to_report_clears_the_reference (sample_env service_down)
           fresh_state (lit "chat") true empty_world); reflexivity.
Defined.

(** Once the final call has returned a text that is no error-marker, the
    rest of [generate_and_save_final_report_txt] is [save_report]. *)
Lemma report_is_saved_after_successful_call
    (E : env) (state_data_ref : state_data) (chat_folder_basename : str)
    (new_insights_were_added_this_run : bool) (w : world) :
  (should_generate_report state_data_ref
     new_insights_were_added_this_run w).1 = true ->
  report_insights_of state_data_ref <> [] ->
  let prepared :=
    report_input_of E (report_insights_of state_data_ref) w in
  let final :=
    call_anthropic_api E (SYSTEM_PROMPT_FINAL_REPORT E)
      (final_report_prompt_of prepared.1) 4000 1 prepared.2 in
  is_error_marker final.1 = false ->
  generate_and_save_final_report_txt E state_data_ref chat_folder_basename
    new_insights_were_added_this_run w
  = save_report E state_data_ref chat_folder_basename final.1 final.2
  /\ only_service_traffic w final.2.
Proof.
  intros Hdue Hinsights prepared final Hok.
  assert (Htalk : only_service_traffic w final.2).
  { apply (only_service_traffic_trans _ prepared.2).
    - apply report_input_of_only_talks.
    - apply call_anthropic_api_only_talks. }
  split; [|exact Htalk].
  cbv [generate_and_save_final_report_txt bind ret].
  pose proof (should_generate_report_reads_only state_data_ref
                new_insights_were_added_this_run w) as Hpure.
  destruct (should_generate_report state_data_ref
              new_insights_were_added_this_run w) as [due w0].
  cbn [fst snd] in Hdue, Hpure. subst due w0. cbn [negb].
  subst final prepared.
  destruct (report_insights_of state_data_ref) as [|t ts]; [congruence|].
  destruct (report_input_of E (t :: ts) w) as [input w1]. cbn [fst snd] in *.
  destruct (call_anthropic_api E (SYSTEM_PROMPT_FINAL_REPORT E)
              (final_report_prompt_of input) 4000 1 w1) as [text w2].
  cbn [fst snd] in *. rewrite Hok. reflexivity.
Qed.

Lemma str_eqb_refl (a : str) : str_eqb a a = true.
Proof. apply str_eqb_eq. reflexivity. Qed.

(** X18.  When the final call returns a report and the report file can be
    written, [generate_and_save_final_report_txt] returns True, the file
    "<folder>-Report-<time>.txt" holds the report after a header, and the
    state names that file.  A later call without new insights then finds
    the report valid and does nothing. *)
Theorem saved_report_is_not_generated_again
    (E : env) (state_data_ref : state_data) (chat_folder_basename : str)
    (new_insights_were_added_this_run : bool) (w : world) :
  (should_generate_report state_data_ref
     new_insights_were_added_this_run w).1 = true ->
  report_insights_of state_data_ref <> [] ->
  let prepared :=
    report_input_of E (report_insights_of state_data_ref) w in
  let final :=
    call_anthropic_api E (SYSTEM_PROMPT_FINAL_REPORT E)
      (final_report_prompt_of prepared.1) 4000 1 prepared.2 in
  is_error_marker final.1 = false ->
  report_write E (report_writes w) = true ->
  let run :=
    generate_and_save_final_report_txt E state_data_ref chat_folder_basename
      new_insights_were_added_this_run w in
  let report_filename :=
    chat_folder_basename ++ lit "-Report-"
    ++ now_file_stamp E (clock_reads w) ++ lit ".txt" in
  run.1.1 = true
  /\ latest_report_filename run.1.2 = Some report_filename
  /\ (exists header_stamp,
        report_files run.2
        = (report_filename,
           lit "Final Report for: " ++ chat_folder_basename ++ NL
           ++ lit "Generated on: " ++ header_stamp ++ NL
           ++ lit "==============================" ++ NL ++ NL
           ++ final.1) :: report_files w)
  /\ generate_and_save_final_report_txt E run.1.2 chat_folder_basename
       false run.2
     = (true, run.1.2, run.2).
Proof.
  intros Hdue Hinsights prepared final Hok Hwrite run report_filename.
  destruct (report_is_saved_after_successful_call E state_data_ref
              chat_folder_basename new_insights_were_added_this_run w
              Hdue Hinsights Hok) as [Hrun Htalk].
  fold prepared in Hrun, Htalk. fold final in Hrun, Htalk. fold run in Hrun.
  apply only_service_traffic_files in Htalk
    as (_ & _ & Hclock & Hwrites & Hfiles & _).
  clearbody run. subst run.
  destruct final as [text w2]. cbn [fst snd] in *.
  cbv [save_report bind ret read_clock report_write_index].
  cbn [report_writes clock_reads]. rewrite Hwrites, Hwrite, Hclock.
  fold report_filename.
  cbv [bind ret read_clock put_report_file utcnow_z save_state_data
       put_state_file].
  cbn [fst snd report_files clock_reads requests sleeps state_writes on_disk
       report_writes export_removed latest_report_filename record_prompts
       set_report].
  rewrite Hfiles.
  split; [reflexivity|]. split; [reflexivity|].
  split; [eexists; reflexivity|].
  cbv [generate_and_save_final_report_txt should_generate_report bind ret
       report_exists].
  cbn [fst snd report_files latest_report_filename record_prompts
       set_report report_generated_at_utc individual_useful_insights
       existsb orb negb].
  rewrite str_eqb_refl.
  assert (Hname : nonempty report_filename = true).
  { unfold report_filename. destruct chat_folder_basename; reflexivity. }
  rewrite Hname. cbn [orb negb andb].
  destruct (individual_useful_insights state_data_ref); reflexivity.
Qed.

Lemma saved_report_is_not_generated_again_witness :
  let E := sample_env (service_says "Executive Summary: a trip is planned") in
  let run :=
    generate_and_save_final_report_txt E state_with_report (lit "chat")
      true empty_world in
  run.1.1 = true
  /\ latest_report_filename run.1.2
     = Some (lit "chat-Report-2024-06-20_120000.txt")
  /\ generate_and_save_final_report_txt E run.1.2 (lit "chat") false run.2
     = (true, run.1.2, run.2).
Proof.
  pose proof (saved_report_is_not_generated_again
                (sample_env
                   (service_says "Executive Summary: a trip is planned"))
                state_with_report (lit "chat") true empty_world
                eq_refl ltac:(discriminate) eq_refl eq_refl)
    as (Hflag & Hname & _ & Hagain).
  split; [exact Hflag|]. split; [exact Hname|exact Hagain].
Defined.

(** X19.  When the final call returns a report but the report file cannot
    be written, [generate_and_save_final_report_txt] returns False and the
    report reference is cleared in the state that is written.  What the
    folder holds afterwards depends on where the write failed: no new file
    when the file could not be opened; otherwise a file
    "<folder>-Report-<time>.txt" with the characters that reached it, which
    the state does not name. *)
Theorem unwritable_report_clears_the_reference
    (E : env) (state_data_ref : state_data) (chat_folder_basename : str)
    (new_insights_were_added_this_run : bool) (w : world) :
  (should_generate_report state_data_ref
     new_insights_were_added_this_run w).1 = true ->
  report_insights_of state_data_ref <> [] ->
  let prepared :=
    report_input_of E (report_insights_of state_data_ref) w in
  let final :=
    call_anthropic_api E (SYSTEM_PROMPT_FINAL_REPORT E)
      (final_report_prompt_of prepared.1) 4000 1 prepared.2 in
  is_error_marker final.1 = false ->
  report_write E (report_writes w) = false ->
  let run :=
    generate_and_save_final_report_txt E state_data_ref chat_folder_basename
      new_insights_were_added_this_run w in
  let report_filename :=
    chat_folder_basename ++ lit "-Report-"
    ++ now_file_stamp E (clock_reads w) ++ lit ".txt" in
  run.1.1 = false
  /\ latest_report_filename run.1.2 = None
  /\ match report_failure E (report_writes w) with
     | ReportOpenFailed => report_files run.2 = report_files w
     | ReportWriteFailed false kept =>
         report_files run.2
         = (report_filename,
            take kept (lit "Final Report for: " ++ chat_folder_basename
                       ++ NL)) :: report_files w
     | ReportWriteFailed true kept =>
         exists header_stamp,
           report_files run.2
           = (report_filename,
              take kept
                (lit "Final Report for: " ++ chat_folder_basename ++ NL
                 ++ lit "Generated on: " ++ header_stamp ++ NL
                 ++ lit "==============================" ++ NL ++ NL
                 ++ final.1)) :: report_files w
     end
  /\ state_writes run.2 = S (state_writes w)
  /\ (state_write E (state_writes w) = Written ->
      on_disk run.2 = FileSnapshot (snapshot_of run.1.2)).
Proof.
  intros Hdue Hinsights prepared final Hok Hwrite run report_filename.
  destruct (report_is_saved_after_successful_call E state_data_ref
              chat_folder_basename new_insights_were_added_this_run w
              Hdue Hinsights Hok) as [Hrun Htalk].
  fold prepared in Hrun, Htalk. fold final in Hrun, Htalk. fold run in Hrun.
  apply only_service_traffic_files in Htalk
    as (_ & Hstate_writes & Hclock & Hwrites & Hfiles & _).
  clearbody run. subst run.
  destruct final as [text w2]. cbn [fst snd] in *.
  cbv [save_report bind ret read_clock report_write_index].
  cbn [report_writes clock_reads]. rewrite Hwrites, Hwrite, Hclock.
  fold report_filename.
  destruct (report_failure E (report_writes w)) as [|[|] kept];
    cbv [bind ret read_clock put_report_file utcnow_z save_state_data
         put_state_file];
    cbn [fst snd report_files clock_reads requests sleeps state_writes
         on_disk report_writes export_removed latest_report_filename
         record_prompts set_report];
    rewrite Hfiles, Hstate_writes;
    (split; [reflexivity|]); (split; [reflexivity|]);
    (split; [first [reflexivity | eexists; reflexivity]|]);
    (split; [reflexivity|]);
    intros Hstate; rewrite Hstate; reflexivity.
Qed.

Lemma unwritable_report_clears_the_reference_witness :
  let E := full_disk_env
             (service_says "Executive Summary: a trip is planned") 22 in
  let run :=
    generate_and_save_final_report_txt E state_with_report (lit "chat")
      true empty_world in
  run.1.1 = false
  /\ latest_report_filename run.1.2 = None
  /\ report_files run.2
     = [(lit "chat-Report-2024-06-20_120000.txt",
         lit "Final Report for: chat")]
  /\ on_disk run.2 = FileSnapshot (snapshot_of run.1.2).
Proof.
  pose proof (unwritable_report_clears_the_reference
                (full_disk_env
                   (service_says "Executive Summary: a trip is planned") 22)
                state_with_report (lit "chat") true empty_world
                eq_refl ltac:(discriminate) eq_refl eq_refl)
    as (Hflag & Hname & Hfiles & _ & Hdisk).
  split; [exact Hflag|]. split; [exact Hname|].
  split; [|exact (Hdisk eq_refl)].
  destruct Hfiles as [header_stamp Hfiles]. rewrite Hfiles. reflexivity.
Defined.

(** With a file system that refuses to open the report file, the folder
    is left as it was. *)
Example unopened_report_leaves_no_file :
  let E := faulty_env (service_says "Executive Summary: a trip is planned")
             (fun _ => Written) (fun _ => false) in
  let run :=
    generate_and_save_final_report_txt E state_with_report (lit "chat")
      true empty_world in
  run.1.1 = false
  /\ latest_report_filename run.1.2 = None
  /\ report_files run.2 = [].
Proof. vm_compute. repeat split. Qed.

(** ** Second tier of compaction *)

Lemma meta_chunks_of_as_chunks (all_individual_insights : list str) :
  meta_chunks_of all_individual_insights
  = List.map
      (chunk_messages_of MAX_INSIGHTS_PER_META_CHUNK_FOR_REPORT
         all_individual_insights)
      (seq 0 (num_chunks_of MAX_INSIGHTS_PER_META_CHUNK_FOR_REPORT
                (length all_individual_insights))).
Proof.
  unfold meta_chunks_of, range_step, num_chunks_of.
  rewrite map_map. apply map_ext. intros k.
  unfold chunk_messages_of, slice. f_equal; lia.
Qed.

(** X20.  When the insight texts exceed the ceiling of the final call,
    they are split into groups of MAX_INSIGHTS_PER_META_CHUNK_FOR_REPORT:
    the groups put end to end are the list itself, none is empty and none
    has more than 30 texts, and the text handed to the final call is the
    group summaries joined by the separator. *)
Theorem meta_chunks_partition_the_insights
    (E : env) (all_individual_insights : list str) (w : world) :
  let meta_chunked_insights := meta_chunks_of all_individual_insights in
  concat meta_chunked_insights = all_individual_insights
  /\ length meta_chunked_insights
     = num_chunks_of MAX_INSIGHTS_PER_META_CHUNK_FOR_REPORT
         (length all_individual_insights)
  /\ Forall (fun group =>
               (0 < length group
                <= MAX_INSIGHTS_PER_META_CHUNK_FOR_REPORT)%nat)
       meta_chunked_insights
  /\ (MAX_TOKENS_FOR_FINAL_REPORT_GENERATION
      < count_tokens E (join SEP all_individual_insights) ->
      (report_input_of E all_individual_insights w).1
      = join SEP (summarize_meta_chunks E 0 meta_chunked_insights w).1).
Proof.
  intros meta. subst meta. rewrite meta_chunks_of_as_chunks.
  set (size := MAX_INSIGHTS_PER_META_CHUNK_FOR_REPORT).
  assert (Hpos : (0 < size)%nat) by (unfold size,
    MAX_INSIGHTS_PER_META_CHUNK_FOR_REPORT; lia).
  destruct (num_chunks_of_covers size (length all_individual_insights) Hpos)
    as [Hlow Hhigh].
  split; [|split; [|split]].
  - rewrite concat_chunks_is_take. apply take_ge. lia.
  - rewrite length_map, length_seq. reflexivity.
  - apply List.Forall_forall. intros group Hgroup.
    apply in_map_iff in Hgroup as (k & <- & Hk). apply in_seq in Hk.
    rewrite chunk_messages_of_take_drop, length_take, length_drop.
    assert (Hle : (S k * size
                   <= num_chunks_of size (length all_individual_insights)
                      * size)%nat)
      by (apply Nat.mul_le_mono_r; lia).
    lia.
  - intros Hover. rewrite <- meta_chunks_of_as_chunks.
    unfold report_input_of.
    destruct (Z.ltb_spec MAX_TOKENS_FOR_FINAL_REPORT_GENERATION
                (count_tokens E (join SEP all_individual_insights)));
      [|lia].
    fold (meta_chunks_of all_individual_insights).
    unfold bind.
    destruct (summarize_meta_chunks E 0
                (meta_chunks_of all_individual_insights) w).
    reflexivity.
Qed.

(** X21.  The second tier does not stop at a failed call: whatever the
    service does, there is one entry per group, no entry is an
    error-marker (a failed group leaves a bracketed note instead), and
    nothing but requests and sleeps has happened. *)
Theorem meta_summaries_survive_failures
    (E : env) (idx : nat) (meta_chunked_insights : list (list str))
    (w : world) :
  let summarized_meta_chunks :=
    (summarize_meta_chunks E idx meta_chunked_insights w).1 in
  length summarized_meta_chunks = length meta_chunked_insights
  /\ Forall (fun entry => is_error_marker entry = false)
       summarized_meta_chunks
  /\ only_service_traffic w
       (summarize_meta_chunks E idx meta_chunked_insights w).2.
Proof.
  intros summaries. subst summaries.
  split; [|split; [|apply summarize_meta_chunks_only_talks]].
  - revert idx w.
    induction meta_chunked_insights as [|group rest IH]; intros idx w;
      [reflexivity|].
    cbn [summarize_meta_chunks]. cbv [bind ret].
    destruct (call_anthropic_api E _ _ 2000 1 w) as [summary w1].
    specialize (IH (S idx) w1).
    destruct (summarize_meta_chunks E (S idx) rest w1) as [others w2].
    cbn [fst length] in *. rewrite IH. reflexivity.
  - revert idx w.
    induction meta_chunked_insights as [|group rest IH]; intros idx w;
      [constructor|].
    cbn [summarize_meta_chunks]. cbv [bind ret].
    destruct (call_anthropic_api E _ _ 2000 1 w) as [summary w1].
    specialize (IH (S idx) w1).
    destruct (summarize_meta_chunks E (S idx) rest w1) as [others w2].
    cbn [fst] in *. constructor; [|exact IH].
    destruct (is_error_marker summary) eqn:Hmarker;
      [reflexivity|exact Hmarker].
Qed.

(** With the service down, each of two groups leaves a note. *)
Example meta_summaries_with_the_service_down :
  (summarize_meta_chunks (sample_env service_down) 0
     [[lit "a"]; [lit "b"]] empty_world).1
  = [lit "[Error summarizing meta-chunk 1: ANTHROPIC_API_ERROR (Code 401): unauthorized]";
     lit "[Error summarizing meta-chunk 2: ANTHROPIC_API_ERROR (Code 401): unauthorized]"].
Proof. reflexivity. Qed.

(** ** More on the chunk loop *)

Section ChunkLoop.

Variable E : env.

(** The four ways in which an iteration over a chunk that is not empty
    can end. *)
Lemma process_chunk_cases (new_messages : list formatted) (i : nat)
    (vars : loop_vars) (w : world)
    (first_of_chunk : formatted) (others : list formatted) :
  chunk_messages_of MESSAGES_PER_CHUNK new_messages i
  = first_of_chunk :: others ->
  let last_of_chunk := List.last others first_of_chunk in
  let step := process_chunk E new_messages i vars w in
  (exists w1,
      is_error_marker (chunk_call E new_messages i vars w).1 = true
      /\ step = (Break,
                 {| state := state vars;
                    previous_insights_context_str :=
                      previous_insights_context_str vars;
                    any_new_insights_this_run :=
                      any_new_insights_this_run vars;
                    all_chunks_successful := false |},
                 w1))
  \/ (exists w1,
        str_eqb (chunk_call E new_messages i vars w).1 NO_NEW_INSIGHTS = true
        /\ step = commit_chunk E vars last_of_chunk w1)
  \/ (exists new_insight_obj context w3,
        is_error_marker (insight_text new_insight_obj) = false
        /\ str_eqb (insight_text new_insight_obj) NO_NEW_INSIGHTS = false
        /\ insight_text new_insight_obj
           = (chunk_call E new_messages i vars w).1
        /\ chunk_start_message_id new_insight_obj = f_id first_of_chunk
        /\ chunk_end_message_id new_insight_obj = f_id last_of_chunk
        /\ (exists w2,
              context
              = (compact_insights_collection E
                   (List.map insight_text
                      (individual_useful_insights
                         (append_insight (state vars) new_insight_obj)))
                   MAX_PREVIOUS_INSIGHTS_TOKENS_FOR_CHUNK_PROCESSING
                   (SYSTEM_PROMPT_COMPACT_INSIGHTS_COLLECTION E) w2).1)
        /\ ((is_error_marker context = true
             /\ step
                = (Break,
                   {| state := append_insight (state vars) new_insight_obj;
                      previous_insights_context_str := context;
                      any_new_insights_this_run := true;
                      all_chunks_successful := false |},
                   w3))
            \/ (is_error_marker context = false
                /\ step
                   = commit_chunk E
                       {| state :=
                            append_insight (state vars) new_insight_obj;
                          previous_insights_context_str := context;
                          any_new_insights_this_run := true;
                          all_chunks_successful :=
                            all_chunks_successful vars |}
                       last_of_chunk w3))).
Proof.
  intros Hchunk last_of_chunk step. subst step.
  unfold chunk_call, process_chunk. rewrite Hchunk. cbv [bind].
  destruct (call_anthropic_api E _ _ 1500 1 w) as [text w1].
  cbn [fst].
  destruct (is_error_marker text) eqn:Hmarker; [left; eauto|].
  destruct (str_eqb text NO_NEW_INSIGHTS) eqn:Hsentinel;
    [right; left; eauto|].
  right. right.
  destruct (utcnow_z E w1) as [generated w2].
  destruct (compact_insights_collection E _ _ _ w2) as [context w3]
    eqn:Hcompact.
  exists {| chunk_start_message_id := f_id first_of_chunk;
            chunk_end_message_id := f_id last_of_chunk;
            chunk_start_message_timestamp_utc := timestamp_utc first_of_chunk;
            chunk_end_message_timestamp_utc := timestamp_utc last_of_chunk;
            insight_text := text;
            generated_at_utc := generated |}, context, w3.
  split; [exact Hmarker|]. split; [exact Hsentinel|].
  split; [reflexivity|]. split; [reflexivity|]. split; [reflexivity|].
  split; [exists w2; symmetry; exact (f_equal fst Hcompact)|].
  destruct (is_error_marker context); [left; split; reflexivity|].
  right. split; reflexivity.
Qed.

End ChunkLoop.

(** X22.  When the call for a chunk returns a text that is neither an
    error-marker nor "NO_NEW_INSIGHTS", and the iteration does not leave
    the loop, exactly one insight is appended: it holds that text and the
    ids of the first and of the last record of the chunk.  The cursor
    moves to the last record, the report reference is dropped, the running
    context is replaced by one that is no error-marker, and the state file
    is written once. *)
Theorem new_insight_is_appended_and_committed
    (E : env) (new_messages : list formatted) (i : nat)
    (vars : loop_vars) (w : world)
    (first_of_chunk last_of_chunk : formatted) :
  head (chunk_messages_of MESSAGES_PER_CHUNK new_messages i)
  = Some first_of_chunk ->
  last (chunk_messages_of MESSAGES_PER_CHUNK new_messages i)
  = Some last_of_chunk ->
  let text := (chunk_call E new_messages i vars w).1 in
  is_error_marker text = false ->
  str_eqb text NO_NEW_INSIGHTS = false ->
  let step := process_chunk E new_messages i vars w in
  step.1.1 = Continue ->
  let vars' := step.1.2 in
  (exists new_insight_obj,
      individual_useful_insights (state vars')
      = individual_useful_insights (state vars) ++ [new_insight_obj]
      /\ insight_text new_insight_obj = text
      /\ chunk_start_message_id new_insight_obj = f_id first_of_chunk
      /\ chunk_end_message_id new_insight_obj = f_id last_of_chunk)
  /\ last_processed_message_id (state vars') = f_id last_of_chunk
  /\ last_processed_message_timestamp_unix (state vars')
     = timestamp_unix last_of_chunk
  /\ latest_report_filename (state vars') = None
  /\ any_new_insights_this_run vars' = true
  /\ is_error_marker (previous_insights_context_str vars') = false
  /\ state_writes step.2 = S (state_writes w).
Proof.
  intros Hhead Hlast text Hmarker Hsentinel step Hcontinue vars'.
  destruct (chunk_messages_of MESSAGES_PER_CHUNK new_messages i)
    as [|first others] eqn:Hchunk; [discriminate|].
  cbn [head] in Hhead. apply Some_eq in Hhead. subst first.
  rewrite last_cons in Hlast. apply Some_eq in Hlast.
  assert (Hwrites : state_writes step.2 = S (state_writes w)).
  { destruct step as [[ctl v1] w1] eqn:Hstep. cbn [fst snd] in *.
    subst ctl.
    refine (proj1 (process_chunk_continue_commits E new_messages i vars v1
                     w w1 _ Hstep)).
    rewrite Hchunk. discriminate. }
  destruct (process_chunk_cases E new_messages i vars w first_of_chunk
              others Hchunk)
    as [(w1 & Hbad & _)|[(w1 & Hbad & _)
        |(ins & context & w3 & _ & _ & Htext & Hstart & Hend & _ & Hstep)]].
  - fold text in Hbad. congruence.
  - fold text in Hbad. congruence.
  - fold step in Hstep. destruct Hstep as [[_ Hstep]|[Hcontext Hstep]].
    + rewrite Hstep in Hcontinue. discriminate.
    + subst vars'. rewrite Hwrites. clear Hwrites. clearbody step.
      subst step. rewrite Hlast in *.
      split; [exists ins; repeat split; assumption|].
      repeat split. exact Hcontext.
Qed.

Lemma new_insight_is_appended_and_committed_witness :
  let E := sample_env (service_says "- Ann greets Bob") in
  let step := process_chunk E two_lines 0
                (initial_loop_vars fresh_state []) empty_world in
  List.map insight_text (individual_useful_insights (state step.1.2))
  = [lit "- Ann greets Bob"]
  /\ last_processed_message_id (state step.1.2) = 5
  /\ any_new_insights_this_run step.1.2 = true
  /\ state_writes step.2 = 1%nat.
Proof.
  pose proof (new_insight_is_appended_and_committed
                (sample_env (service_says "- Ann greets Bob")) two_lines 0
                (initial_loop_vars fresh_state []) empty_world
                (line 4 1700000000 "From Ann: hello")
                (line 5 1700000060 "From Bob: hi")
                eq_refl eq_refl eq_refl eq_refl eq_refl)
    as ((ins & Hins & Htext & _) & Hid & _ & _ & Hany & _ & Hwrites).
  split; [rewrite Hins, map_app; cbn [List.map]; rewrite Htext;
          reflexivity|].
  split; [exact Hid|]. split; [exact Hany|exact Hwrites].
Defined.

Section LoopInvariants.

Variable E : env.

Lemma process_chunk_appends (new_messages : list formatted) (i : nat)
    (vars : loop_vars) (w : world) :
  exists added,
    individual_useful_insights
      (state (process_chunk E new_messages i vars w).1.2)
    = individual_useful_insights (state vars) ++ added
    /\ (length added <= 1)%nat
    /\ appended_by_loop added.
Proof.
  destruct (chunk_messages_of MESSAGES_PER_CHUNK new_messages i)
    as [|first others] eqn:Hchunk.
  - exists []. unfold process_chunk. rewrite Hchunk. cbn.
    rewrite app_nil_r. repeat split; [lia|constructor].
  - destruct (process_chunk_cases E new_messages i vars w first others
                Hchunk)
      as [(w1 & _ & Hstep)|[(w1 & _ & Hstep)
          |(ins & context & w3 & Hm & Hs & _ & _ & _ & _ & Hstep)]].
    + exists []. rewrite Hstep. cbn. rewrite app_nil_r.
      repeat split; [lia|constructor].
    + exists []. rewrite Hstep. cbn. rewrite app_nil_r.
      repeat split; [lia|constructor].
    + exists [ins].
      destruct Hstep as [[_ Hstep]|[_ Hstep]]; rewrite Hstep; cbn;
        (split; [reflexivity|]); (split; [lia|]);
        repeat constructor; assumption.
Qed.


(** The cursor after an iteration that does not leave the loop. *)
Lemma process_chunk_continue_cursor (new_messages : list formatted)
    (i : nat) (vars vars' : loop_vars) (w w' : world)
    (last_of_chunk : formatted) :
  last (chunk_messages_of MESSAGES_PER_CHUNK new_messages i)
  = Some last_of_chunk ->
  process_chunk E new_messages i vars w = (Continue, vars', w') ->
  last_processed_message_id (state vars') = f_id last_of_chunk
  /\ last_processed_message_timestamp_unix (state vars')
     = timestamp_unix last_of_chunk.
Proof.
  intros Hlast Hstep.
  destruct (chunk_messages_of MESSAGES_PER_CHUNK new_messages i)
    as [|first others] eqn:Hchunk; [discriminate|].
  rewrite last_cons in Hlast. apply Some_eq in Hlast.
  destruct (process_chunk_cases E new_messages i vars w first others Hchunk)
    as [(w1 & _ & Hcase)|[(w1 & _ & Hcase)
        |(ins & context & w3 & _ & _ & _ & _ & _ & _
          & [[_ Hcase]|[_ Hcase]])]];
    rewrite Hstep in Hcase; try discriminate;
    rewrite Hlast in Hcase;
    apply (f_equal (fun r => state r.1.2)) in Hcase;
    cbn in Hcase; rewrite Hcase; split; reflexivity.
Qed.

Lemma runs_through_cursor (new_messages : list formatted)
    (indices : list nat) (vars vars' : loop_vars) (w w' : world)
    (j : nat) (last_of_chunk : formatted) :
  runs_through E new_messages indices vars w vars' w' ->
  last indices = Some j ->
  last (chunk_messages_of MESSAGES_PER_CHUNK new_messages j)
  = Some last_of_chunk ->
  last_processed_message_id (state vars') = f_id last_of_chunk
  /\ last_processed_message_timestamp_unix (state vars')
     = timestamp_unix last_of_chunk.
Proof.
  induction 1 as [|i later vars w vars1 w1 vars2 w2 Hstep Hrest IH];
    intros Hj Hlast; [discriminate|].
  destruct later as [|i' later].
  - cbn in Hj. apply Some_eq in Hj. subst j. inversion Hrest; subst.
    exact (process_chunk_continue_cursor _ _ _ _ _ _ _ Hlast Hstep).
  - apply IH; [exact Hj|exact Hlast].
Qed.

End LoopInvariants.

(** X23.  The chunk loop only appends to the insight collection: the
    insights held before are kept, in order and unchanged, at most one is
    added per chunk, and no added insight holds an error-marker or
    "NO_NEW_INSIGHTS". *)
Theorem chunk_loop_only_appends_insights
    (E : env) (new_messages : list formatted) (indices : list nat)
    (vars : loop_vars) (w : world) :
  exists added,
    individual_useful_insights
      (state (chunk_loop E new_messages indices vars w).1)
    = individual_useful_insights (state vars) ++ added
    /\ (length added <= length indices)%nat
    /\ appended_by_loop added.
Proof.
  revert vars w. induction indices as [|i later IH]; intros vars w.
  - exists []. cbn. rewrite app_nil_r. repeat split; [lia|constructor].
  - cbn [chunk_loop]. cbv [bind].
    destruct (process_chunk_appends E new_messages i vars w)
      as (added1 & Hfirst & Hlen1 & Hclean1).
    destruct (process_chunk E new_messages i vars w) as [[ctl vars1] w1].
    cbn [fst snd] in Hfirst.
    destruct ctl.
    + exists added1. cbn [fst ret]. split; [exact Hfirst|].
      split; [cbn [length]; lia|exact Hclean1].
    + destruct (IH vars1 w1) as (added2 & Hrest & Hlen2 & Hclean2).
      exists (added1 ++ added2). rewrite Hrest, Hfirst, app_assoc.
      split; [reflexivity|].
      split; [rewrite length_app; cbn [length]; lia|].
      apply Forall_app. split; assumption.
Qed.

Lemma last_chunk_ends_with_last_message {A} (l : list A) (x : A) :
  last l = Some x ->
  last (seq 0 (num_chunks_of MESSAGES_PER_CHUNK (length l)))
  = Some (num_chunks_of MESSAGES_PER_CHUNK (length l) - 1)%nat
  /\ last (chunk_messages_of MESSAGES_PER_CHUNK l
             (num_chunks_of MESSAGES_PER_CHUNK (length l) - 1))
     = Some x.
Proof.
  intros Hlast.
  assert (Hn : (0 < length l)%nat).
  { destruct l; [discriminate|cbn; lia]. }
  assert (Hpos : (0 < MESSAGES_PER_CHUNK)%nat)
    by (unfold MESSAGES_PER_CHUNK; lia).
  destruct (num_chunks_of_covers MESSAGES_PER_CHUNK (length l) Hpos)
    as [Hlow Hhigh].
  set (q := num_chunks_of MESSAGES_PER_CHUNK (length l)) in *.
  assert (Hq : (0 < q)%nat) by (destruct q; [cbn in Hlow; lia|lia]).
  split.
  - replace q with (S (q - 1)) at 1 by lia.
    rewrite seq_S, last_snoc. reflexivity.
  - rewrite last_lookup in *. rewrite chunk_messages_of_take_drop.
    rewrite length_take, length_drop.
    assert (Hmul : ((q - 1) * MESSAGES_PER_CHUNK + MESSAGES_PER_CHUNK
                    = q * MESSAGES_PER_CHUNK)%nat) by nia.
    rewrite lookup_take_lt by lia. rewrite lookup_drop.
    rewrite <- Hlast. f_equal. lia.
Qed.

(** X24.  When every chunk of the new messages is processed without
    leaving the loop, the cursor ends at the (timestamp, id) of the last
    new message. *)
Theorem cursor_ends_at_the_last_new_message
    (E : env) (new_messages : list formatted)
    (vars vars' : loop_vars) (w w' : world) (last_message : formatted) :
  last new_messages = Some last_message ->
  runs_through E new_messages
    (seq 0 (num_chunks_of MESSAGES_PER_CHUNK (length new_messages)))
    vars w vars' w' ->
  last_processed_message_id (state vars') = f_id last_message
  /\ last_processed_message_timestamp_unix (state vars')
     = timestamp_unix last_message.
Proof.
  intros Hlast Hruns.
  destruct (last_chunk_ends_with_last_message new_messages last_message
              Hlast) as [Hindex Hchunk].
  exact (runs_through_cursor E _ _ _ _ _ _ _ _ Hruns Hindex Hchunk).
Qed.

Lemma cursor_ends_at_the_last_new_message_witness :
  let E := sample_env (service_says "NO_NEW_INSIGHTS") in
  let step := process_chunk E two_lines 0
                (initial_loop_vars fresh_state []) empty_world in
  last_processed_message_id (state step.1.2) = 5
  /\ last_processed_message_timestamp_unix (state step.1.2) = 1700000060.
Proof.
  intros E step.
  assert (Hstep : step = (Continue, step.1.2, step.2))
    by (vm_compute; reflexivity).
  exact (cursor_ends_at_the_last_new_message E two_lines
           (initial_loop_vars fresh_state []) step.1.2 empty_world step.2
           (line 5 1700000060 "From Bob: hi") eq_refl
           (runs_through_cons E two_lines 0 [] _ _ _ _ _ _ Hstep
              (runs_through_nil E two_lines _ _))).
Defined.

(** ** Error-markers do not arise from compaction *)

Section NoMarker.

Variable E : env.

Lemma join_SEP_is_no_error_marker (texts : list str) :
  Forall no_marker_text texts -> is_error_marker (join SEP texts) = false.
Proof.
  intros Hclean. destruct texts as [|t rest]; [reflexivity|].
  apply Forall_cons in Hclean as [[Ht _] _].
  destruct rest as [|t' rest]; [exact Ht|].
  exact (is_error_marker_line_break t _ Ht).
Qed.

Lemma degraded_result_is_no_error_marker (texts : list str) (budget : Z) :
  Forall no_marker_text texts ->
  is_error_marker
    (strip (most_recent_that_fit E (rev texts) budget [] 0)) = false.
Proof.
  intros Hclean.
  destruct (most_recent_that_fit_takes_while_fitting E (rev texts)
              budget [] 0) as (taken & rest & Hsplit & Hres & _).
  rewrite Hres, app_nil_r.
  assert (Hin : forall t, In t (rev taken) -> In t texts).
  { intros t Ht. apply (proj2 (in_rev texts t)). rewrite Hsplit.
    apply in_or_app. left. apply (proj2 (in_rev taken t)). exact Ht. }
  destruct (rev taken) as [|t1 selected]; [reflexivity|].
  unfold strip. apply is_error_marker_rstrip.
  cbn [List.map concat]. rewrite <- app_assoc.
  apply is_error_marker_before_SEP.
  rewrite List.Forall_forall in Hclean.
  exact (proj2 (Hclean t1 (Hin t1 (or_introl eq_refl)))).
Qed.

End NoMarker.

(** On texts that do not look like error-markers, no path of the
    compactor yields one. *)
Lemma compaction_keeps_clean_texts_clean
    (E : env) (insights_texts_list : list str)
    (max_tokens_for_context : Z) (prompt_for_compaction : str) (w : world) :
  Forall no_marker_text insights_texts_list ->
  is_error_marker
    (compact_insights_collection E insights_texts_list
       max_tokens_for_context prompt_for_compaction w).1 = false.
Proof.
  intros Hclean. unfold compact_insights_collection.
  destruct insights_texts_list as [|t ts] eqn:Hlist; [reflexivity|].
  rewrite <- Hlist in *.
  destruct (max_tokens_for_context <? _);
    [|apply join_SEP_is_no_error_marker; exact Hclean].
  cbv [bind].
  destruct (call_anthropic_api E prompt_for_compaction _ 3000 1 w)
    as [summary w'].
  destruct (is_error_marker summary) eqn:Hsummary; [|exact Hsummary].
  apply degraded_result_is_no_error_marker. exact Hclean.
Qed.

(** X25.  When no insight text is an error-marker (also after leading
    white space is dropped), [compact_insights_collection] never returns
    an error-marker, whether it returns the texts as they are, a summary,
    or the most recent texts after a failed call: the checks its callers
    make on the result can only fire on texts that look like error-markers
    themselves. *)
Theorem compaction_never_returns_an_error_marker
    (E : env) (insights_texts_list : list str)
    (max_tokens_for_context : Z) (prompt_for_compaction : str) (w : world) :
  Forall no_marker_text insights_texts_list ->
  is_error_marker
    (compact_insights_collection E insights_texts_list
       max_tokens_for_context prompt_for_compaction w).1 = false.
Proof.
  apply compaction_keeps_clean_texts_clean.
Qed.

Lemma compaction_never_returns_an_error_marker_witness :
  is_error_marker
    (compact_insights_collection (sample_env service_down)
       [lit "one"; lit "two"; lit "three"] 10 (lit "compact")
       empty_world).1 = false.
Proof.
  apply (compaction_never_returns_an_error_marker (sample_env service_down)
           [lit "one"; lit "two"; lit "three"] 10 (lit "compact")
           empty_world).
  repeat constructor.
Defined.

Lemma lstrip_strip (s : str) : lstrip (strip s) = strip s.
Proof.
  destruct (strip s) as [|c r] eqn:Hs; [reflexivity|].
  cbn [lstrip]. rewrite (strip_head s c r Hs). reflexivity.
Qed.

(** The adapter's result never starts with white space. *)
Lemma adapter_result_has_no_leading_space
    (E : env) (system_prompt user : str) (max_response_tokens : Z)
    (w : world) :
  let result :=
    (call_anthropic_api E system_prompt user max_response_tokens 1 w).1 in
  lstrip result = result.
Proof.
  intros result. subst result.
  destruct (call_anthropic_api_from_trace E
              (Z.to_nat (MAX_API_RETRIES - 1)) system_prompt user
              max_response_tokens 1 w) as (k & _ & _ & Hr & _).
  change (call_anthropic_api_from E (Z.to_nat (MAX_API_RETRIES - 1))
            system_prompt user max_response_tokens 1 w)
    with (call_anthropic_api E system_prompt user max_response_tokens 1 w)
    in Hr.
  rewrite Hr.
  destruct (messages_create E _ _) as [t|code message as_str|as_str];
    [apply lstrip_strip|reflexivity|reflexivity].
Qed.

(** X26.  Starting from insight texts none of which looks like an
    error-marker, an iteration of the chunk loop keeps them so, and it can
    leave the loop in one way only: the call for the chunk returned an
    error-marker, in which case the state is as it was.  The second exit,
    after a failed re-compaction, is never taken. *)
Theorem chunk_loop_breaks_only_on_a_failed_chunk_call
    (E : env) (new_messages : list formatted) (i : nat)
    (vars : loop_vars) (w : world) :
  Forall no_marker_text
    (List.map insight_text (individual_useful_insights (state vars))) ->
  let step := process_chunk E new_messages i vars w in
  Forall no_marker_text
    (List.map insight_text (individual_useful_insights (state step.1.2)))
  /\ (step.1.1 = Break ->
      is_error_marker (chunk_call E new_messages i vars w).1 = true
      /\ state step.1.2 = state vars).
Proof.
  intros Hclean step.
  destruct (chunk_messages_of MESSAGES_PER_CHUNK new_messages i)
    as [|first others] eqn:Hchunk.
  { subst step. unfold process_chunk. rewrite Hchunk. cbn.
    split; [exact Hclean|discriminate]. }
  pose proof (adapter_result_has_no_leading_space E
                (SYSTEM_PROMPT_CHUNK_INSIGHTS E)
                (prompt_content_for_chunk_of
                   (previous_insights_context_str vars)
                   (chunk_messages_of MESSAGES_PER_CHUNK new_messages i))
                1500 w) as Hstripped.
  cbv zeta in Hstripped. fold (chunk_call E new_messages i vars) in Hstripped.
  destruct (process_chunk_cases E new_messages i vars w first others Hchunk)
    as [(w1 & Hbad & Hstep)|[(w1 & _ & Hstep)
        |(ins & context & w3 & Hm & _ & Htext & _ & _ & [w2 Hcontext]
          & Hstep)]];
    fold step in Hstep.
  - rewrite Hstep. cbn. split; [exact Hclean|]. intros _. split;
      [exact Hbad|reflexivity].
  - rewrite Hstep. cbn. split; [exact Hclean|discriminate].
  - assert (Hnew : Forall no_marker_text
                     (List.map insight_text
                        (individual_useful_insights
                           (append_insight (state vars) ins)))).
    { cbn. rewrite map_app. apply Forall_app. split; [exact Hclean|].
      repeat constructor; [exact Hm|].
      rewrite Htext, Hstripped, <- Htext. exact Hm. }
    assert (Hcontext_ok : is_error_marker context = false).
    { rewrite Hcontext.
      apply compaction_keeps_clean_texts_clean. exact Hnew. }
    destruct Hstep as [[Hbad _]|[_ Hstep]]; [congruence|].
    rewrite Hstep. cbn. split; [exact Hnew|discriminate].
Qed.

Lemma chunk_loop_breaks_only_on_a_failed_chunk_call_witness :
  let E := sample_env service_down in
  let vars := initial_loop_vars fresh_state [] in
  let step := process_chunk E two_lines 0 vars empty_world in
  step.1.1 = Break
  /\ is_error_marker (chunk_call E two_lines 0 vars empty_world).1 = true
  /\ state step.1.2 = state vars.
Proof.
  intros E vars step.
  destruct (chunk_loop_breaks_only_on_a_failed_chunk_call E two_lines 0
              vars empty_world) as [_ Hbreak].
  - constructor.
  - split; [reflexivity|]. apply Hbreak. reflexivity.
Defined.
